(** * Storefront core: carts, checkout, payment confirmation, order lifecycle

    A shallow embedding of the server actions of the storefront
    (server/actions/cart.ts, checkout.ts, admin.ts, products.ts, with
    lib/roles.ts and lib/validators.ts) and the properties of its
    specification, proved or refuted on that embedding.

    The database is explicit state: every server action is a function from
    the world before the call to a response and the world after it.  An
    exception leaves the writes made before it in place, because the actions
    open no transaction. *)

From Stdlib Require Import ZArith Floats.
From stdpp Require Import gmap strings list.

Local Open Scope Z_scope.

Set Warnings "-inexact-float".

(** ** JavaScript values

    Money amounts are JavaScript numbers, that is IEEE 754 binary64 values:
    Rocq's primitive floats.  Quantities and inventory counts are integer
    columns and integer-validated inputs; they are kept in [Z].  The one
    quantity no schema is applied to, the argument of
    [updateProductInventory], is a number. *)

(** The property names every object literal inherits from
    [Object.prototype]: a lookup [table[key]] with one of them finds the
    inherited member instead of [undefined]. *)
Definition Object_prototype_keys : list string :=
  ["constructor"; "__defineGetter__"; "__defineSetter__"; "hasOwnProperty";
   "__lookupGetter__"; "__lookupSetter__"; "isPrototypeOf"; "propertyIsEnumerable";
   "toString"; "valueOf"; "__proto__"; "toLocaleString"].

Module Js.

(** The number denoted by an integer (exact below 2^53). *)
Definition of_int (z : Z) : float :=
  if z <? 0 then (- PrimFloat.of_uint63 (Uint63.of_Z (- z)))%float
  else PrimFloat.of_uint63 (Uint63.of_Z z).

Definition is_nan (x : float) : bool := negb (x =? x)%float.

(** ToBoolean on a number: [0], [-0] and [NaN] are falsy. *)
Definition truthy (x : float) : bool := negb ((x =? 0)%float || is_nan x).

(** The values met where a number is expected: a number, [undefined], a
    member inherited from [Object.prototype] (a function, or the prototype
    itself for ['__proto__']), or the string that [+] makes of a number and
    such a member (its text depends on the engine and is not kept). *)
Inductive Value :=
  | Number (x : float)
  | Undefined
  | Member (name : string)
  | Text.

(** [table[key]] for an object literal of numbers. *)
Definition lookup (table : string → option float) (key : string) : Value :=
  match table key with
  | Some x => Number x
  | None => if bool_decide (key ∈ Object_prototype_keys) then Member key else Undefined
  end.

(** [v || dflt]: [undefined] and the falsy numbers give [dflt]; an object
    or a function is truthy. *)
Definition or (v dflt : Value) : Value :=
  match v with
  | Number x => if truthy x then v else dflt
  | Undefined => dflt
  | Member _ | Text => v
  end.

(** ToNumber: a function, an object without a numeric [valueOf] and
    [undefined] all give [NaN], and so does the text of a function. *)
Definition to_number (v : Value) : float :=
  match v with
  | Number x => x
  | Undefined | Member _ | Text => nan
  end.

(** [a + b]: numbers are added; [undefined] counts as [NaN]; with a
    function, an object or a string on either side the result is a string. *)
Definition plus (a b : Value) : Value :=
  match a, b with
  | (Member _ | Text), _ | _, (Member _ | Text) => Text
  | _, _ => Number (to_number a + to_number b)
  end.

(** The whole number a number is, if it is one. *)
Definition to_int (x : float) : option Z :=
  match Prim2SF x with
  | S754_zero _ => Some 0
  | S754_finite s m e =>
      let v := if s then Z.neg m else Z.pos m in
      if 0 <=? e then Some (v * 2 ^ e)
      else if v mod 2 ^ (- e) =? 0 then Some (v / 2 ^ (- e))
      else None
  | _ => None
  end.

(** [Math.max(x, y)]: [NaN] if either is; [+0] is larger than [-0]. *)
Definition Math_max (x y : float) : float :=
  if is_nan x || is_nan y then nan
  else if (x <? y)%float then y
  else if (y <? x)%float then x
  else match classify x with NZero => y | _ => x end.

(** [x >= y] *)
Definition ge (x y : float) : bool := (y <=? x)%float.

(** [s || undefined] on the result of [formData.get]: [null] and the empty
    string both give [undefined]. *)
Definition str_or_undefined (s : option string) : option string :=
  match s with
  | Some "" => None
  | other => other
  end.

(** [Math.round]: the nearest integer, a tie going up; zeros, infinities
    and [NaN] are returned as they are. *)
Definition Math_round (x : float) : float :=
  match Prim2SF x with
  | S754_finite s m e =>
      if 0 <=? e then x
      else
        let d := 2 ^ (- e) in
        let v := if s then Z.neg m else Z.pos m in
        let n := (2 * v + d) / (2 * d) in
        if n =? 0 then (if s then (-0)%float else 0%float) else of_int n
  | _ => x
  end.

End Js.

(** ** Data model (the rows the actions read and write) *)

Inductive OrderStatus :=
  PENDING | PROCESSING | SHIPPED | DELIVERED | CANCELLED | REFUNDED.

#[global] Instance OrderStatus_eq_dec : EqDecision OrderStatus.
Proof. solve_decision. Defined.

Inductive Role := USER | ADMIN | SUPER_ADMIN.

#[global] Instance Role_eq_dec : EqDecision Role.
Proof. solve_decision. Defined.

Record User := { u_id : string; u_role : Role }.

Record Product := {
  p_id : string;
  p_name : string;
  p_price : float;
  p_inventory : Z;
  p_isActive : bool;
}.

Record Cart := {
  cart_id : string;
  cart_userId : option string;
  cart_sessionId : option string;
}.

Record CartItem := {
  ci_id : string;
  ci_cartId : string;
  ci_productId : string;
  ci_variantId : option string;
  ci_quantity : Z;
}.

Record Address := {
  line1 : string;
  line2 : option string;
  city : string;
  state : string;
  postalCode : string;
  country : string;
}.

Record OrderItem := {
  oi_productId : string;
  oi_quantity : Z;
  oi_price : float;
}.

Record Order := {
  o_id : string;
  o_userId : option string;
  o_status : OrderStatus;
  o_subtotal : float;
  o_shippingCost : float;
  o_tax : float;
  o_total : float;
  o_customerEmail : string;
  o_customerName : string;
  o_customerPhone : option string;
  o_shippingAddress : Address;
  o_billingAddress : Address;
  o_shippingMethod : string;
  o_notes : option string;
  o_items : list OrderItem;
  o_stripeSessionId : option string;
  o_stripePaymentIntentId : option string;
  o_trackingNumber : option string;
  o_paidAt : option Z;
  o_cancelledAt : option Z;
  o_updatedAt : Z;
}.

(** What the payment processor keeps of a checkout session. *)
Record StripeSession := {
  ss_id : string;
  ss_url : string;
  ss_orderId : option string;        (* metadata.orderId *)
  ss_paymentIntent : option string;  (* payment_intent?.id *)
}.

Record Email := {
  em_to : string;
  em_subject : string;
}.

(** Effects that leave the process: cookies set on the response, mail
    handed to the mail service, cache tags revalidated. *)
Inductive Effect :=
  | SetCookie (name value : string)
  | Mail (e : Email)
  | Revalidate (tag : string).

Record World := {
  products : gmap string Product;
  carts : list Cart;
  cartItems : list CartItem;
  orders : gmap string Order;
  stripeSessions : gmap string StripeSession;
  effects : list Effect;
}.

(** What a request brings with it: the signed-in user, the [cart-session]
    cookie, the clock, the [ADMIN_EMAIL] setting, and whether the payment
    processor answers the call to open a session. *)
Record Request := {
  req_user : option User;
  req_cartSession : option string;
  req_now : Z;
  req_adminEmail : option string;
  req_stripeUp : bool;
}.

(** ** Field updates *)

Definition set_inventory (p : Product) (n : Z) : Product :=
  {| p_id := p_id p; p_name := p_name p; p_price := p_price p;
     p_inventory := n; p_isActive := p_isActive p |}.

Definition set_quantity (q : Z) (r : CartItem) : CartItem :=
  {| ci_id := ci_id r; ci_cartId := ci_cartId r; ci_productId := ci_productId r;
     ci_variantId := ci_variantId r; ci_quantity := q |}.

Definition with_products (f : gmap string Product → gmap string Product) (w : World) : World :=
  {| products := f (products w); carts := carts w; cartItems := cartItems w;
     orders := orders w; stripeSessions := stripeSessions w; effects := effects w |}.

Definition with_carts (f : list Cart → list Cart) (w : World) : World :=
  {| products := products w; carts := f (carts w); cartItems := cartItems w;
     orders := orders w; stripeSessions := stripeSessions w; effects := effects w |}.

Definition with_cartItems (f : list CartItem → list CartItem) (w : World) : World :=
  {| products := products w; carts := carts w; cartItems := f (cartItems w);
     orders := orders w; stripeSessions := stripeSessions w; effects := effects w |}.

Definition with_orders (f : gmap string Order → gmap string Order) (w : World) : World :=
  {| products := products w; carts := carts w; cartItems := cartItems w;
     orders := f (orders w); stripeSessions := stripeSessions w; effects := effects w |}.

Definition with_stripeSessions
  (f : gmap string StripeSession → gmap string StripeSession) (w : World) : World :=
  {| products := products w; carts := carts w; cartItems := cartItems w;
     orders := orders w; stripeSessions := f (stripeSessions w); effects := effects w |}.

Definition with_effect (e : Effect) (w : World) : World :=
  {| products := products w; carts := carts w; cartItems := cartItems w;
     orders := orders w; stripeSessions := stripeSessions w;
     effects := effects w ++ [e] |}.

(** ** Actions: state with exceptions

    [Act A] is a computation over the world that returns an [A] or throws.
    The world reached when the exception was thrown is kept. *)

Inductive Exn :=
  | ZodError
  | RecordNotFound
  | Redirect (url : string)
  | StripeError
  | PrismaValidationError
  | JsError (msg : string).

Definition Act (A : Type) : Type := World → (Exn + A) * World.

#[global] Instance Act_ret : MRet Act := λ A a w, (inr a, w).

#[global] Instance Act_bind : MBind Act := λ A B f m w,
  match m w with
  | (inl e, w') => (inl e, w')
  | (inr a, w') => f a w'
  end.

Definition throw {A} (e : Exn) : Act A := λ w, (inl e, w).

Definition gets {A} (f : World → A) : Act A := λ w, (inr (f w), w).

Definition modify (f : World → World) : Act unit := λ w, (inr tt, f w).

Definition try_catch {A} (body : Act A) (handler : Exn → Act A) : Act A := λ w,
  match body w with
  | (inl e, w') => handler e w'
  | (inr a, w') => (inr a, w')
  end.

(** [for (const x of xs) { await body(x) }] *)
Fixpoint for_each {A} (xs : list A) (body : A → Act unit) : Act unit :=
  match xs with
  | [] => mret tt
  | x :: rest => body x ;; for_each rest body
  end.

(** The object a server action returns: [{ success: true, ... }] or
    [{ success: false, error }]. *)
Inductive Response (A : Type) :=
  | Success (payload : A)
  | Failure (error : string).
Arguments Success {A} payload.
Arguments Failure {A} error.

(** [try { body } catch (error) { console.error(..); return { success: false, error: msg } }] *)
Definition server_action {A} (msg : string) (body : Act (Response A))
  : World → Response A * World := λ w,
  match body w with
  | (inl _, w') => (Failure msg, w')
  | (inr r, w') => (r, w')
  end.

Definition revalidateTag (tag : string) : Act unit := modify (with_effect (Revalidate tag)).

(** ** lib/roles.ts *)

Inductive Permission :=
  | PRODUCT_CREATE | PRODUCT_READ | PRODUCT_UPDATE | PRODUCT_DELETE
  | ORDER_CREATE | ORDER_READ | ORDER_UPDATE | ORDER_DELETE | ORDER_READ_ALL
  | USER_READ | USER_UPDATE | USER_DELETE | USER_READ_ALL
  | ADMIN_ACCESS | ANALYTICS_READ | SETTINGS_UPDATE.

#[global] Instance Permission_eq_dec : EqDecision Permission.
Proof. solve_decision. Defined.

Definition ROLE_PERMISSIONS (r : Role) : list Permission :=
  match r with
  | USER =>
      [PRODUCT_READ; ORDER_CREATE; ORDER_READ; USER_READ; USER_UPDATE]
  | ADMIN =>
      [PRODUCT_CREATE; PRODUCT_READ; PRODUCT_UPDATE; PRODUCT_DELETE;
       ORDER_READ; ORDER_UPDATE; ORDER_READ_ALL;
       USER_READ; USER_UPDATE; USER_READ_ALL;
       ADMIN_ACCESS; ANALYTICS_READ]
  | SUPER_ADMIN =>
      [PRODUCT_CREATE; PRODUCT_READ; PRODUCT_UPDATE; PRODUCT_DELETE;
       ORDER_CREATE; ORDER_READ; ORDER_UPDATE; ORDER_DELETE; ORDER_READ_ALL;
       USER_READ; USER_UPDATE; USER_DELETE; USER_READ_ALL;
       ADMIN_ACCESS; ANALYTICS_READ; SETTINGS_UPDATE]
  end.

Definition getCurrentUser (req : Request) : option User := req_user req.

Definition hasPermission (req : Request) (permission : Permission) : bool :=
  match getCurrentUser req with
  | None => false
  | Some user => bool_decide (permission ∈ ROLE_PERMISSIONS (u_role user))
  end.

(** [redirect] leaves the caller by throwing. *)
Definition requireAuth (req : Request) : Act User :=
  match getCurrentUser req with
  | None => throw (Redirect "/auth/signin")
  | Some user => mret user
  end.

Definition requirePermission (req : Request) (permission : Permission) : Act User :=
  user ← requireAuth req;
  if hasPermission req permission then mret user
  else throw (Redirect "/unauthorized").

(** ** lib/validators.ts (the schemas the modelled actions parse with)

    A form field is what [formData.get] gives: [None] for [null].  A parsed
    quantity is what [parseInt] gives: [None] for [NaN]. *)

Record AddToCartInput := {
  ac_productId : string;
  ac_quantity : Z;
  ac_variantId : option string;
}.

Definition addToCartSchema_parse
  (productId : option string) (quantity : option Z) (variantId : option string)
  : Act AddToCartInput :=
  match productId, quantity with
  | Some pid, Some q =>
      if bool_decide (1 ≤ String.length pid)%nat && (1 <=? q) && (q <=? 100)
      then mret {| ac_productId := pid; ac_quantity := q; ac_variantId := variantId |}
      else throw ZodError
  | _, _ => throw ZodError
  end.

Definition updateCartItemSchema_parse (quantity : option Z) : Act Z :=
  match quantity with
  | Some q => if (0 <=? q) && (q <=? 100) then mret q else throw ZodError
  | None => throw ZodError
  end.

Definition removeFromCartSchema_parse
  (productId : option string) (variantId : option string)
  : Act (string * option string) :=
  match productId with
  | Some pid =>
      if bool_decide (1 ≤ String.length pid)%nat then mret (pid, variantId)
      else throw ZodError
  | None => throw ZodError
  end.

Definition parse_OrderStatus (s : string) : option OrderStatus :=
  if String.eqb s "PENDING" then Some PENDING
  else if String.eqb s "PROCESSING" then Some PROCESSING
  else if String.eqb s "SHIPPED" then Some SHIPPED
  else if String.eqb s "DELIVERED" then Some DELIVERED
  else if String.eqb s "CANCELLED" then Some CANCELLED
  else if String.eqb s "REFUNDED" then Some REFUNDED
  else None.

Record UpdateOrderStatusInput := {
  us_status : OrderStatus;
  us_trackingNumber : option string;
  us_notes : option string;
}.

Definition updateOrderStatusSchema_parse
  (status : option string) (trackingNumber notes : option string)
  : Act UpdateOrderStatusInput :=
  match status ≫= parse_OrderStatus with
  | Some st =>
      mret {| us_status := st; us_trackingNumber := trackingNumber; us_notes := notes |}
  | None => throw ZodError
  end.

(** ** server/actions/cart.ts *)

(** A [where] condition on [variantId]: Prisma skips a condition whose value
    is [undefined] and compares with the column otherwise ([null] included). *)
Inductive VariantFilter :=
  | AnyVariant
  | VariantEquals (v : option string).

Definition variant_matches (f : VariantFilter) (r : CartItem) : bool :=
  match f with
  | AnyVariant => true
  | VariantEquals v => bool_decide (ci_variantId r = v)
  end.

(** The filter built from an optional input field. *)
Definition variant_where (v : option string) : VariantFilter :=
  match v with
  | None => AnyVariant
  | Some s => VariantEquals (Some s)
  end.

Definition line_matches (cartId productId : string) (f : VariantFilter) (r : CartItem) : bool :=
  bool_decide (ci_cartId r = cartId) && bool_decide (ci_productId r = productId)
  && variant_matches f r.

(** [prisma.cart.upsert({ where, update: {}, create })]; the new row gets an
    id no cart has. *)
Definition upsert_cart (found : Cart → bool) (create : string → Cart) : Act Cart :=
  existing ← gets (λ w, find found (carts w));
  match existing with
  | Some c => mret c
  | None =>
      id ← gets (λ w, fresh (cart_id <$> carts w));
      modify (with_carts (λ cs, cs ++ [create id])) ;;
      mret (create id)
  end.

(** Get or create cart session.  The rows included with the cart are not
    read by any caller, so only the cart row is returned.  [nanoid()] is
    taken to give a session id no cart has. *)
Definition getCartSession (req : Request) : Act Cart :=
  match getCurrentUser req with
  | Some user =>
      upsert_cart (λ c, bool_decide (cart_userId c = Some (u_id user)))
        (λ id, {| cart_id := id; cart_userId := Some (u_id user); cart_sessionId := None |})
  | None =>
      sessionId ←
        match Js.str_or_undefined (req_cartSession req) with
        | Some s => mret s
        | None =>
            s ← gets (λ w, fresh (omap cart_sessionId (carts w)));
            modify (with_effect (SetCookie "cart-session" s)) ;;
            mret s
        end;
      upsert_cart (λ c, bool_decide (cart_sessionId c = Some sessionId))
        (λ id, {| cart_id := id; cart_userId := None; cart_sessionId := Some sessionId |})
  end.

(** [prisma.cartItem.update({ where: { id }, data: { quantity } })] *)
Definition cartItem_update (id : string) (quantity : Z) : Act unit := λ w,
  if existsb (λ r, bool_decide (ci_id r = id)) (cartItems w)
  then (inr tt,
        with_cartItems
          (fmap (λ r, if bool_decide (ci_id r = id) then set_quantity quantity r else r)) w)
  else (inl RecordNotFound, w).

(** [prisma.cartItem.delete({ where: { id } })] *)
Definition cartItem_delete (id : string) : Act unit := λ w,
  if existsb (λ r, bool_decide (ci_id r = id)) (cartItems w)
  then (inr tt, with_cartItems (filter (λ r, ci_id r ≠ id)) w)
  else (inl RecordNotFound, w).

(** [prisma.cartItem.create({ data })]; the new row gets an id no line has. *)
Definition cartItem_create
  (cartId productId : string) (quantity : Z) (variantId : option string) : Act unit :=
  modify (λ w,
    with_cartItems (λ rs, rs ++
      [{| ci_id := fresh (ci_id <$> rs); ci_cartId := cartId; ci_productId := productId;
          ci_variantId := variantId; ci_quantity := quantity |}]) w).

(** [prisma.cartItem.deleteMany({ where })] *)
Definition cartItem_deleteMany (cond : CartItem → bool) : Act unit :=
  modify (with_cartItems (filter (λ r, cond r = false))).

Record AddToCartForm := {
  fd_productId : option string;
  fd_quantity : option Z;
  fd_variantId : option string;
}.

Definition addToCart (req : Request) (formData : AddToCartForm)
  : World → Response unit * World :=
  server_action "Failed to add item to cart" (
    validatedData ← addToCartSchema_parse (fd_productId formData) (fd_quantity formData)
                      (Js.str_or_undefined (fd_variantId formData));
    (* Check if product exists and is active *)
    product ← gets (λ w, products w !! ac_productId validatedData);
    match product with
    | None => mret (Failure "Product not found or unavailable")
    | Some product =>
        if negb (p_isActive product) then
          mret (Failure "Product not found or unavailable")
        else if p_inventory product <? ac_quantity validatedData then
          mret (Failure "Insufficient inventory")
        else
          cart ← getCartSession req;
          (* Check if item already exists in cart *)
          existingItem ← gets (λ w,
            find (line_matches (cart_id cart) (ac_productId validatedData)
                    (variant_where (ac_variantId validatedData)))
                 (cartItems w));
          match existingItem with
          | Some existingItem =>
              let newQuantity := ci_quantity existingItem + ac_quantity validatedData in
              if p_inventory product <? newQuantity then
                mret (Failure "Cannot add more items than available in inventory")
              else
                cartItem_update (ci_id existingItem) newQuantity ;;
                revalidateTag "cart" ;;
                mret (Success tt)
          | None =>
              cartItem_create (cart_id cart) (ac_productId validatedData)
                (ac_quantity validatedData) (ac_variantId validatedData) ;;
              revalidateTag "cart" ;;
              mret (Success tt)
          end
    end).

(** A relation loaded with [include]: the product row of a cart line.  The
    product is a required relation, so the query fails when it is absent. *)
Definition include_product (r : CartItem) : Act (CartItem * Product) :=
  p ← gets (λ w, products w !! ci_productId r);
  match p with
  | Some p => mret (r, p)
  | None => throw (JsError "Inconsistent query result")
  end.

Definition updateCartItem (req : Request) (itemId : string) (quantity : option Z)
  : World → Response unit * World :=
  server_action "Failed to update cart item" (
    validatedQuantity ← updateCartItemSchema_parse quantity;
    cart ← getCartSession req;
    found ← gets (λ w,
      find (λ r, bool_decide (ci_id r = itemId) && bool_decide (ci_cartId r = cart_id cart))
           (cartItems w));
    match found with
    | None => mret (Failure "Cart item not found")
    | Some row =>
        cartItem ← include_product row;
        if validatedQuantity =? 0 then
          cartItem_delete itemId ;;
          revalidateTag "cart" ;;
          mret (Success tt)
        else if p_inventory (cartItem.2) <? validatedQuantity then
          mret (Failure "Quantity exceeds available inventory")
        else
          cartItem_update itemId validatedQuantity ;;
          revalidateTag "cart" ;;
          mret (Success tt)
    end).

Definition removeFromCart (req : Request) (productId variantId : option string)
  : World → Response unit * World :=
  server_action "Failed to remove item from cart" (
    validatedData ← removeFromCartSchema_parse productId (Js.str_or_undefined variantId);
    cart ← getCartSession req;
    cartItem_deleteMany
      (line_matches (cart_id cart) validatedData.1 (variant_where validatedData.2)) ;;
    revalidateTag "cart" ;;
    mret (Success tt)).

Definition clearCart (req : Request) : World → Response unit * World :=
  server_action "Failed to clear cart" (
    cart ← getCartSession req;
    cartItem_deleteMany (λ r, bool_decide (ci_cartId r = cart_id cart)) ;;
    revalidateTag "cart" ;;
    mret (Success tt)).

Record CartView := {
  cv_id : string;
  cv_items : list (CartItem * Product);
  cv_total : float;
  cv_itemCount : Z;
}.

(** [forM]: run an action on every element and collect the results. *)
Fixpoint for_all {A B} (xs : list A) (f : A → Act B) : Act (list B) :=
  match xs with
  | [] => mret []
  | x :: rest => y ← f x; ys ← for_all rest f; mret (y :: ys)
  end.

(** [cartItems.reduce((sum, item) => sum + item.product.price * item.quantity, 0)] *)
Definition cart_total (items : list (CartItem * Product)) : float :=
  fold_left (λ sum item, (sum + p_price item.2 * Js.of_int (ci_quantity item.1))%float)
    items 0%float.

Definition cart_itemCount (items : list (CartItem * Product)) : Z :=
  fold_left (λ sum item, sum + ci_quantity item.1) items 0.

Definition getCart (req : Request) : Act CartView :=
  try_catch (
    cart ← getCartSession req;
    rows ← gets (λ w, filter (λ r, ci_cartId r = cart_id cart) (cartItems w));
    cartItems ← for_all rows include_product;
    mret {| cv_id := cart_id cart; cv_items := cartItems;
            cv_total := cart_total cartItems; cv_itemCount := cart_itemCount cartItems |})
  (λ _, mret {| cv_id := ""; cv_items := []; cv_total := 0%float; cv_itemCount := 0 |}).

Record GuestCart := {
  gc_cart : Cart;
  gc_items : list CartItem;
}.

(** Modelled from the spec: what [prisma.cart.delete({ where: { id } })]
    does to the lines of the cart is fixed by the schema
    (prisma/schema.prisma), which is not part of the sources; the spec's Cart
    owns its lines, so deleting a cart removes its lines with it. *)
Definition cart_delete (id : string) : Act unit := λ w,
  if existsb (λ c, bool_decide (cart_id c = id)) (carts w)
  then (inr tt,
        with_cartItems (filter (λ r, ci_cartId r ≠ id))
          (with_carts (filter (λ c, cart_id c ≠ id)) w))
  else (inl RecordNotFound, w).

Definition mergeGuestCart (req : Request) (guestSessionId : string)
  : World → Response unit * World :=
  server_action "Failed to merge guest cart" (
    match getCurrentUser req with
    | None => mret (Failure "User not authenticated")
    | Some user =>
        guestCart ← gets (λ w,
          c ← find (λ c, bool_decide (cart_sessionId c = Some guestSessionId)) (carts w);
          Some {| gc_cart := c;
                  gc_items := filter (λ r, ci_cartId r = cart_id c) (cartItems w) |});
        match guestCart with
        | None => mret (Success tt) (* Nothing to merge *)
        | Some guestCart =>
            if bool_decide (gc_items guestCart = []) then mret (Success tt)
            else
              userCart ← upsert_cart (λ c, bool_decide (cart_userId c = Some (u_id user)))
                (λ id, {| cart_id := id; cart_userId := Some (u_id user);
                          cart_sessionId := None |});
              (* Merge items from guest cart to user cart *)
              for_each (gc_items guestCart) (λ item,
                existingItem ← gets (λ w,
                  find (line_matches (cart_id userCart) (ci_productId item)
                          (VariantEquals (ci_variantId item)))
                       (cartItems w));
                match existingItem with
                | Some existingItem =>
                    cartItem_update (ci_id existingItem)
                      (ci_quantity existingItem + ci_quantity item)
                | None =>
                    cartItem_create (cart_id userCart) (ci_productId item)
                      (ci_quantity item) (ci_variantId item)
                end) ;;
              (* Delete guest cart *)
              cart_delete (cart_id (gc_cart guestCart)) ;;
              revalidateTag "cart" ;;
              mret (Success tt)
        end
    end).

(** ** lib/emails.ts

    The senders catch their own errors, so a send never throws; the mail
    handed over is logged.  The body, built from the order's lines and the
    joined product names, is not kept.  The schema's foreign keys keep the
    product of every order line present, so those joins cannot fail. *)

Definition sendOrderConfirmation (order : Order) : Act unit :=
  modify (with_effect (Mail {| em_to := o_customerEmail order;
                               em_subject := "Order Confirmation - #" +:+ o_id order |})).

Definition sendLowStockAlert (adminEmail productName : string) (currentStock : float)
  : Act unit :=
  modify (with_effect (Mail {| em_to := adminEmail;
                               em_subject := "Low Stock Alert: " +:+ productName |})).

(** ** Prisma calls on products and orders *)

(** [prisma.product.update({ where: { id }, data: { inventory: f(inventory) } })] *)
Definition product_update (id : string) (f : Z → Z) : Act Product := λ w,
  match products w !! id with
  | Some p =>
      let p' := set_inventory p (f (p_inventory p)) in
      (inr p', with_products (insert id p') w)
  | None => (inl RecordNotFound, w)
  end.

(** [prisma.product.update({ where: { id }, data: { inventory: n } })] for a
    number [n] computed by the caller: [inventory] is an Int column, and the
    client rejects a number that is not whole.  The range of the column is
    not modelled, as for the other Int columns. *)
Definition product_update_inventory (id : string) (n : float) : Act Product :=
  match Js.to_int n with
  | Some z => product_update id (λ _, z)
  | None => throw PrismaValidationError
  end.

(** [prisma.order.update({ where: { id }, data })] *)
Definition order_update (id : string) (f : Order → Order) : Act Order := λ w,
  match orders w !! id with
  | Some o => (inr (f o), with_orders (insert id (f o)) w)
  | None => (inl RecordNotFound, w)
  end.

(** ** server/actions/products.ts *)

Inductive InventoryOperation := SET | ADD | SUBTRACT.

(** [quantity] is a number: the action applies no schema to it
    ([updateInventorySchema] of lib/validators.ts is not used), so the new
    count is computed in binary64. *)
Definition updateProductInventory
  (req : Request) (productId : string) (quantity : float) (operation : InventoryOperation)
  : World → Response Product * World :=
  server_action "Failed to update product inventory" (
    requirePermission req PRODUCT_UPDATE ;;
    product ← gets (λ w, products w !! productId);
    match product with
    | None => mret (Failure "Product not found")
    | Some product =>
        let newQuantity :=
          match operation with
          | ADD => (Js.of_int (p_inventory product) + quantity)%float
          | SUBTRACT => Js.Math_max 0 (Js.of_int (p_inventory product) - quantity)%float
          | SET => quantity
          end in
        updatedProduct ← product_update_inventory productId newQuantity;
        (* Check if inventory is low (below 10) *)
        (if (newQuantity <=? 10)%float && (0 <? newQuantity)%float then
           match Js.str_or_undefined (req_adminEmail req) with
           | Some adminEmail => sendLowStockAlert adminEmail (p_name product) newQuantity
           | None => mret tt
           end
         else mret tt) ;;
        revalidateTag "products" ;;
        revalidateTag "inventory" ;;
        mret (Success updatedProduct)
    end).

(** ** server/actions/admin.ts *)

Record UpdateOrderStatusForm := {
  fs_status : option string;
  fs_trackingNumber : option string;
  fs_notes : option string;
}.

(** The [data] of the status update; a field that is [undefined] is left as
    it is. *)
Definition apply_status_update (v : UpdateOrderStatusInput) (now : Z) (o : Order) : Order :=
  {| o_id := o_id o; o_userId := o_userId o;
     o_status := us_status v;
     o_subtotal := o_subtotal o; o_shippingCost := o_shippingCost o;
     o_tax := o_tax o; o_total := o_total o;
     o_customerEmail := o_customerEmail o; o_customerName := o_customerName o;
     o_customerPhone := o_customerPhone o;
     o_shippingAddress := o_shippingAddress o; o_billingAddress := o_billingAddress o;
     o_shippingMethod := o_shippingMethod o;
     o_notes := match us_notes v with Some n => Some n | None => o_notes o end;
     o_items := o_items o;
     o_stripeSessionId := o_stripeSessionId o;
     o_stripePaymentIntentId := o_stripePaymentIntentId o;
     o_trackingNumber :=
       match us_trackingNumber v with Some t => Some t | None => o_trackingNumber o end;
     o_paidAt := o_paidAt o; o_cancelledAt := o_cancelledAt o;
     o_updatedAt := now |}.

Definition updateOrderStatus (req : Request) (orderId : string) (formData : UpdateOrderStatusForm)
  : World → Response Order * World :=
  server_action "Failed to update order status" (
    requirePermission req ORDER_UPDATE ;;
    validatedData ← updateOrderStatusSchema_parse (fs_status formData)
                      (Js.str_or_undefined (fs_trackingNumber formData))
                      (Js.str_or_undefined (fs_notes formData));
    order ← order_update orderId (apply_status_update validatedData (req_now req));
    (* Send email notification for certain status changes *)
    (if bool_decide (us_status validatedData ∈ [SHIPPED; DELIVERED])
     then sendOrderConfirmation order
     else mret tt) ;;
    revalidateTag "orders" ;;
    mret (Success order)).

(** ** server/actions/checkout.ts *)

Record CheckoutItem := {
  ck_productId : string;
  ck_quantity : Z;
  ck_price : float;
}.

(** [cu_emailOk] is the verdict of zod's [email()] check on [cu_email]; the
    pattern it tests belongs to the library. *)
Record CustomerInfo := {
  cu_email : string;
  cu_emailOk : bool;
  cu_firstName : string;
  cu_lastName : string;
  cu_phone : option string;
}.

(** The checkout form after [JSON.parse] of its fields.  A billing address
    that is not sent is parsed from ['null'] and reaches the schema as
    [null] ([None] here), which [optional()] does not accept. *)
Record CheckoutForm := {
  cf_items : list CheckoutItem;
  cf_shippingAddress : Address;
  cf_billingAddress : option Address;
  cf_customerInfo : CustomerInfo;
  cf_shippingMethod : option string;
  cf_notes : option string;
}.

Record CheckoutInput := {
  cd_items : list CheckoutItem;
  cd_shippingAddress : Address;
  cd_billingAddress : option Address;
  cd_customerInfo : CustomerInfo;
  cd_shippingMethod : string;
  cd_notes : option string;
}.

Definition nonempty (s : string) : bool := bool_decide (1 ≤ String.length s)%nat.

Definition shippingAddressSchema_ok (a : Address) : bool :=
  nonempty (line1 a) && nonempty (city a) && nonempty (state a)
  && nonempty (postalCode a) && nonempty (country a).

Definition checkoutItem_ok (i : CheckoutItem) : bool :=
  (1 <=? ck_quantity i) && (0 <=? ck_price i)%float.

Definition checkoutSchema_parse (d : CheckoutForm) : Act CheckoutInput :=
  match cf_shippingMethod d with
  | Some method =>
      if forallb checkoutItem_ok (cf_items d)
         && bool_decide (1 ≤ length (cf_items d))%nat
         && shippingAddressSchema_ok (cf_shippingAddress d)
         && from_option shippingAddressSchema_ok false (cf_billingAddress d)
         && cu_emailOk (cf_customerInfo d)
         && nonempty (cu_firstName (cf_customerInfo d))
         && nonempty (cu_lastName (cf_customerInfo d))
         && nonempty method
      then mret {| cd_items := cf_items d;
                   cd_shippingAddress := cf_shippingAddress d;
                   cd_billingAddress := cf_billingAddress d;
                   cd_customerInfo := cf_customerInfo d;
                   cd_shippingMethod := method;
                   cd_notes := Js.str_or_undefined (cf_notes d) |}
      else throw ZodError
  | None => throw ZodError
  end.

Definition shippingRates (method : string) : option float :=
  if String.eqb method "standard" then Some 5.99%float
  else if String.eqb method "express" then Some 12.99%float
  else if String.eqb method "overnight" then Some 24.99%float
  else if String.eqb method "free" then Some 0%float
  else None.

(** The declared result is a number; for a method named like a member of
    [Object.prototype] what comes back is that member. *)
Definition calculateShippingCost (method : string) (address : Address) (orderValue : float)
  : Js.Value :=
  (* Free shipping for orders over $75 *)
  if Js.ge orderValue 75%float then Js.Number 0%float
  else Js.or (Js.lookup shippingRates method) (Js.Number 5.99%float).

Definition taxRates (st : string) : option float :=
  if String.eqb st "CA" then Some 0.08%float
  else if String.eqb st "NY" then Some 0.08%float
  else if String.eqb st "TX" then Some 0.065%float
  else if String.eqb st "FL" then Some 0.06%float
  else None.

Definition calculateTax (subtotal : float) (st : string) : float :=
  let taxRate := Js.or (Js.lookup taxRates st) (Js.Number 0%float) in
  (subtotal * Js.to_number taxRate)%float.

(** The loop "Check inventory for all items": the message of the first
    [return] it takes, if any. *)
Fixpoint check_inventory (items : list CheckoutItem) : Act (option string) :=
  match items with
  | [] => mret None
  | item :: rest =>
      product ← gets (λ w, products w !! ck_productId item);
      match product with
      | None => mret (Some "One or more products are unavailable")
      | Some product =>
          if negb (p_isActive product) then
            mret (Some "One or more products are unavailable")
          else if p_inventory product <? ck_quantity item then
            mret (Some "Insufficient inventory for one or more items")
          else check_inventory rest
      end
  end.

(** The order line created from a line of the form. *)
Definition order_line (item : CheckoutItem) : OrderItem :=
  {| oi_productId := ck_productId item;
     oi_quantity := ck_quantity item;
     oi_price := ck_price item |}.

Definition new_order (id : string) (user : option User) (v : CheckoutInput)
  (subtotal shippingCost tax total : float) (now : Z) : Order :=
  {| o_id := id;
     o_userId := u_id <$> user;
     o_status := PENDING;
     o_subtotal := subtotal; o_shippingCost := shippingCost; o_tax := tax; o_total := total;
     o_customerEmail := cu_email (cd_customerInfo v);
     o_customerName :=
       cu_firstName (cd_customerInfo v) +:+ " " +:+ cu_lastName (cd_customerInfo v);
     o_customerPhone := cu_phone (cd_customerInfo v);
     o_shippingAddress := cd_shippingAddress v;
     o_billingAddress := default (cd_shippingAddress v) (cd_billingAddress v);
     o_shippingMethod := cd_shippingMethod v;
     o_notes := cd_notes v;
     o_items := order_line <$> cd_items v;
     o_stripeSessionId := None; o_stripePaymentIntentId := None;
     o_trackingNumber := None; o_paidAt := None; o_cancelledAt := None;
     o_updatedAt := now |}.

(** [prisma.order.create({ data })]; the new row gets an id no order has. *)
Definition order_create (mk : string → Order) : Act Order := λ w,
  let id := fresh (dom (orders w)) in
  (inr (mk id), with_orders (insert id (mk id)) w).

(** The value given for a Float column: the client rejects [data] in which
    it is not a number.  ([NaN] is a number to this check; what the database
    does with one depends on the schema, which is not among the sources.) *)
Definition float_field (v : Js.Value) : Act float :=
  match v with
  | Js.Number x => mret x
  | _ => throw PrismaValidationError
  end.

(** lib/stripe.ts [createCheckoutSession]: the processor opens a session
    under an id of its own and keeps the metadata; the line items sent along
    stay with the processor. *)
Definition createCheckoutSession (req : Request) (orderId : string) : Act StripeSession := λ w,
  if req_stripeUp req then
    let id := fresh (dom (stripeSessions w)) in
    let s := {| ss_id := id; ss_url := "https://checkout.stripe.com/c/pay/" +:+ id;
                ss_orderId := Some orderId; ss_paymentIntent := None |} in
    (inr s, with_stripeSessions (insert id s) w)
  else (inl StripeError, w).

Definition set_stripeSessionId (sid : string) (o : Order) : Order :=
  {| o_id := o_id o; o_userId := o_userId o; o_status := o_status o;
     o_subtotal := o_subtotal o; o_shippingCost := o_shippingCost o;
     o_tax := o_tax o; o_total := o_total o;
     o_customerEmail := o_customerEmail o; o_customerName := o_customerName o;
     o_customerPhone := o_customerPhone o;
     o_shippingAddress := o_shippingAddress o; o_billingAddress := o_billingAddress o;
     o_shippingMethod := o_shippingMethod o; o_notes := o_notes o;
     o_items := o_items o;
     o_stripeSessionId := Some sid;
     o_stripePaymentIntentId := o_stripePaymentIntentId o;
     o_trackingNumber := o_trackingNumber o;
     o_paidAt := o_paidAt o; o_cancelledAt := o_cancelledAt o;
     o_updatedAt := o_updatedAt o |}.

Definition createCheckout (req : Request) (formData : CheckoutForm)
  : World → Response (string * string) * World :=
  server_action "Failed to create checkout session" (
    validatedData ← checkoutSchema_parse formData;
    let user := getCurrentUser req in
    (* Verify cart items and calculate total *)
    cart ← getCart req;
    if bool_decide (cv_items cart = []) then mret (Failure "Cart is empty")
    else
      (* Check inventory for all items *)
      refused ← check_inventory (cd_items validatedData);
      match refused with
      | Some msg => mret (Failure msg)
      | None =>
          (* Calculate shipping cost *)
          let shippingCost :=
            calculateShippingCost (cd_shippingMethod validatedData)
              (cd_shippingAddress validatedData) (cv_total cart) in
          let subtotal := cv_total cart in
          let tax := calculateTax subtotal (state (cd_shippingAddress validatedData)) in
          let total := Js.plus (Js.plus (Js.Number subtotal) shippingCost) (Js.Number tax) in
          (* Create pending order *)
          shippingCost ← float_field shippingCost;
          total ← float_field total;
          order ← order_create (λ id,
            new_order id user validatedData subtotal shippingCost tax total (req_now req));
          (* Create Stripe checkout session *)
          session ← createCheckoutSession req (o_id order);
          (* Update order with Stripe session ID *)
          order_update (o_id order) (set_stripeSessionId (ss_id session)) ;;
          revalidateTag "orders" ;;
          mret (Success (ss_id session, ss_url session))
      end).

(** The [data] written when a payment is confirmed. *)
Definition mark_paid (paymentIntent : option string) (now : Z) (o : Order) : Order :=
  {| o_id := o_id o; o_userId := o_userId o;
     o_status := PROCESSING;
     o_subtotal := o_subtotal o; o_shippingCost := o_shippingCost o;
     o_tax := o_tax o; o_total := o_total o;
     o_customerEmail := o_customerEmail o; o_customerName := o_customerName o;
     o_customerPhone := o_customerPhone o;
     o_shippingAddress := o_shippingAddress o; o_billingAddress := o_billingAddress o;
     o_shippingMethod := o_shippingMethod o; o_notes := o_notes o;
     o_items := o_items o;
     o_stripeSessionId := o_stripeSessionId o;
     o_stripePaymentIntentId :=
       match paymentIntent with Some i => Some i | None => o_stripePaymentIntentId o end;
     o_trackingNumber := o_trackingNumber o;
     o_paidAt := Some now;
     o_cancelledAt := o_cancelledAt o;
     o_updatedAt := o_updatedAt o |}.

Definition processSuccessfulPayment (req : Request) (sessionId : string)
  : World → Response Order * World :=
  server_action "Failed to process payment" (
    session ← gets (λ w, stripeSessions w !! sessionId);
    match session with
    | None => throw StripeError
    | Some session =>
        match ss_orderId session with
        | None => throw (JsError "Order ID not found in session metadata")
        | Some orderId =>
            order ← gets (λ w, orders w !! orderId);
            match order with
            | None => throw (JsError "Order not found")
            | Some order =>
                (* Update order status and payment info *)
                order_update (o_id order)
                  (mark_paid (ss_paymentIntent session) (req_now req)) ;;
                (* Update product inventory *)
                for_each (o_items order) (λ item,
                  product_update (oi_productId item) (λ inv, inv - oi_quantity item) ;;
                  mret tt) ;;
                (* Clear user's cart *)
                modify (λ w, (clearCart req w).2) ;;
                (* Send confirmation email *)
                sendOrderConfirmation order ;;
                revalidateTag "orders" ;;
                revalidateTag "products" ;;
                mret (Success order)
            end
        end
    end).

Definition mark_cancelled (now : Z) (o : Order) : Order :=
  {| o_id := o_id o; o_userId := o_userId o;
     o_status := CANCELLED;
     o_subtotal := o_subtotal o; o_shippingCost := o_shippingCost o;
     o_tax := o_tax o; o_total := o_total o;
     o_customerEmail := o_customerEmail o; o_customerName := o_customerName o;
     o_customerPhone := o_customerPhone o;
     o_shippingAddress := o_shippingAddress o; o_billingAddress := o_billingAddress o;
     o_shippingMethod := o_shippingMethod o; o_notes := o_notes o;
     o_items := o_items o;
     o_stripeSessionId := o_stripeSessionId o;
     o_stripePaymentIntentId := o_stripePaymentIntentId o;
     o_trackingNumber := o_trackingNumber o;
     o_paidAt := o_paidAt o;
     o_cancelledAt := Some now;
     o_updatedAt := o_updatedAt o |}.

Definition cancelOrder (req : Request) (orderId : string)
  : World → Response unit * World :=
  server_action "Failed to cancel order" (
    match getCurrentUser req with
    | None => mret (Failure "Authentication required")
    | Some user =>
        order ← gets (λ w, orders w !! orderId);
        match order with
        | None => mret (Failure "Order not found")
        | Some order =>
            if bool_decide (o_userId order ≠ Some (u_id user)) then
              mret (Failure "Unauthorized")
            else if negb (bool_decide (o_status order ∈ [PENDING; PROCESSING])) then
              mret (Failure "Order cannot be cancelled")
            else
              (* Restore inventory if order was already processed *)
              (if bool_decide (o_status order = PROCESSING) then
                 for_each (o_items order) (λ item,
                   product_update (oi_productId item) (λ inv, inv + oi_quantity item) ;;
                   mret tt)
               else mret tt) ;;
              (* Cancel order *)
              order_update orderId (mark_cancelled (req_now req)) ;;
              revalidateTag "orders" ;;
              revalidateTag "products" ;;
              mret (Success tt)
        end
    end).

(** ** app/api/stripe/create-checkout/route.ts

    The totals the route computes before it opens the payment session; the
    amounts are in cents.  The cart query and the function that stores the
    order are not part of the sources. *)

Record Totals := {
  t_subtotal : float;
  t_shippingCost : float;
  t_tax : float;
  t_total : float;
}.

Definition POST_totals (cartItems : list (CartItem * Product)) : Totals :=
  let subtotal := cart_total cartItems in
  let shippingCost :=
    if Js.ge subtotal 10000%float then 0%float else 1500%float in (* Free shipping over $100 *)
  let tax := Js.Math_round (subtotal * 0.08)%float in (* 8% tax *)
  let total := (subtotal + shippingCost + tax)%float in
  {| t_subtotal := subtotal; t_shippingCost := shippingCost; t_tax := tax; t_total := total |}.

(** ** lib/roles.ts, the role checks and the guards built on them *)

Definition hasRole (req : Request) (requiredRole : Role) : bool :=
  match getCurrentUser req with
  | None => false
  | Some user =>
      bool_decide (u_role user = requiredRole) || bool_decide (u_role user = SUPER_ADMIN)
  end.

(** [results.every(Boolean)] on the answers of [hasPermission]. *)
Definition hasAllPermissions (req : Request) (permissions : list Permission) : bool :=
  forallb (λ b : bool, b) (hasPermission req <$> permissions).

(** [results.some(Boolean)] on the answers of [hasPermission]. *)
Definition hasAnyPermission (req : Request) (permissions : list Permission) : bool :=
  existsb (λ b : bool, b) (hasPermission req <$> permissions).

Definition requireRole (req : Request) (requiredRole : Role) : Act User :=
  user ← requireAuth req;
  if hasRole req requiredRole then mret user
  else throw (Redirect "/unauthorized").

Definition requireAdmin (req : Request) : Act User := requireRole req ADMIN.

Definition requireSuperAdmin (req : Request) : Act User := requireRole req SUPER_ADMIN.

Definition canAccessAdmin (req : Request) : bool := hasPermission req ADMIN_ACCESS.

Definition canManageProducts (req : Request) : bool :=
  hasAnyPermission req [PRODUCT_CREATE; PRODUCT_UPDATE; PRODUCT_DELETE].

Definition canViewAllOrders (req : Request) : bool := hasPermission req ORDER_READ_ALL.

Definition isResourceOwner (resourceUserId currentUserId : string) : bool :=
  bool_decide (resourceUserId = currentUserId).

(** ** server/actions/admin.ts, [deleteOrder] *)

(** [prisma.order.delete({ where: { id } })].  The lines of an order are
    rows of their own that point to the order; whether they go with it or
    block its deletion is the [onDelete] of that relation in
    prisma/schema.prisma, which is not among the sources.  [cascade] stands
    for it: with [cascade = false] an order that has lines cannot be
    deleted. *)
Definition order_delete (cascade : bool) (id : string) : Act unit := λ w,
  match orders w !! id with
  | None => (inl RecordNotFound, w)
  | Some o =>
      if cascade || bool_decide (o_items o = [])
      then (inr tt, with_orders (delete id) w)
      else (inl (JsError "Foreign key constraint failed"), w)
  end.

Definition deleteOrder (cascade : bool) (req : Request) (orderId : string)
  : World → Response unit * World :=
  server_action "Failed to delete order" (
    requireAdmin req ;;
    order ← gets (λ w, orders w !! orderId);
    match order with
    | None => mret (Failure "Order not found")
    | Some order =>
        (* Restore inventory if order was processed *)
        (if bool_decide (o_status order ∈ [PROCESSING; SHIPPED; DELIVERED]) then
           for_each (o_items order) (λ item,
             product_update (oi_productId item) (λ inv, inv + oi_quantity item) ;;
             mret tt)
         else mret tt) ;;
        order_delete cascade orderId ;;
        revalidateTag "orders" ;;
        revalidateTag "products" ;;
        mret (Success tt)
    end).

(** ** server/actions/admin.ts (checkout part), [getShippingMethods] *)

Record ShippingMethod := {
  sm_id : string;
  sm_name : string;
  sm_description : string;
  sm_price : float;
}.

Definition getShippingMethods : list ShippingMethod :=
  [ {| sm_id := "standard"; sm_name := "Standard Shipping";
       sm_description := "5-7 business days"; sm_price := 5.99%float |};
    {| sm_id := "express"; sm_name := "Express Shipping";
       sm_description := "2-3 business days"; sm_price := 12.99%float |};
    {| sm_id := "overnight"; sm_name := "Overnight Shipping";
       sm_description := "1 business day"; sm_price := 24.99%float |} ].

(** ** server/actions/products.ts, [toggleProductStatus] *)

Definition set_isActive (p : Product) (b : bool) : Product :=
  {| p_id := p_id p; p_name := p_name p; p_price := p_price p;
     p_inventory := p_inventory p; p_isActive := b |}.

(** [prisma.product.update({ where: { id }, data: { isActive } })] *)
Definition product_update_isActive (id : string) (isActive : bool) : Act Product := λ w,
  match products w !! id with
  | Some p => (inr (set_isActive p isActive), with_products (insert id (set_isActive p isActive)) w)
  | None => (inl RecordNotFound, w)
  end.

Definition toggleProductStatus (req : Request) (productId : string)
  : World → Response Product * World :=
  server_action "Failed to toggle product status" (
    requirePermission req PRODUCT_UPDATE ;;
    product ← gets (λ w, products w !! productId);
    match product with
    | None => mret (Failure "Product not found")
    | Some product =>
        updatedProduct ← product_update_isActive productId (negb (p_isActive product));
        revalidateTag "products" ;;
        revalidateTag "product" ;;
        mret (Success updatedProduct)
    end).

(** ** lib/stripe.ts, amounts in cents *)

Definition formatAmountForStripe (amount : float) : float :=
  Js.Math_round (amount * 100)%float.

Definition formatAmountFromStripe (amount : float) : float :=
  (amount / 100)%float.

(** ** lib/uploader.ts

    File names, keys and URLs are strings of code units.  The bucket is the
    set of the keys it holds; [PutObject] adds a key (or overwrites it) and
    [DeleteObject] removes one, succeeding also when the key is absent.
    Whether the storage service answers a command, and whether the image
    library manages to resize to a variant, is given by the environment. *)

Record File := {
  file_name : string;
  file_type : string;
  file_size : Z;
}.

Record UploadResult := {
  ur_url : string;
  ur_key : string;
  ur_size : Z;
}.

Record ImageVariant := {
  iv_width : Z;
  iv_height : Z;
  iv_suffix : string;
}.

(** [IMAGE_VARIANTS], in the order of [Object.entries]. *)
Definition IMAGE_VARIANTS : list (string * ImageVariant) :=
  [ ("thumbnail", {| iv_width := 300; iv_height := 300; iv_suffix := "_thumb" |});
    ("medium", {| iv_width := 600; iv_height := 600; iv_suffix := "_medium" |});
    ("large", {| iv_width := 1200; iv_height := 1200; iv_suffix := "_large" |}) ].

Definition ALLOWED_IMAGE_TYPES : list string :=
  ["image/jpeg"; "image/jpg"; "image/png"; "image/webp"].

Definition ALLOWED_DOCUMENT_TYPES : list string :=
  ["application/pdf"; "text/csv"; "application/vnd.ms-excel";
   "application/vnd.openxmlformats-officedocument.spreadsheetml.sheet"].

Definition MAX_FILE_SIZE : Z := 10 * 1024 * 1024.

Definition MAX_IMAGE_SIZE : Z := 5 * 1024 * 1024.

Inductive FileKind := image | document.

(** What the uploader takes from its surroundings: the [CDN_URL] setting,
    [Date.now()] and [Math.random().toString(36).substring(2, 15)] as the
    strings they print as, whether the storage service answers, and whether
    the image library produces a variant. *)
Record UploadEnv := {
  env_CDN_URL : string;
  env_timestamp : string;
  env_randomString : string;
  env_s3Up : bool;
  env_resizes : string → bool;
}.

Definition Bucket := gset string.

(** Actions on the bucket, with exceptions. *)
Definition S3 (A : Type) : Type := Bucket → (Exn + A) * Bucket.

#[global] Instance S3_ret : MRet S3 := λ A a b, (inr a, b).

#[global] Instance S3_bind : MBind S3 := λ A B f m b,
  match m b with
  | (inl e, b') => (inl e, b')
  | (inr a, b') => f a b'
  end.

Definition s3_throw {A} (e : Exn) : S3 A := λ b, (inl e, b).

(** [try { body } catch (error) { console.error(..) }] *)
Definition s3_try (body : S3 unit) : S3 unit := λ b,
  match body b with
  | (inl _, b') => (inr tt, b')
  | (inr _, b') => (inr tt, b')
  end.

Fixpoint s3_for_each {A} (xs : list A) (body : A → S3 unit) : S3 unit :=
  match xs with
  | [] => mret tt
  | x :: rest => body x ;; s3_for_each rest body
  end.

(** [array.join(', ')] *)
Definition join_comma (xs : list string) : string := String.concat ", " xs.

Definition validateFile (file : File) (type : FileKind) : S3 bool :=
  let allowedTypes :=
    match type with image => ALLOWED_IMAGE_TYPES | document => ALLOWED_DOCUMENT_TYPES end in
  let maxSize := match type with image => MAX_IMAGE_SIZE | document => MAX_FILE_SIZE end in
  if negb (bool_decide (file_type file ∈ allowedTypes)) then
    s3_throw (JsError ("Invalid file type. Allowed types: " +:+ join_comma allowedTypes))
  else if maxSize <? file_size file then
    s3_throw (JsError (match type with
                       | image => "File too large. Maximum size: 5MB"
                       | document => "File too large. Maximum size: 10MB"
                       end))
  else mret true.

(** The code unit [c] is the one the one-character string [s] consists of. *)
Definition char_is (c : Ascii.ascii) (s : string) : bool :=
  String.eqb (String c EmptyString) s.

(** [s.split('.').pop()]: what follows the last ['.'] of [s], all of [s] when
    it has none. *)
Fixpoint after_last_dot_from (s candidate : string) : string :=
  match s with
  | EmptyString => candidate
  | String c rest =>
      if char_is c "." then after_last_dot_from rest rest
      else after_last_dot_from rest candidate
  end.

Definition split_dot_pop (s : string) : string := after_last_dot_from s s.

(** What precedes the last ['.'] of [s], if it has one. *)
Fixpoint before_last_dot (s : string) : option string :=
  match s with
  | EmptyString => None
  | String c rest =>
      match before_last_dot rest with
      | Some b => Some (String c b)
      | None => if char_is c "." then Some EmptyString else None
      end
  end.

Fixpoint has_char (c s : string) : bool :=
  match s with
  | EmptyString => false
  | String d rest => char_is d c || has_char c rest
  end.

(** [s.replace(/\.[^/.]+$/, '')]: the pattern can only match from the last
    ['.'] of [s] on, and does when at least one character follows it and none
    of them is ['/']. *)
Definition strip_extension (s : string) : string :=
  match before_last_dot s with
  | Some b =>
      let ext := split_dot_pop s in
      if nonempty ext && negb (has_char "/" ext) then b else s
  | None => s
  end.

Definition is_alphanumeric (c : Ascii.ascii) : bool :=
  let n := Ascii.nat_of_ascii c in
  ((48 <=? n) && (n <=? 57) || (65 <=? n) && (n <=? 90) || (97 <=? n) && (n <=? 122))%nat.

(** [s.replace(/[^a-zA-Z0-9]/g, '_')] *)
Fixpoint replace_non_alphanumeric (s : string) : string :=
  match s with
  | EmptyString => EmptyString
  | String c rest =>
      (if is_alphanumeric c then String c EmptyString else "_")
      +:+ replace_non_alphanumeric rest
  end.

Definition generateFileName (env : UploadEnv) (originalName folder : string) : string :=
  let timestamp := env_timestamp env in
  let randomString := env_randomString env in
  let extension := split_dot_pop originalName in
  let baseName := replace_non_alphanumeric (strip_extension originalName) in
  let fileName :=
    baseName +:+ "_" +:+ timestamp +:+ "_" +:+ randomString +:+ "." +:+ extension in
  if nonempty folder then folder +:+ "/" +:+ fileName else fileName.

Definition uploadToS3 (env : UploadEnv) (size : Z) (key contentType : string)
  : S3 UploadResult := λ b,
  if env_s3Up env then
    (inr {| ur_url := env_CDN_URL env +:+ "/" +:+ key; ur_key := key; ur_size := size |},
     {[ key ]} ∪ b)
  else (inl (JsError "S3 request failed"), b).

Definition deleteFromS3 (env : UploadEnv) (key : string) : S3 unit := λ b,
  if env_s3Up env then (inr tt, b ∖ {[ key ]})
  else (inl (JsError "S3 request failed"), b).

(** The variants are stored as they are produced; the record of them that
    [uploadImageWithVariants] returns is read off the bucket by no caller
    and is left out.  A resized image has a size of its own, given by
    [variantSize]. *)
Definition uploadImageWithVariants (env : UploadEnv) (variantSize : string → Z)
  (file : File) (folder : string) : S3 UploadResult :=
  validateFile file image ;;
  let fileName := generateFileName env (file_name file) folder in
  let baseName := strip_extension fileName in
  let extension := split_dot_pop fileName in
  (* Upload original *)
  original ← uploadToS3 env (file_size file) fileName (file_type file);
  (* Create and upload variants *)
  s3_for_each IMAGE_VARIANTS (λ '(variantName, config),
    s3_try (
      if env_resizes env variantName then
        let variantKey := baseName +:+ iv_suffix config +:+ "." +:+ extension in
        uploadToS3 env (variantSize variantName) variantKey "image/jpeg" ;;
        mret tt
      else s3_throw (JsError "Input buffer contains unsupported image format"))) ;;
  mret original.

Definition uploadFile (env : UploadEnv) (file : File) (folder : string) (type : FileKind)
  : S3 UploadResult :=
  validateFile file type ;;
  let fileName := generateFileName env (file_name file) folder in
  uploadToS3 env (file_size file) fileName (file_type file).

(** [s.replace(pattern, replacement)] with a string pattern: the first
    occurrence of [pattern] in [s] is replaced.  (The replacement strings
    used here contain no ['$'].) *)
Fixpoint replace_first (pattern replacement s : string) : string :=
  if String.prefix pattern s then
    replacement +:+ String.substring (String.length pattern)
                      (String.length s - String.length pattern) s
  else
    match s with
    | EmptyString => EmptyString
    | String c rest => String c (replace_first pattern replacement rest)
    end.

Definition extractKeyFromUrl (env : UploadEnv) (url : string) : string :=
  replace_first (env_CDN_URL env +:+ "/") "" url.

Definition deleteImageWithVariants (env : UploadEnv) (originalUrl : string) : S3 unit :=
  let key := extractKeyFromUrl env originalUrl in
  let baseName := strip_extension key in
  (* Delete original *)
  deleteFromS3 env key ;;
  (* Delete variants *)
  s3_for_each (IMAGE_VARIANTS.*2) (λ config,
    s3_try (
      let variantKey := baseName +:+ iv_suffix config +:+ ".jpg" in
      deleteFromS3 env variantKey)).

(** ** app/api/upload/route.ts *)

(** What [formData.get] gives for a field: [null], a string, or a file. *)
Inductive FormValue :=
  | NoField
  | TextField (s : string)
  | FileField (f : File).

(** What a caller holds of an [async] function that it does not await: the
    promise, whatever it resolves to. *)
Inductive Promise (A : Type) := promise_of (resolved : A).
Arguments promise_of {A} resolved.

(** ToBoolean of an object, a promise included. *)
Definition truthy_object {A} (p : Promise A) : bool := true.

(** [hasRole(session.user, 'ADMIN')]: [hasRole] takes one parameter, the
    required role, and gets the user object for it; no role equals that, so
    the promise resolves to whether the signed-in user is a SUPER_ADMIN. *)
Definition hasRole_of_user (req : Request) : Promise bool :=
  promise_of match getCurrentUser req with
             | Some user => bool_decide (u_role user = SUPER_ADMIN)
             | None => false
             end.

Record JsonResponse := {
  res_status : Z;
  res_error : option string;
  res_url : option string;
}.

Definition json_error (status : Z) (error : string) : JsonResponse :=
  {| res_status := status; res_error := Some error; res_url := None |}.

(** [allowedTypes[type] || allowedTypes['product-image']]: [None] stands for
    a member inherited from [Object.prototype], which is not an array. *)
Definition allowedTypes (type : string) : option (list string) :=
  if bool_decide (type ∈ ["product-image"; "avatar"])
  then Some ["image/jpeg"; "image/png"; "image/webp"]
  else if bool_decide (type = "document")
  then Some ["application/pdf"; "text/plain"; "application/msword"]
  else if bool_decide (type ∈ Object_prototype_keys) then None
  else Some ["image/jpeg"; "image/png"; "image/webp"].

(** [POST /api/upload], for a request whose [type] field, if sent, is text.
    The second argument of [uploadFile] is the object [{ folder, userId }],
    which the file name prints as [[object Object]]; the file kind is left
    at its default, ['image']. *)
Definition POST_upload (env : UploadEnv) (req : Request)
  (fileField : FormValue) (typeField : option string) : Bucket → JsonResponse * Bucket := λ b,
  match getCurrentUser req with
  | None => (json_error 401 "Authentication required", b)
  | Some user =>
      (* Check if user has permission to upload *)
      if negb (truthy_object (hasRole_of_user req)) && negb (truthy_object (hasRole_of_user req))
      then (json_error 403 "Insufficient permissions", b)
      else
        let type := default "product-image" (Js.str_or_undefined typeField) in
        match fileField with
        | NoField | TextField EmptyString => (json_error 400 "No file provided", b)
        | other =>
            (* Validate file type *)
            match allowedTypes type with
            | None => (json_error 500 "Upload failed", b)
            | Some allowedMimeTypes =>
                match other with
                | FileField file =>
                    if negb (bool_decide (file_type file ∈ allowedMimeTypes)) then
                      (json_error 400
                         ("Invalid file type. Allowed types: " +:+ join_comma allowedMimeTypes), b)
                    (* Validate file size (10MB max) *)
                    else if 10 * 1024 * 1024 <? file_size file then
                      (json_error 400 "File too large. Maximum size is 10MB", b)
                    else
                      (* Upload file *)
                      match uploadFile env file "[object Object]" image b with
                      | (inr result, b') =>
                          ({| res_status := 200; res_error := None;
                              res_url := Some (ur_url result) |}, b')
                      | (inl _, b') => (json_error 500 "Upload failed", b')
                      end
                | _ =>
                    (json_error 400
                       ("Invalid file type. Allowed types: " +:+ join_comma allowedMimeTypes), b)
                end
            end
        end
  end.

(** [DELETE /api/upload]: the deletion itself is left as a comment in the
    route. *)
Definition DELETE_upload (req : Request) (url : option string) : Bucket → JsonResponse * Bucket :=
  λ b,
  match getCurrentUser req with
  | None => (json_error 401 "Authentication required", b)
  | Some user =>
      if negb (truthy_object (hasRole_of_user req))
      then (json_error 403 "Admin access required", b)
      else
        match Js.str_or_undefined url with
        | None => (json_error 400 "File URL required", b)
        | Some fileUrl => ({| res_status := 200; res_error := None; res_url := None |}, b)
        end
  end.

(** * Properties *)

(** ** Notions used in the statements *)

(** [keeps π m]: running [m] leaves the part [π] of the world as it was,
    whether [m] returns or throws. *)
Definition keeps {A X} (π : World → X) (m : Act A) : Prop :=
  ∀ w, π (m w).2 = π w.

(** The part of the world the cart actions never write: products, orders
    and the payment processor's sessions. *)
Definition ledger (w : World) :
  gmap string Product * gmap string Order * gmap string StripeSession :=
  (products w, orders w, stripeSessions w).

(** The inventory count of a product, if the product exists. *)
Definition inventory (w : World) (productId : string) : option Z :=
  p_inventory <$> products w !! productId.

(** The sum of [k] over the order lines of one product. *)
Fixpoint stock_delta (k : OrderItem → Z) (productId : string) (items : list OrderItem) : Z :=
  match items with
  | [] => 0
  | item :: rest =>
      (if bool_decide (oi_productId item = productId) then k item else 0)
      + stock_delta k productId rest
  end.

(** The units of a product on the lines of an order. *)
Definition units_of (productId : string) (items : list OrderItem) : Z :=
  stock_delta oi_quantity productId items.

(** The (cart, product, variant) a cart line stands for. *)
Definition line_key (r : CartItem) : string * string * option string :=
  (ci_cartId r, ci_productId r, ci_variantId r).

(** The cart-shape invariants on the table of cart lines: every line has a
    quantity of at least 1, and no two lines of a cart carry the same
    (product, variant) pair. *)
Definition cart_shape (rows : list CartItem) : Prop :=
  Forall (λ r, 1 ≤ ci_quantity r) rows ∧ NoDup (line_key <$> rows).

#[global] Instance cart_shape_dec rows : Decision (cart_shape rows).
Proof. unfold cart_shape. apply _. Defined.

(** The mutations of server/actions/cart.ts. *)
Inductive CartMutation :=
  | AddToCart (formData : AddToCartForm)
  | UpdateCartItem (itemId : string) (quantity : option Z)
  | RemoveFromCart (productId variantId : option string)
  | ClearCart
  | MergeGuestCart (guestSessionId : string).

Definition run_mutation (req : Request) (m : CartMutation) (w : World) : World :=
  match m with
  | AddToCart formData => (addToCart req formData w).2
  | UpdateCartItem itemId quantity => (updateCartItem req itemId quantity w).2
  | RemoveFromCart productId variantId => (removeFromCart req productId variantId w).2
  | ClearCart => (clearCart req w).2
  | MergeGuestCart guestSessionId => (mergeGuestCart req guestSessionId w).2
  end.

(** A sequence of cart mutations, each with the request that carries it. *)
Definition run_mutations (trace : list (Request * CartMutation)) (w : World) : World :=
  foldl (λ w step, run_mutation step.1 step.2 w) w trace.

(** Hoare triples for actions: from a world satisfying [P], a result [a]
    comes with a world satisfying [Q a], an exception with one satisfying
    [E]. *)
Definition hoare {A} (P : World → Prop) (m : Act A)
  (Q : A → World → Prop) (E : World → Prop) : Prop :=
  ∀ w, P w → match m w with
             | (inr a, w') => Q a w'
             | (inl _, w') => E w'
             end.

(** The effect of [update({ where: { id }, data: { quantity } })] on the
    table of cart lines. *)
Definition rows_with_quantity (id : string) (quantity : Z) (rows : list CartItem)
  : list CartItem :=
  (λ r, if bool_decide (ci_id r = id) then set_quantity quantity r else r) <$> rows.

(** The row [cartItem.create] adds to the table. *)
Definition new_row (rows : list CartItem) (cartId productId : string)
  (quantity : Z) (variantId : option string) : CartItem :=
  {| ci_id := fresh (ci_id <$> rows); ci_cartId := cartId; ci_productId := productId;
     ci_variantId := variantId; ci_quantity := quantity |}.

(** The quantity a table of cart lines holds for one (cart, product,
    variant): the sum over the lines with that key. *)
Fixpoint line_quantity (key : string * string * option string) (rows : list CartItem) : Z :=
  match rows with
  | [] => 0
  | r :: rest =>
      (if bool_decide (line_key r = key) then ci_quantity r else 0) + line_quantity key rest
  end.

(** A line as it counts once moved to another cart. *)
Definition moved_to (cartId : string) (r : CartItem) : CartItem :=
  {| ci_id := ci_id r; ci_cartId := cartId; ci_productId := ci_productId r;
     ci_variantId := ci_variantId r; ci_quantity := ci_quantity r |}.

(** A checkout line passes the availability check in a world: its product
    exists, is active, and has at least the requested quantity in stock. *)
Definition line_available (w : World) (item : CheckoutItem) : Prop :=
  ∃ p, products w !! ck_productId item = Some p
       ∧ p_isActive p = true
       ∧ ck_quantity item ≤ p_inventory p.

(** A cart line with its product, as [getCart] returns it. *)
Definition joined_line (w : World) (line : CartItem * Product) : Prop :=
  products w !! ci_productId line.1 = Some line.2.

(** The cart [getCart] shows to a request. *)
Definition cart_shown (req : Request) (w : World) : CartView :=
  match (getCart req w).1 with
  | inr cart => cart
  | inl _ => {| cv_id := ""; cv_items := []; cv_total := 0%float; cv_itemCount := 0 |}
  end.

(** The session id in the answer of a checkout. *)
Definition session_of (r : Response (string * string)) : string :=
  match r with
  | Success (sessionId, _) => sessionId
  | Failure _ => ""
  end.

(** ** Sample data for the concrete runs *)

Definition demo_product (id : string) (stock : Z) (active : bool) : Product :=
  {| p_id := id; p_name := "Product " +:+ id; p_price := 10%float;
     p_inventory := stock; p_isActive := active |}.

Definition demo_address : Address :=
  {| line1 := "1 Main St"; line2 := None; city := "Springfield"; state := "CA";
     postalCode := "90000"; country := "US" |}.

Definition demo_customer : CustomerInfo :=
  {| cu_email := "shopper@example.com"; cu_emailOk := true;
     cu_firstName := "Sam"; cu_lastName := "Shopper"; cu_phone := None |}.

Definition empty_world : World :=
  {| products := ∅; carts := []; cartItems := []; orders := ∅;
     stripeSessions := ∅; effects := [] |}.

Definition request_of (user : option User) (now : Z) : Request :=
  {| req_user := user; req_cartSession := None; req_now := now;
     req_adminEmail := None; req_stripeUp := true |}.

Definition admin_user : User := {| u_id := "admin"; u_role := ADMIN |}.

Definition shopper : User := {| u_id := "u1"; u_role := USER |}.

Definition shopper2 : User := {| u_id := "u2"; u_role := USER |}.

Definition demo_order (id : string) (owner : option string) (status : OrderStatus)
  (items : list OrderItem) : Order :=
  {| o_id := id; o_userId := owner; o_status := status;
     o_subtotal := 0%float; o_shippingCost := 0%float; o_tax := 0%float; o_total := 0%float;
     o_customerEmail := "shopper@example.com"; o_customerName := "Sam Shopper";
     o_customerPhone := None;
     o_shippingAddress := demo_address; o_billingAddress := demo_address;
     o_shippingMethod := "standard"; o_notes := None;
     o_items := items;
     o_stripeSessionId := None; o_stripePaymentIntentId := None;
     o_trackingNumber := None; o_paidAt := None; o_cancelledAt := None;
     o_updatedAt := 0 |}.

Definition status_form (status : string) : UpdateOrderStatusForm :=
  {| fs_status := Some status; fs_trackingNumber := None; fs_notes := None |}.

Definition add_form (productId : string) (quantity : Z) : AddToCartForm :=
  {| fd_productId := Some productId; fd_quantity := Some quantity; fd_variantId := None |}.

Definition checkout_line (productId : string) (quantity : Z) : CheckoutItem :=
  {| ck_productId := productId; ck_quantity := quantity; ck_price := 10%float |}.

Definition checkout_form (items : list CheckoutItem) : CheckoutForm :=
  {| cf_items := items; cf_shippingAddress := demo_address;
     cf_billingAddress := Some demo_address;
     cf_customerInfo := demo_customer; cf_shippingMethod := Some "standard";
     cf_notes := None |}.

(** One delivered order, nothing else. *)
Definition delivered_world : World :=
  with_orders (insert "o1" (demo_order "o1" (Some "u1") DELIVERED [])) empty_world.

(** Product P with 5 in stock; order o1 of user u1 with one line of [qty]
    units of P, in the given status; the processor's session cs_1 for o1. *)
Definition order_world (status : OrderStatus) (qty : Z) : World :=
  {| products := {[ "P" := demo_product "P" 5 true ]};
     carts := []; cartItems := [];
     orders := {[ "o1" := demo_order "o1" (Some "u1") status
                            [{| oi_productId := "P"; oi_quantity := qty;
                                oi_price := 10%float |}] ]};
     stripeSessions := {[ "cs_1" := {| ss_id := "cs_1"; ss_url := "https://pay";
                                       ss_orderId := Some "o1";
                                       ss_paymentIntent := Some "pi_1" |} ]};
     effects := [] |}.

(** Product A with 2 in stock; user u1 has a cart with 1 unit of A, the
    guest session g1 a cart with 2 units of A. *)
Definition two_carts_world : World :=
  {| products := {[ "A" := demo_product "A" 2 true ]};
     carts := [ {| cart_id := "c1"; cart_userId := Some "u1"; cart_sessionId := None |};
                {| cart_id := "c2"; cart_userId := None; cart_sessionId := Some "g1" |} ];
     cartItems := [ {| ci_id := "i1"; ci_cartId := "c1"; ci_productId := "A";
                       ci_variantId := None; ci_quantity := 1 |};
                    {| ci_id := "i2"; ci_cartId := "c2"; ci_productId := "A";
                       ci_variantId := None; ci_quantity := 2 |} ];
     orders := ∅; stripeSessions := ∅; effects := [] |}.

(** Product P with 5 in stock; the users u1 and u2 each hold a cart with 3
    units of P. *)
Definition contention_world : World :=
  {| products := {[ "P" := demo_product "P" 5 true ]};
     carts := [ {| cart_id := "c1"; cart_userId := Some "u1"; cart_sessionId := None |};
                {| cart_id := "c2"; cart_userId := Some "u2"; cart_sessionId := None |} ];
     cartItems := [ {| ci_id := "i1"; ci_cartId := "c1"; ci_productId := "P";
                       ci_variantId := None; ci_quantity := 3 |};
                    {| ci_id := "i2"; ci_cartId := "c2"; ci_productId := "P";
                       ci_variantId := None; ci_quantity := 3 |} ];
     orders := ∅; stripeSessions := ∅; effects := [] |}.



(** ** Further notions *)

(** Every cart has an id of its own, no user owns two carts, and no guest
    session has two carts. *)
Definition one_cart_per_owner (cs : list Cart) : Prop :=
  NoDup (cart_id <$> cs) ∧ NoDup (omap cart_userId cs) ∧ NoDup (omap cart_sessionId cs).

(** The lines of one cart. *)
Definition lines_of (cartId : string) (w : World) : list CartItem :=
  filter (λ r, ci_cartId r = cartId) (cartItems w).


(** Two numbers are the same binary64 value (the two zeros are told apart). *)
Definition same_number (x y : float) : bool :=
  match Prim2SF x, Prim2SF y with
  | S754_zero a, S754_zero b => Bool.eqb a b
  | S754_infinity a, S754_infinity b => Bool.eqb a b
  | S754_nan, S754_nan => true
  | S754_finite a m e, S754_finite b n f => Bool.eqb a b && Pos.eqb m n && Z.eqb e f
  | _, _ => false
  end.

(** An amount of [cents] whole cents survives the trip from the processor's
    integer to the shop's number and back. *)
Definition cents_round_trip (cents : Z) : bool :=
  same_number (formatAmountForStripe (formatAmountFromStripe (Js.of_int cents)))
    (Js.of_int cents).

(** [cents_round_trip] on the [count] amounts from [cents] on. *)
Fixpoint cents_round_trip_from (count : nat) (cents : Z) : bool :=
  match count with
  | O => true
  | S count => cents_round_trip cents && cents_round_trip_from count (cents + 1)
  end.

(** ** Whole numbers in binary64 *)

(** The mantissa and the exponent of the binary64 value of a whole number
    [0 < n < 2^53]: [n] shifted to 53 digits. *)
Definition mantissa_of (n : Z) : positive := Z.to_pos (n * 2 ^ (52 - Z.log2 n)).

Definition exponent_of (n : Z) : Z := Z.log2 n - 52.

(** The binary64 value of the whole number [z], for [|z| < 2^53]. *)
Definition SF_of_Z (z : Z) : spec_float :=
  match z with
  | 0 => S754_zero false
  | Z.pos p => S754_finite false (mantissa_of (Z.pos p)) (exponent_of (Z.pos p))
  | Z.neg p => S754_finite true (mantissa_of (Z.pos p)) (exponent_of (Z.pos p))
  end.

(** ** Reasoning about actions *)

Ltac act_unfold :=
  unfold server_action, mbind, Act_bind, mret, Act_ret, gets, modify, throw, try_catch in *.

Section Keeps.
Context {X : Type} (π : World → X).

Lemma keeps_ret {A} (a : A) : keeps π (mret a).
Proof. by intros w. Qed.

Lemma keeps_throw {A} (e : Exn) : keeps π (throw e : Act A).
Proof. by intros w. Qed.

Lemma keeps_gets {A} (f : World → A) : keeps π (gets f).
Proof. by intros w. Qed.

Lemma keeps_modify (f : World → World) :
  (∀ w, π (f w) = π w) → keeps π (modify f).
Proof. intros H w. apply H. Qed.

Lemma keeps_bind {A B} (m : Act A) (f : A → Act B) :
  keeps π m → (∀ a, keeps π (f a)) → keeps π (m ≫= f).
Proof.
  intros Hm Hf w. unfold mbind, Act_bind.
  specialize (Hm w). destruct (m w) as [[e|a] w1]; simpl in *; [done|].
  by rewrite Hf.
Qed.

Lemma keeps_try_catch {A} (m : Act A) (h : Exn → Act A) :
  keeps π m → (∀ e, keeps π (h e)) → keeps π (try_catch m h).
Proof.
  intros Hm Hh w. unfold try_catch.
  specialize (Hm w). destruct (m w) as [[e|a] w1]; simpl in *; [|done].
  by rewrite Hh.
Qed.

Lemma keeps_for_each {A} (xs : list A) (body : A → Act unit) :
  (∀ x, keeps π (body x)) → keeps π (for_each xs body).
Proof.
  intros Hb. induction xs as [|x xs IH]; simpl.
  - apply keeps_ret.
  - apply keeps_bind; auto.
Qed.

Lemma keeps_for_all {A B} (xs : list A) (f : A → Act B) :
  (∀ x, keeps π (f x)) → keeps π (for_all xs f).
Proof.
  intros Hf. induction xs as [|x xs IH]; simpl.
  - apply keeps_ret.
  - apply keeps_bind; [auto|]. intros y.
    apply keeps_bind; [auto|]. intros ys. apply keeps_ret.
Qed.

Lemma keeps_server_action {A} (msg : string) (body : Act (Response A)) w :
  keeps π body → π (server_action msg body w).2 = π w.
Proof.
  intros H. unfold server_action. specialize (H w).
  by destruct (body w) as [[e|r] w1].
Qed.

End Keeps.

Create HintDb keeps.

(** Takes a goal [keeps π m] apart along the structure of [m]; the leaves
    are closed by computation or by the lemmas of the [keeps] database. *)
Ltac keeps_tac :=
  repeat first
    [ progress intros
    | apply keeps_ret | apply keeps_throw | apply keeps_gets
    | apply keeps_bind | apply keeps_try_catch
    | apply keeps_for_each | apply keeps_for_all
    | (apply keeps_modify; intros; reflexivity)
    | solve [auto with keeps]
    | match goal with
      | |- keeps _ (match ?x with _ => _ end) => destruct x
      | |- keeps _ (if ?b then _ else _) => destruct b
      end ].

(** The cart actions write carts, lines and effects only. *)

Lemma upsert_cart_keeps_ledger found create : keeps ledger (upsert_cart found create).
Proof. unfold upsert_cart. keeps_tac. Qed.
#[global] Hint Resolve upsert_cart_keeps_ledger : keeps.

Lemma getCartSession_keeps_ledger req : keeps ledger (getCartSession req).
Proof. unfold getCartSession. keeps_tac. Qed.
#[global] Hint Resolve getCartSession_keeps_ledger : keeps.

Lemma include_product_keeps {X} (π : World → X) r : keeps π (include_product r).
Proof. unfold include_product. keeps_tac. Qed.
#[global] Hint Resolve include_product_keeps : keeps.

Lemma getCart_keeps_ledger req : keeps ledger (getCart req).
Proof. unfold getCart. keeps_tac. Qed.
#[global] Hint Resolve getCart_keeps_ledger : keeps.

Lemma clearCart_ledger req w : ledger (clearCart req w).2 = ledger w.
Proof.
  unfold clearCart. apply keeps_server_action.
  unfold cartItem_deleteMany, revalidateTag. keeps_tac.
Qed.

Lemma ledger_eq w w' :
  ledger w' = ledger w →
  products w' = products w ∧ orders w' = orders w ∧ stripeSessions w' = stripeSessions w.
Proof. unfold ledger. intros H. by simplify_eq. Qed.

(** ** Whole numbers in binary64

    Sums and differences of whole numbers below 2^53 are exact, and a whole
    number is read back from its binary64 value. *)

Ltac zfold :=
  change IntDef.Z.sub with Z.sub in *; change IntDef.Z.add with Z.add in *;
  change IntDef.Z.max with Z.max in *; change IntDef.Z.min with Z.min in *;
  change IntDef.Z.leb with Z.leb in *; change IntDef.Z.opp with Z.opp in *;
  change IntDef.Z.eqb with Z.eqb in *; change IntDef.Z.compare with Z.compare in *.

Lemma digits2_pos_log2 p : Z.pos (digits2_pos p) = Z.log2 (Z.pos p) + 1.
Proof.
  assert (Hsize : ∀ q, digits2_pos q = Pos.size q).
  { induction q as [q IH|q IH|]; cbn; by rewrite ?IH. }
  destruct p as [p|p|]; cbn; rewrite ?Hsize; lia.
Qed.

Lemma iter_xO_pow2 d m : Z.pos (Pos.iter xO m d) = Z.pos m * 2 ^ Z.pos d.
Proof.
  induction d as [|d IH] using Pos.peano_ind.
  - cbn. lia.
  - rewrite Pos.iter_succ, Pos2Z.inj_xO, IH, Pos2Z.inj_succ, Z.pow_succ_r by lia. lia.
Qed.

Lemma iter_pos_iter {A} (f : A → A) p x : SpecFloat.iter_pos f p x = Pos.iter f x p.
Proof.
  revert x. induction p as [p IH|p IH|]; intros x; cbn; [|by rewrite !IH|done].
  by rewrite !IH, <- !Pos.iter_swap.
Qed.

Lemma iter_shr_1_exact d M :
  Pos.iter shr_1 {| shr_m := Z.pos (Pos.iter xO M d); shr_r := false; shr_s := false |} d
  = {| shr_m := Z.pos M; shr_r := false; shr_s := false |}.
Proof.
  induction d as [|d IH] using Pos.peano_ind.
  - reflexivity.
  - rewrite (Pos.iter_succ d _ xO), (Pos.iter_succ d _ shr_1), <- Pos.iter_swap.
    cbn [shr_1 orb]. exact IH.
Qed.

(** Rounding a value that fits is exact: the result has the exponent the
    format gives to the value and the mantissa shifted to it. *)
Lemma binary_round_exact s m e M :
  let E := fexp 53 1024 (Z.pos (digits2_pos m) + e) in
  E ≤ 1024 - 53 →
  (if E <=? e then Z.pos M = Z.pos m * 2 ^ (e - E) else Z.pos m = Z.pos M * 2 ^ (E - e)) →
  binary_round 53 1024 s m e = S754_finite s M E.
Proof.
  intros E HE Hval. unfold binary_round, shl_align. zfold. fold E.
  assert (Hdig : ∀ a b k, 0 ≤ k → Z.pos a = Z.pos b * 2 ^ k →
            Z.pos (digits2_pos a) = Z.pos (digits2_pos b) + k).
  { intros a b k Hk Hab. rewrite !digits2_pos_log2, Hab, Z.log2_mul_pow2 by lia. lia. }
  destruct (Z.leb_spec E e) as [Hle|Hlt].
  - assert (Hm : (let '(mz, ez) := match E - e with
                                   | Z.neg d => (Pos.iter xO m d, E)
                                   | _ => (m, e)
                                   end in (mz, ez)) = (M, E)).
    { destruct (E - e) as [|d|d] eqn:Hd; [|lia|].
      - replace (e - E) with 0 in Hval by lia. f_equal; lia.
      - f_equal. apply Pos2Z.inj. rewrite iter_xO_pow2, Hval. f_equal. f_equal. lia. }
    destruct (match E - e with Z.neg d => _ | _ => _ end) as [mz ez].
    injection Hm as -> ->.
    unfold binary_round_aux, shr_fexp, shr_record_of_loc. cbn [Zdigits2]. zfold.
    assert (HEM : fexp 53 1024 (Z.pos (digits2_pos M) + E) - E = 0).
    { rewrite (Hdig M m (e - E)) by lia.
      replace (Z.pos (digits2_pos m) + (e - E) + E) with (Z.pos (digits2_pos m) + e) by lia.
      fold E. lia. }
    rewrite HEM. cbn [shr shr_m loc_of_shr_record round_nearest_even Zdigits2].
    rewrite HEM. cbn [shr shr_m].
    by rewrite (proj2 (Z.leb_le _ _) HE).
  - destruct (E - e) as [|d|d] eqn:Hd; [lia| |lia].
    cbv beta iota. unfold binary_round_aux, shr_fexp, shr_record_of_loc. cbn [Zdigits2]. zfold. fold E.
    rewrite Hd. cbn [shr]. rewrite iter_pos_iter.
    assert (Hm : m = Pos.iter xO M d).
    { apply Pos2Z.inj. by rewrite iter_xO_pow2, Hval. }
    rewrite Hm, iter_shr_1_exact. cbn [shr_m loc_of_shr_record round_nearest_even Zdigits2].
    assert (HEM : fexp 53 1024 (Z.pos (digits2_pos M) + (e + Z.pos d)) - (e + Z.pos d) = 0).
    { assert (Z.pos (digits2_pos m) = Z.pos (digits2_pos M) + Z.pos d) as Hdm.
      { apply Hdig; [lia|]. exact Hval. }
      replace (Z.pos (digits2_pos M) + (e + Z.pos d)) with (Z.pos (digits2_pos m) + e) by lia.
      fold E. lia. }
    rewrite HEM. cbn [shr shr_m].
    replace (e + Z.pos d) with E by lia.
    by rewrite (proj2 (Z.leb_le _ _) HE).
Qed.

Lemma log2_below n : 0 < n < 2 ^ 53 → 0 ≤ Z.log2 n ≤ 52.
Proof.
  intros [Hpos Hlt]. split; [apply Z.log2_nonneg|].
  apply Z.log2_lt_pow2 in Hlt; lia.
Qed.

Lemma mantissa_of_spec n :
  0 < n < 2 ^ 53 → Z.pos (mantissa_of n) = n * 2 ^ (52 - Z.log2 n).
Proof.
  intros Hn. pose proof (log2_below n Hn). unfold mantissa_of.
  rewrite Z2Pos.id; [done|]. apply Z.mul_pos_pos; [lia|]. apply Z.pow_pos_nonneg; lia.
Qed.

(** A mantissa and an exponent that stand for the whole number [n] round to
    the binary64 value of [n]. *)
Lemma binary_round_whole s m e n :
  0 < n < 2 ^ 53 → -1000 ≤ e ≤ 0 → Z.pos m = n * 2 ^ (- e) →
  binary_round 53 1024 s m e = S754_finite s (mantissa_of n) (exponent_of n).
Proof.
  intros Hn He Hm. pose proof (log2_below n Hn) as Hlog.
  assert (Hdig : Z.pos (digits2_pos m) + e = Z.log2 n + 1).
  { rewrite digits2_pos_log2, Hm, Z.log2_mul_pow2 by lia. lia. }
  assert (HE : fexp 53 1024 (Z.pos (digits2_pos m) + e) = exponent_of n).
  { rewrite Hdig. unfold fexp, emin, exponent_of. zfold. lia. }
  rewrite <- HE. apply binary_round_exact; rewrite HE; unfold exponent_of; [lia|].
  rewrite mantissa_of_spec, Hm by done.
  destruct (Z.leb_spec (Z.log2 n - 52) e).
  - rewrite <- Z.mul_assoc, <- Z.pow_add_r by lia. f_equal. f_equal. lia.
  - rewrite <- Z.mul_assoc, <- Z.pow_add_r by lia. f_equal. f_equal. lia.
Qed.

Lemma shl_align_fst m e e' :
  e' ≤ e → Z.pos (fst (shl_align m e e')) = Z.pos m * 2 ^ (e - e').
Proof.
  intros Hle. unfold shl_align. zfold.
  destruct (e' - e) as [|d|d] eqn:Hd; [|lia|]; cbn [fst].
  - replace (e - e') with 0 by lia. lia.
  - rewrite iter_xO_pow2. f_equal. f_equal. lia.
Qed.

Lemma SF_of_Z_pos n :
  0 < n → SF_of_Z n = S754_finite false (mantissa_of n) (exponent_of n).
Proof. by destruct n. Qed.

Lemma SF_of_Z_neg n :
  0 < n → SF_of_Z (- n) = S754_finite true (mantissa_of n) (exponent_of n).
Proof. by destruct n. Qed.

(** The mantissas of two whole numbers, brought to the smaller exponent. *)
Lemma aligned_whole a b :
  0 < a < 2 ^ 53 → 0 < b < 2 ^ 53 →
  let ez := Z.min (exponent_of a) (exponent_of b) in
  -52 ≤ ez ≤ 0
  ∧ Z.pos (fst (shl_align (mantissa_of a) (exponent_of a) ez)) = a * 2 ^ (- ez)
  ∧ Z.pos (fst (shl_align (mantissa_of b) (exponent_of b) ez)) = b * 2 ^ (- ez).
Proof.
  intros Ha Hb ez. pose proof (log2_below a Ha). pose proof (log2_below b Hb).
  assert (Hez : -52 ≤ ez ≤ 0) by (unfold ez, exponent_of; lia).
  split; [done|].
  split; rewrite shl_align_fst, mantissa_of_spec by (unfold ez; lia);
    rewrite <- Z.mul_assoc, <- Z.pow_add_r by (unfold ez, exponent_of; lia);
    f_equal; f_equal; unfold exponent_of; lia.
Qed.

Lemma SFadd_whole a b :
  0 ≤ a → 0 ≤ b → a + b < 2 ^ 53 →
  SFadd 53 1024 (SF_of_Z a) (SF_of_Z b) = SF_of_Z (a + b).
Proof.
  intros Ha Hb Hab.
  destruct (Z.eq_dec a 0) as [->|Ha0]; [by destruct b|].
  destruct (Z.eq_dec b 0) as [->|Hb0]; [rewrite Z.add_0_r; by destruct a|].
  rewrite (SF_of_Z_pos a), (SF_of_Z_pos b), (SF_of_Z_pos (a + b)) by lia.
  destruct (aligned_whole a b) as (Hez & HA & HB); [lia..|].
  unfold SFadd. cbn [cond_Zopp]. zfold.
  set (ez := Z.min (exponent_of a) (exponent_of b)) in *.
  rewrite HA, HB, <- Z.mul_add_distr_r.
  assert (Hpos : 0 < (a + b) * 2 ^ (- ez)).
  { apply Z.mul_pos_pos; [lia|]. apply Z.pow_pos_nonneg; lia. }
  destruct ((a + b) * 2 ^ (- ez)) as [|m|m] eqn:Hsum; [lia| |lia].
  cbn [binary_normalize]. apply binary_round_whole; [lia|lia|done].
Qed.

Lemma SFsub_whole a b :
  0 ≤ a < 2 ^ 53 → 0 ≤ b < 2 ^ 53 →
  SFsub 53 1024 (SF_of_Z a) (SF_of_Z b) = SF_of_Z (a - b).
Proof.
  intros Ha Hb.
  destruct (Z.eq_dec b 0) as [->|Hb0]; [rewrite Z.sub_0_r; by destruct a|].
  destruct (Z.eq_dec a 0) as [->|Ha0].
  { rewrite Z.sub_0_l, (SF_of_Z_pos b), (SF_of_Z_neg b) by lia. done. }
  rewrite (SF_of_Z_pos a), (SF_of_Z_pos b) by lia.
  destruct (aligned_whole a b) as (Hez & HA & HB); [lia..|].
  unfold SFsub. cbn [cond_Zopp]. zfold.
  set (ez := Z.min (exponent_of a) (exponent_of b)) in *.
  rewrite HA, HB, <- Z.mul_sub_distr_r.
  assert (H2 : 0 < 2 ^ (- ez)) by (apply Z.pow_pos_nonneg; lia).
  destruct (Z.lt_trichotomy a b) as [Hlt|[->|Hgt]].
  - assert (Hneg : (a - b) * 2 ^ (- ez) = - ((b - a) * 2 ^ (- ez))) by lia.
    assert (Hpos : 0 < (b - a) * 2 ^ (- ez)) by (apply Z.mul_pos_pos; lia).
    rewrite Hneg.
    destruct ((b - a) * 2 ^ (- ez)) as [|m|m] eqn:Hsum; [lia| |lia].
    cbn [Z.opp binary_normalize].
    replace (a - b) with (- (b - a)) by lia. rewrite SF_of_Z_neg by lia.
    apply binary_round_whole; [lia|lia|done].
  - rewrite Z.sub_diag. done.
  - assert (Hpos : 0 < (a - b) * 2 ^ (- ez)) by (apply Z.mul_pos_pos; lia).
    destruct ((a - b) * 2 ^ (- ez)) as [|m|m] eqn:Hsum; [lia| |lia].
    cbn [binary_normalize]. rewrite SF_of_Z_pos by lia.
    apply binary_round_whole; [lia|lia|done].
Qed.

Lemma Prim2SF_of_int z :
  - 2 ^ 53 < z < 2 ^ 53 → Prim2SF (Js.of_int z) = SF_of_Z z.
Proof.
  intros Hz.
  assert (Hnat : ∀ n, 0 ≤ n < 2 ^ 53 →
            Prim2SF (PrimFloat.of_uint63 (Uint63.of_Z n)) = SF_of_Z n).
  { intros n Hn. rewrite of_uint63_spec, Uint63.of_Z_spec, Z.mod_small.
    2:{ change Uint63.wB with (2 ^ 63). lia. }
    destruct n as [|p|p]; [done| |lia].
    cbn [binary_normalize SF_of_Z]. apply (binary_round_whole false p 0 (Z.pos p)); lia. }
  unfold Js.of_int. destruct (Z.ltb_spec z 0).
  - rewrite opp_spec, Hnat by lia.
    replace z with (- (- z)) at 2 by lia.
    rewrite (SF_of_Z_pos (- z)), (SF_of_Z_neg (- z)) by lia. done.
  - apply Hnat. lia.
Qed.

Lemma of_int_add a b :
  0 ≤ a → 0 ≤ b → a + b < 2 ^ 53 →
  (Js.of_int a + Js.of_int b)%float = Js.of_int (a + b).
Proof.
  intros Ha Hb Hab. apply Prim2SF_inj.
  rewrite add_spec, !Prim2SF_of_int by lia. by apply SFadd_whole.
Qed.

Lemma of_int_sub a b :
  0 ≤ a < 2 ^ 53 → 0 ≤ b < 2 ^ 53 →
  (Js.of_int a - Js.of_int b)%float = Js.of_int (a - b).
Proof.
  intros Ha Hb. apply Prim2SF_inj.
  rewrite sub_spec, !Prim2SF_of_int by lia. by apply SFsub_whole.
Qed.

Lemma to_int_of_int z : - 2 ^ 53 < z < 2 ^ 53 → Js.to_int (Js.of_int z) = Some z.
Proof.
  intros Hz. unfold Js.to_int. rewrite Prim2SF_of_int by done.
  assert (Hpos : ∀ n, 0 < n < 2 ^ 53 →
            ∀ v, v = n ∨ v = - n →
            (if 0 <=? exponent_of n then Some (v * 2 ^ (52 - Z.log2 n) * 2 ^ exponent_of n)
             else if v * 2 ^ (52 - Z.log2 n) mod 2 ^ (- exponent_of n) =? 0
                  then Some (v * 2 ^ (52 - Z.log2 n) / 2 ^ (- exponent_of n))
                  else None) = Some v).
  { intros n Hn v Hv. pose proof (log2_below n Hn). unfold exponent_of.
    destruct (Z.leb_spec 0 (Z.log2 n - 52)).
    - replace (Z.log2 n - 52) with 0 by lia. replace (52 - Z.log2 n) with 0 by lia.
      f_equal. lia.
    - replace (- (Z.log2 n - 52)) with (52 - Z.log2 n) by lia.
      rewrite Z.mod_mul, Z.div_mul; [done|..]; apply Z.pow_nonzero; lia. }
  destruct z as [|p|p]; [done|..]; cbn [SF_of_Z]; cbv zeta.
  - rewrite mantissa_of_spec by lia. apply Hpos; [lia|by left].
  - change (Z.neg (mantissa_of (Z.pos p))) with (- Z.pos (mantissa_of (Z.pos p))).
    rewrite mantissa_of_spec, <- Z.mul_opp_l by lia. apply Hpos; [lia|by right].
Qed.

Lemma SFcompare_refl_finite s m e : SFcompare (S754_finite s m e) (S754_finite s m e) = Some Eq.
Proof.
  cbn. zfold. rewrite Z.compare_refl.
  change (PosDef.Pos.compare_cont Eq m m) with (Pos.compare m m).
  rewrite Pos.compare_refl. by destruct s.
Qed.

Lemma is_nan_of_int z : - 2 ^ 53 < z < 2 ^ 53 → Js.is_nan (Js.of_int z) = false.
Proof.
  intros Hz. unfold Js.is_nan. rewrite FloatAxioms.eqb_spec, Prim2SF_of_int by done.
  unfold SFeqb. destruct z; cbn [SF_of_Z]; [done|..]; by rewrite SFcompare_refl_finite.
Qed.

Lemma ltb_0_of_int z : - 2 ^ 53 < z < 2 ^ 53 → (0 <? Js.of_int z)%float = (0 <? z).
Proof.
  intros Hz. rewrite ltb_spec, Prim2SF_of_int by done. by destruct z.
Qed.

Lemma ltb_of_int_0 z : - 2 ^ 53 < z < 2 ^ 53 → (Js.of_int z <? 0)%float = (z <? 0).
Proof.
  intros Hz. rewrite ltb_spec, Prim2SF_of_int by done. by destruct z.
Qed.

Lemma Math_max_0_of_int z :
  - 2 ^ 53 < z < 2 ^ 53 → Js.Math_max 0 (Js.of_int z) = Js.of_int (Z.max 0 z).
Proof.
  intros Hz. unfold Js.Math_max.
  rewrite is_nan_of_int, ltb_0_of_int, ltb_of_int_0 by done.
  change (Js.is_nan 0) with false. cbn [orb].
  destruct (Z.ltb_spec 0 z); [by rewrite Z.max_r by lia|].
  destruct (Z.ltb_spec z 0); [by rewrite Z.max_l by lia|].
  assert (z = 0) as -> by lia. reflexivity.
Qed.

Lemma leb_of_int a b :
  0 ≤ a < 2 ^ 53 → 0 ≤ b < 2 ^ 53 →
  (Js.of_int a <=? Js.of_int b)%float = (a <=? b).
Proof.
  intros Ha Hb. rewrite leb_spec, !Prim2SF_of_int by lia.
  destruct (Z.eq_dec a 0) as [->|Ha0]; [by destruct b|].
  destruct (Z.eq_dec b 0) as [->|Hb0]; [by destruct a|].
  rewrite (SF_of_Z_pos a), (SF_of_Z_pos b) by lia.
  unfold SFleb, SFcompare, exponent_of. zfold.
  change (PosDef.Pos.compare_cont Eq (mantissa_of a) (mantissa_of b))
    with (Z.pos (mantissa_of a) ?= Z.pos (mantissa_of b)).
  rewrite !mantissa_of_spec by lia.
  destruct (Z.compare_spec (Z.log2 a - 52) (Z.log2 b - 52)) as [Heq|Hlt|Hgt].
  - assert (Z.log2 a = Z.log2 b) as -> by lia.
    pose proof (log2_below b ltac:(lia)).
    rewrite <- Zmult_compare_compat_r by (apply Z.lt_gt, Z.pow_pos_nonneg; lia).
    unfold Z.leb. by destruct (a ?= b).
  - assert (a < b) by (apply Z.log2_lt_cancel; lia).
    symmetry. apply Z.leb_le. lia.
  - assert (b < a) by (apply Z.log2_lt_cancel; lia).
    symmetry. apply Z.leb_gt. lia.
Qed.

Lemma bind_inr {A B} (m : Act A) (f : A → Act B) w a w1 :
  m w = (inr a, w1) → (m ≫= f) w = f a w1.
Proof. intros H. unfold mbind, Act_bind. by rewrite H. Qed.

Lemma bind_inl {A B} (m : Act A) (f : A → Act B) w e w1 :
  m w = (inl e, w1) → (m ≫= f) w = (inl e, w1).
Proof. intros H. unfold mbind, Act_bind. by rewrite H. Qed.

(** ** Permissions *)

Lemma requirePermission_granted req perm w :
  hasPermission req perm = true →
  ∃ user, req_user req = Some user ∧ requirePermission req perm w = (inr user, w).
Proof.
  intros H.
  assert (∃ user, req_user req = Some user) as [user Hu].
  { unfold hasPermission, getCurrentUser in H. destruct (req_user req); [eauto|done]. }
  exists user. split; [done|].
  unfold requirePermission, requireAuth, getCurrentUser. rewrite Hu.
  act_unfold. by rewrite H.
Qed.

(** ** Admin stock adjustment *)

(** The number [updateProductInventory] computes for the new count. *)
Lemma updateProductInventory_stores req productId quantity operation w p n :
  hasPermission req PRODUCT_UPDATE = true →
  products w !! productId = Some p →
  let newQuantity :=
    match operation with
    | ADD => (Js.of_int (p_inventory p) + quantity)%float
    | SUBTRACT => Js.Math_max 0 (Js.of_int (p_inventory p) - quantity)%float
    | SET => quantity
    end in
  Js.to_int newQuantity = Some n →
  let alert :=
    if (newQuantity <=? 10)%float && (0 <? newQuantity)%float then
      match Js.str_or_undefined (req_adminEmail req) with
      | Some adminEmail =>
          [Mail {| em_to := adminEmail; em_subject := "Low Stock Alert: " +:+ p_name p |}]
      | None => []
      end
    else [] in
  updateProductInventory req productId quantity operation w
  = (Success (set_inventory p n),
     {| products := <[productId := set_inventory p n]> (products w);
        carts := carts w; cartItems := cartItems w; orders := orders w;
        stripeSessions := stripeSessions w;
        effects := effects w ++ alert ++ [Revalidate "products"; Revalidate "inventory"] |}).
Proof.
  intros Hperm Hp newQuantity Hn alert.
  destruct (requirePermission_granted req PRODUCT_UPDATE w Hperm) as (user & _ & Hreq).
  unfold updateProductInventory, server_action.
  rewrite (bind_inr _ _ _ _ _ Hreq).
  unfold mbind at 1, Act_bind at 1, gets at 1. rewrite Hp. fold newQuantity.
  unfold product_update_inventory. rewrite Hn.
  unfold product_update, sendLowStockAlert, revalidateTag. act_unfold.
  rewrite Hp. subst alert.
  destruct ((newQuantity <=? 10)%float && (0 <? newQuantity)%float);
    [destruct (Js.str_or_undefined (req_adminEmail req))|];
    unfold with_effect, with_products; cbn; by rewrite <- ?app_assoc.
Qed.


(** For whole numbers in the range where binary64 is exact, the new count is
    the one of integer arithmetic. *)
Lemma new_count_whole i q operation :
  0 ≤ i → 0 ≤ q → i + q < 2 ^ 53 →
  match operation with
  | ADD => (Js.of_int i + Js.of_int q)%float
  | SUBTRACT => Js.Math_max 0 (Js.of_int i - Js.of_int q)%float
  | SET => Js.of_int q
  end
  = Js.of_int match operation with
              | ADD => i + q
              | SUBTRACT => Z.max 0 (i - q)
              | SET => q
              end.
Proof.
  intros Hi Hq Hsum. destruct operation; [done|by apply of_int_add|].
  rewrite of_int_sub by lia. apply Math_max_0_of_int. lia.
Qed.

Lemma updateProductInventory_run req productId q operation w p :
  hasPermission req PRODUCT_UPDATE = true →
  products w !! productId = Some p →
  0 ≤ p_inventory p → 0 ≤ q → p_inventory p + q < 2 ^ 53 →
  let n := match operation with
           | ADD => p_inventory p + q
           | SUBTRACT => Z.max 0 (p_inventory p - q)
           | SET => q
           end in
  let alert :=
    if (n <=? 10) && (0 <? n) then
      match Js.str_or_undefined (req_adminEmail req) with
      | Some adminEmail =>
          [Mail {| em_to := adminEmail; em_subject := "Low Stock Alert: " +:+ p_name p |}]
      | None => []
      end
    else [] in
  updateProductInventory req productId (Js.of_int q) operation w
  = (Success (set_inventory p n),
     {| products := <[productId := set_inventory p n]> (products w);
        carts := carts w; cartItems := cartItems w; orders := orders w;
        stripeSessions := stripeSessions w;
        effects := effects w ++ alert ++ [Revalidate "products"; Revalidate "inventory"] |}).
Proof.
  intros Hperm Hp Hi Hq Hsum n alert.
  assert (Hn : 0 ≤ n < 2 ^ 53) by (subst n; destruct operation; lia).
  pose proof (new_count_whole (p_inventory p) q operation Hi Hq Hsum) as Hnew. fold n in Hnew.
  rewrite (updateProductInventory_stores req productId (Js.of_int q) operation w p n Hperm Hp)
    by (rewrite Hnew; apply to_int_of_int; lia).
  rewrite Hnew. subst alert.
  change 10%float with (Js.of_int 10).
  by rewrite leb_of_int, ltb_0_of_int by lia.
Qed.




(** ** Loops that move stock *)

Lemma stock_delta_neg productId items :
  stock_delta (λ item, - oi_quantity item) productId items = - units_of productId items.
Proof.
  unfold units_of. induction items as [|item rest IH]; simpl; [done|].
  rewrite IH. case_bool_decide; lia.
Qed.

Lemma inventory_insert w id p productId :
  inventory (with_products (insert id p) w) productId
  = if decide (id = productId) then Some (p_inventory p) else inventory w productId.
Proof.
  unfold inventory. simpl. rewrite lookup_insert. by case_decide.
Qed.

Lemma product_update_found id f w p :
  products w !! id = Some p →
  product_update id f w
  = (inr (set_inventory p (f (p_inventory p))),
     with_products (insert id (set_inventory p (f (p_inventory p)))) w).
Proof. intros H. unfold product_update. by rewrite H. Qed.

(** A loop that adds [k item] to the stock of each line's product, one
    [product.update] per line: when the products exist it runs to the end,
    and the stock of every product has moved by the sum over its lines. *)
Lemma stock_loop (f : OrderItem → Z → Z) (k : OrderItem → Z) items :
  (∀ item inv, f item inv = inv + k item) →
  ∀ w,
  (∀ item, item ∈ items → is_Some (products w !! oi_productId item)) →
  ∃ ps,
    for_each items (λ item, product_update (oi_productId item) (f item) ;; mret tt) w
    = (inr tt, with_products (λ _, ps) w)
    ∧ (∀ productId,
         p_inventory <$> ps !! productId
         = (λ i, i + stock_delta k productId items) <$> inventory w productId)
    ∧ (∀ productId, is_Some (ps !! productId) ↔ is_Some (products w !! productId)).
Proof.
  intros Hf. induction items as [|item rest IH]; intros w Hex.
  - exists (products w). split; [by destruct w|].
    split; [|done]. intros pid. unfold inventory. simpl.
    destruct (products w !! pid); simpl; f_equal; lia.
  - destruct (Hex item) as [p Hp]; [left|].
    set (p' := set_inventory p (f item (p_inventory p))).
    destruct (IH (with_products (insert (oi_productId item) p') w)) as (ps & Hrun & Hinv & Hdom).
    { intros it Hit. simpl. rewrite lookup_insert. case_decide; [done|].
      apply Hex. by right. }
    exists ps. split; [|split].
    + cbn [for_each]. erewrite bind_inr; [by rewrite Hrun|].
      erewrite bind_inr; [reflexivity|]. by apply product_update_found.
    + intros pid. rewrite Hinv, inventory_insert. simpl.
      unfold inventory. case_decide as Heq.
      * subst pid. rewrite Hp. simpl. rewrite bool_decide_eq_true_2 by done.
        f_equal. rewrite Hf. lia.
      * rewrite bool_decide_eq_false_2 by done.
        destruct (products w !! pid); simpl; f_equal; lia.
    + intros pid. rewrite Hdom. simpl. rewrite lookup_insert.
      case_decide; [subst; by rewrite Hp|done].
Qed.

(** ** Order status updates by an administrator *)

Lemma order_update_found id f w o :
  orders w !! id = Some o →
  order_update id f w = (inr (f o), with_orders (insert id (f o)) w).
Proof. intros H. unfold order_update. by rewrite H. Qed.

(** The claim of C3 fails: an administrator's request to move a DELIVERED
    order back to PROCESSING is accepted and stored. *)
Lemma updateOrderStatus_delivered_to_processing :
  let run := updateOrderStatus (request_of (Some admin_user) 7) "o1"
               (status_form "PROCESSING") delivered_world in
  o_status <$> orders delivered_world !! "o1" = Some DELIVERED
  ∧ (∃ o, run.1 = Success o)
  ∧ o_status <$> orders run.2 !! "o1" = Some PROCESSING
  ∧ orders run.2 ≠ orders delivered_world.
Proof.
  split; [reflexivity|]. split; [eexists; reflexivity|]. split; [reflexivity|].
  intros H. apply (f_equal (λ m, o_status <$> m !! "o1")) in H.
  vm_compute in H. discriminate.
Qed.

(** C3 (amended): with ORDER_UPDATE permission and an existing order,
    [updateOrderStatus] accepts each of the six status names whatever the
    order's current status and stores that status, touching no other order;
    a status that is not one of the six names makes it fail with the world
    unchanged. *)
Theorem updateOrderStatus_any_transition req orderId formData w o :
  hasPermission req ORDER_UPDATE = true →
  orders w !! orderId = Some o →
  match fs_status formData ≫= parse_OrderStatus with
  | Some target =>
      ∃ o' w',
        updateOrderStatus req orderId formData w = (Success o', w')
        ∧ o_status o' = target
        ∧ o_items o' = o_items o
        ∧ orders w' = <[orderId := o']> (orders w)
        ∧ products w' = products w
  | None =>
      updateOrderStatus req orderId formData w = (Failure "Failed to update order status", w)
  end.
Proof.
  intros Hperm Ho.
  destruct (requirePermission_granted req ORDER_UPDATE w Hperm) as (user & _ & Hreq).
  unfold updateOrderStatus, server_action.
  rewrite (bind_inr _ _ _ _ _ Hreq).
  unfold updateOrderStatusSchema_parse.
  destruct (fs_status formData ≫= parse_OrderStatus) as [target|]; [|reflexivity].
  set (v := {| us_status := target |}).
  unfold mbind at 1, Act_bind at 1. unfold mret at 1, Act_ret at 1.
  rewrite (bind_inr _ _ _ _ _ (order_update_found orderId _ w o Ho)).
  exists (apply_status_update v (req_now req) o).
  destruct (bool_decide (us_status v ∈ [SHIPPED; DELIVERED])); eexists; act_unfold; simpl;
    repeat split; reflexivity.
Qed.

Lemma updateOrderStatus_any_transition_witness :
  ∃ o' w',
    updateOrderStatus (request_of (Some admin_user) 7) "o1" (status_form "PROCESSING")
      delivered_world = (Success o', w')
    ∧ o_status o' = PROCESSING
    ∧ o_items o' = []
    ∧ orders w' = <["o1" := o']> (orders delivered_world)
    ∧ products w' = products delivered_world.
Proof.
  exact (updateOrderStatus_any_transition (request_of (Some admin_user) 7) "o1"
           (status_form "PROCESSING") delivered_world
           (demo_order "o1" (Some "u1") DELIVERED []) eq_refl eq_refl).
Defined.

(** Every status has a name the form can carry, so every pair of statuses is
    an accepted transition. *)
Lemma parse_OrderStatus_onto (target : OrderStatus) :
  ∃ name, parse_OrderStatus name = Some target.
Proof.
  destruct target;
    [ by exists "PENDING" | by exists "PROCESSING" | by exists "SHIPPED"
    | by exists "DELIVERED" | by exists "CANCELLED" | by exists "REFUNDED" ].
Qed.

(** ** Cancellation by the customer *)

Lemma cancelOrder_not_cancellable req orderId w user o :
  req_user req = Some user →
  orders w !! orderId = Some o →
  o_userId o = Some (u_id user) →
  o_status o ∉ [PENDING; PROCESSING] →
  cancelOrder req orderId w = (Failure "Order cannot be cancelled", w).
Proof.
  intros Hu Ho Hown Hst. unfold cancelOrder, server_action, getCurrentUser.
  rewrite Hu. act_unfold. rewrite Ho.
  rewrite bool_decide_eq_false_2 by (by intros H; apply H).
  by rewrite bool_decide_eq_false_2.
Qed.

(** C6: cancelling one's own PROCESSING order adds each line's quantity back
    to its product's inventory and moves the order to CANCELLED with
    cancelledAt set; cancelling a PENDING order moves it to CANCELLED and
    leaves the inventory alone.  A cancelled order cannot be cancelled again,
    so the units are put back once. *)
Theorem cancelOrder_restocks req orderId w user o :
  req_user req = Some user →
  orders w !! orderId = Some o →
  o_userId o = Some (u_id user) →
  (∀ item, item ∈ o_items o → is_Some (products w !! oi_productId item)) →
  (o_status o = PROCESSING →
   ∃ w',
     cancelOrder req orderId w = (Success tt, w')
     ∧ (∀ productId,
          inventory w' productId
          = (λ i, i + units_of productId (o_items o)) <$> inventory w productId)
     ∧ orders w' = <[orderId := mark_cancelled (req_now req) o]> (orders w)
     ∧ o_status (mark_cancelled (req_now req) o) = CANCELLED
     ∧ o_cancelledAt (mark_cancelled (req_now req) o) = Some (req_now req)
     ∧ cancelOrder req orderId w' = (Failure "Order cannot be cancelled", w'))
  ∧ (o_status o = PENDING →
     ∃ w',
       cancelOrder req orderId w = (Success tt, w')
       ∧ products w' = products w
       ∧ orders w' = <[orderId := mark_cancelled (req_now req) o]> (orders w)
       ∧ o_status (mark_cancelled (req_now req) o) = CANCELLED
       ∧ o_cancelledAt (mark_cancelled (req_now req) o) = Some (req_now req)).
Proof.
  intros Hu Ho Hown Hex. split; intros Hst.
  - destruct (stock_loop (λ item inv, inv + oi_quantity item) oi_quantity (o_items o)
                (λ _ _, eq_refl) w Hex) as (ps & Hloop & Hinv & _).
    eexists. split; [|split; [|split; [|split; [|split]]]].
    + unfold cancelOrder, server_action, getCurrentUser. rewrite Hu.
      act_unfold. rewrite Ho.
      rewrite bool_decide_eq_false_2 by (by intros H; apply H).
      rewrite Hst. simpl. act_unfold. rewrite Hloop.
      unfold order_update. simpl. rewrite Ho. reflexivity.
    + intros pid. unfold inventory at 1. simpl. apply Hinv.
    + reflexivity.
    + reflexivity.
    + reflexivity.
    + apply (cancelOrder_not_cancellable _ _ _ user (mark_cancelled (req_now req) o));
        [done| |done|].
      * simpl. apply lookup_insert_eq.
      * simpl. rewrite !elem_of_cons, elem_of_nil. by intros [?|[?|[]]].
  - eexists. split; [|split; [|split; [|split]]].
    + unfold cancelOrder, server_action, getCurrentUser. rewrite Hu.
      act_unfold. rewrite Ho.
      rewrite bool_decide_eq_false_2 by (by intros H; apply H).
      rewrite Hst. simpl. unfold order_update. rewrite Ho. reflexivity.
    + reflexivity.
    + reflexivity.
    + reflexivity.
    + reflexivity.
Qed.

Lemma cancelOrder_restocks_witness :
  ∃ w',
    cancelOrder (request_of (Some shopper) 9) "o1" (order_world PROCESSING 3)
    = (Success tt, w')
    ∧ inventory (order_world PROCESSING 3) "P" = Some 5
    ∧ inventory w' "P" = Some 8
    ∧ o_status <$> orders w' !! "o1" = Some CANCELLED.
Proof.
  destruct (proj1 (cancelOrder_restocks (request_of (Some shopper) 9) "o1"
                     (order_world PROCESSING 3) shopper
                     (demo_order "o1" (Some "u1") PROCESSING
                        [{| oi_productId := "P"; oi_quantity := 3; oi_price := 10%float |}])
                     eq_refl eq_refl eq_refl
                     ltac:(intros item ->%list_elem_of_singleton; by eexists))
            eq_refl)
    as (w' & Hrun & Hinv & Hord & _).
  exists w'. split; [exact Hrun|]. split; [reflexivity|].
  split; [by rewrite Hinv | by rewrite Hord].
Defined.

(** ** Payment confirmation *)

Lemma processSuccessfulPayment_run req sessionId w session o :
  stripeSessions w !! sessionId = Some session →
  ss_orderId session = Some (o_id o) →
  orders w !! o_id o = Some o →
  (∀ item, item ∈ o_items o → is_Some (products w !! oi_productId item)) →
  ∃ w',
    processSuccessfulPayment req sessionId w = (Success o, w')
    ∧ orders w'
      = <[o_id o := mark_paid (ss_paymentIntent session) (req_now req) o]> (orders w)
    ∧ stripeSessions w' = stripeSessions w
    ∧ (∀ productId,
         inventory w' productId
         = (λ i, i - units_of productId (o_items o)) <$> inventory w productId)
    ∧ (∀ productId, is_Some (products w' !! productId) ↔ is_Some (products w !! productId)).
Proof.
  intros Hs Hmeta Ho Hex.
  set (o1 := mark_paid (ss_paymentIntent session) (req_now req) o).
  set (w1 := with_orders (insert (o_id o) o1) w).
  destruct (stock_loop (λ item inv, inv - oi_quantity item) (λ item, - oi_quantity item)
              (o_items o) (λ _ _, eq_refl) w1 Hex) as (ps & Hloop & Hinv & Hdom).
  set (w2 := with_products (λ _, ps) w1) in *.
  destruct (ledger_eq _ _ (clearCart_ledger req w2)) as (Hp3 & Ho3 & Hs3).
  eexists. split; [|split; [|split; [|split]]].
  - unfold processSuccessfulPayment, server_action.
    act_unfold. rewrite Hs, Hmeta, Ho.
    unfold order_update. rewrite Ho. fold o1 w1. rewrite Hloop. fold w2.
    unfold sendOrderConfirmation, revalidateTag. act_unfold. reflexivity.
  - simpl. by rewrite Ho3.
  - simpl. by rewrite Hs3.
  - intros pid. unfold inventory at 1. simpl. rewrite Hp3. simpl.
    rewrite Hinv. unfold inventory. simpl.
    rewrite stock_delta_neg. destruct (products w !! pid); simpl; f_equal; lia.
  - intros pid. simpl. rewrite Hp3. simpl. by rewrite Hdom.
Qed.

(** The claim of C1 fails: the order is PENDING with one line of 2 units of
    P, 5 in stock.  One confirmation leaves 3 in stock, a second confirmation
    of the same session (same request, same clock) leaves 1 and sends a
    second mail. *)
Lemma processSuccessfulPayment_not_idempotent :
  let req := request_of (Some shopper) 9 in
  let once := (processSuccessfulPayment req "cs_1" (order_world PENDING 2)).2 in
  let twice := (processSuccessfulPayment req "cs_1" once).2 in
  o_status <$> orders (order_world PENDING 2) !! "o1" = Some PENDING
  ∧ inventory once "P" = Some 3
  ∧ inventory twice "P" = Some 1
  ∧ inventory twice "P" ≠ inventory once "P"
  ∧ effects twice ≠ effects once.
Proof.
  split; [reflexivity|]. split; [reflexivity|]. split; [reflexivity|].
  split; [by vm_compute|]. vm_compute. discriminate.
Qed.

(** C1 (amended): [processSuccessfulPayment] has no gate on the order's
    status.  Each run answers success, sets the status to PROCESSING, sets
    paidAt to the clock of that run and takes every line's quantity off its
    product's inventory.  Two runs for the same session therefore leave the
    status of one run, the paidAt of the second run, and the inventory
    decremented twice. *)
Theorem processSuccessfulPayment_twice req1 req2 sessionId w session o :
  stripeSessions w !! sessionId = Some session →
  ss_orderId session = Some (o_id o) →
  orders w !! o_id o = Some o →
  (∀ item, item ∈ o_items o → is_Some (products w !! oi_productId item)) →
  ∃ o1 w1 o2 w2,
    processSuccessfulPayment req1 sessionId w = (Success o, w1)
    ∧ processSuccessfulPayment req2 sessionId w1 = (Success o1, w2)
    ∧ orders w1 !! o_id o = Some o1
    ∧ orders w2 !! o_id o = Some o2
    ∧ o_status o1 = PROCESSING ∧ o_status o2 = PROCESSING
    ∧ o_paidAt o1 = Some (req_now req1) ∧ o_paidAt o2 = Some (req_now req2)
    ∧ ∀ productId,
        inventory w1 productId
        = (λ i, i - units_of productId (o_items o)) <$> inventory w productId
        ∧ inventory w2 productId
          = (λ i, i - 2 * units_of productId (o_items o)) <$> inventory w productId.
Proof.
  intros Hs Hmeta Ho Hex.
  destruct (processSuccessfulPayment_run req1 sessionId w session o Hs Hmeta Ho Hex)
    as (w1 & Hrun1 & Hord1 & Hst1 & Hinv1 & Hdom1).
  set (o1 := mark_paid (ss_paymentIntent session) (req_now req1) o) in *.
  assert (Ho1 : orders w1 !! o_id o1 = Some o1).
  { rewrite Hord1. apply lookup_insert_eq. }
  destruct (processSuccessfulPayment_run req2 sessionId w1 session o1)
    as (w2 & Hrun2 & Hord2 & _ & Hinv2 & _); [by rewrite Hst1 | done | done | |].
  { intros item Hin. apply Hdom1. by apply Hex. }
  exists o1, w1, (mark_paid (ss_paymentIntent session) (req_now req2) o1), w2.
  split; [done|]. split; [done|]. split; [done|].
  split; [rewrite Hord2; apply lookup_insert_eq|].
  do 4 (split; [reflexivity|]).
  intros pid. split; [apply Hinv1|].
  rewrite Hinv2, Hinv1. simpl.
  destruct (inventory w pid); simpl; f_equal; lia.
Qed.

Lemma processSuccessfulPayment_twice_witness :
  ∃ w1 w2,
    (processSuccessfulPayment (request_of (Some shopper) 9) "cs_1"
       (order_world PENDING 2)).2 = w1
    ∧ (processSuccessfulPayment (request_of (Some shopper) 12) "cs_1" w1).2 = w2
    ∧ inventory w1 "P" = Some 3
    ∧ inventory w2 "P" = Some 1.
Proof.
  destruct (processSuccessfulPayment_twice (request_of (Some shopper) 9)
              (request_of (Some shopper) 12) "cs_1" (order_world PENDING 2)
              {| ss_id := "cs_1"; ss_url := "https://pay"; ss_orderId := Some "o1";
                 ss_paymentIntent := Some "pi_1" |}
              (demo_order "o1" (Some "u1") PENDING
                 [{| oi_productId := "P"; oi_quantity := 2; oi_price := 10%float |}])
              eq_refl eq_refl eq_refl
              ltac:(intros item ->%list_elem_of_singleton; by eexists))
    as (o1 & w1 & o2 & w2 & Hrun1 & Hrun2 & _ & _ & _ & _ & _ & _ & Hinv).
  exists w1, w2. rewrite Hrun1. simpl. rewrite Hrun2. simpl.
  split; [done|]. split; [done|].
  destruct (Hinv "P") as [H1 H2]. by rewrite H1, H2.
Defined.

(** ** Hoare rules *)

Section Hoare.
Context {A : Type}.
Implicit Types (m : Act A) (Q : A → World → Prop) (P E : World → Prop).

Lemma hoare_bind {B} P (m : Act B) (R : B → World → Prop) (f : B → Act A) Q E :
  hoare P m R E → (∀ b, hoare (R b) (f b) Q E) → hoare P (m ≫= f) Q E.
Proof.
  intros Hm Hf w Hw. unfold mbind, Act_bind. specialize (Hm w Hw).
  destruct (m w) as [[e|b] w1]; [done|]. by apply Hf.
Qed.

Lemma hoare_assume (φ : Prop) P m Q E :
  (φ → hoare P m Q E) → hoare (λ w, P w ∧ φ) m Q E.
Proof. intros H w [Hw Hφ]. by apply H. Qed.

End Hoare.

(** An action that keeps [π] keeps every property of [π]. *)
Lemma hoare_keeps {A X} (π : World → X) (Φ : X → Prop) (m : Act A) :
  keeps π m → hoare (λ w, Φ (π w)) m (λ _ w, Φ (π w)) (λ w, Φ (π w)).
Proof.
  intros H w Hw. specialize (H w). destruct (m w) as [[e|a] w']; simpl in *; by rewrite H.
Qed.

Lemma hoare_for_each {A} (I : World → Prop) (xs : list A) (body : A → Act unit) :
  (∀ x, x ∈ xs → hoare I (body x) (λ _, I) I) →
  hoare I (for_each xs body) (λ _, I) I.
Proof.
  induction xs as [|x xs IH]; intros Hb; simpl.
  - by intros w Hw.
  - eapply hoare_bind; [apply Hb; by left|].
    intros u. apply IH. intros y Hy. apply Hb. by right.
Qed.

Lemma hoare_server_action {A} (I : World → Prop) msg (body : Act (Response A)) w :
  hoare I body (λ _, I) I → I w → I (server_action msg body w).2.
Proof.
  intros H Hw. unfold server_action. specialize (H w Hw).
  by destruct (body w) as [[e|r] w'].
Qed.

(** ** Lines of a cart *)

Lemma find_Some_elem {A} (f : A → bool) (l : list A) x :
  find f l = Some x → x ∈ l ∧ f x = true.
Proof. intros H. apply find_some in H as [H1 H2]. by rewrite list_elem_of_In. Qed.

Lemma find_None_elem {A} (f : A → bool) (l : list A) x :
  find f l = None → x ∈ l → f x = false.
Proof. intros H Hx. eapply find_none; [done|]. by apply list_elem_of_In. Qed.

Lemma line_key_set_quantity q r : line_key (set_quantity q r) = line_key r.
Proof. done. Qed.

Lemma cart_shape_update id q rows :
  1 ≤ q →
  cart_shape rows →
  cart_shape ((λ r, if bool_decide (ci_id r = id) then set_quantity q r else r) <$> rows).
Proof.
  intros Hq [Hall Hnd]. split.
  - apply Forall_fmap. eapply Forall_impl; [exact Hall|].
    intros r Hr. simpl. by case_bool_decide.
  - rewrite <- list_fmap_compose.
    erewrite list_fmap_ext; [exact Hnd|].
    intros i r _. simpl. by case_bool_decide.
Qed.

Lemma cart_shape_filter (P : CartItem → Prop) `{∀ r, Decision (P r)} rows :
  cart_shape rows → cart_shape (filter P rows).
Proof.
  intros [Hall Hnd]. split.
  - rewrite Forall_forall in *. intros r [_ Hr]%list_elem_of_filter. by apply Hall.
  - eapply sublist_NoDup; [exact Hnd|]. apply fmap_sublist, sublist_filter.
Qed.

Lemma cart_shape_snoc rows r :
  1 ≤ ci_quantity r →
  line_key r ∉ line_key <$> rows →
  cart_shape rows →
  cart_shape (rows ++ [r]).
Proof.
  intros Hq Hkey [Hall Hnd]. split.
  - apply Forall_app. split; [done|]. by constructor.
  - rewrite fmap_app. apply NoDup_app. split; [done|]. split.
    + intros k Hk ->%list_elem_of_singleton. done.
    + apply NoDup_singleton.
Qed.

Lemma line_matches_true c p f r :
  line_matches c p f r = true ↔
  ci_cartId r = c ∧ ci_productId r = p ∧ variant_matches f r = true.
Proof.
  unfold line_matches. rewrite !andb_true_iff, !bool_decide_eq_true. tauto.
Qed.

(** When the lookup of a line finds nothing, no line of the cart has the
    product with a variant the filter lets through. *)
Lemma find_line_None c p f rows v :
  find (line_matches c p f) rows = None →
  (∀ r, ci_variantId r = v → variant_matches f r = true) →
  (c, p, v) ∉ line_key <$> rows.
Proof.
  intros Hfind Hv (r & Hkey & Hr)%list_elem_of_fmap.
  unfold line_key in Hkey. simplify_eq.
  pose proof (find_None_elem _ _ _ Hfind Hr) as Hno.
  assert (line_matches (ci_cartId r) (ci_productId r) f r = true) as Hyes.
  { apply line_matches_true. auto. }
  congruence.
Qed.

Lemma variant_where_accepts v r :
  ci_variantId r = v → variant_matches (variant_where v) r = true.
Proof.
  intros <-. unfold variant_where. destruct (ci_variantId r) eqn:E; simpl; [|done].
  by rewrite E, bool_decide_eq_true.
Qed.

Lemma variant_equals_accepts v r :
  ci_variantId r = v → variant_matches (VariantEquals v) r = true.
Proof. intros <-. simpl. by rewrite bool_decide_eq_true. Qed.

(** ** The cart session *)

Lemma upsert_cart_keeps_cartItems found create : keeps cartItems (upsert_cart found create).
Proof. unfold upsert_cart. keeps_tac. Qed.

Lemma getCartSession_keeps_cartItems req : keeps cartItems (getCartSession req).
Proof. unfold getCartSession. keeps_tac; apply upsert_cart_keeps_cartItems. Qed.

Lemma upsert_cart_returns found create w :
  ∃ cart w0, upsert_cart found create w = (inr cart, w0).
Proof.
  unfold upsert_cart. act_unfold. destruct (find found (carts w)); eauto.
Qed.

Lemma getCartSession_returns req w :
  ∃ cart w0, getCartSession req w = (inr cart, w0)
             ∧ cartItems w0 = cartItems w ∧ ledger w0 = ledger w.
Proof.
  assert (∃ cart w0, getCartSession req w = (inr cart, w0)) as (cart & w0 & H).
  { unfold getCartSession. destruct (getCurrentUser req).
    - apply upsert_cart_returns.
    - destruct (Js.str_or_undefined (req_cartSession req)); act_unfold;
        apply upsert_cart_returns. }
  exists cart, w0. split; [done|].
  pose proof (getCartSession_keeps_cartItems req w) as H1.
  pose proof (getCartSession_keeps_ledger req w) as H2.
  rewrite H in H1, H2. done.
Qed.

(** ** Prisma calls on cart lines *)

Lemma cartItem_update_found id q w r :
  r ∈ cartItems w → ci_id r = id →
  cartItem_update id q w
  = (inr tt, with_cartItems (λ _, rows_with_quantity id q (cartItems w)) w).
Proof.
  intros Hr Hid. unfold cartItem_update.
  assert (existsb (λ r, bool_decide (ci_id r = id)) (cartItems w) = true) as ->; [|done].
  apply existsb_exists. exists r. split; [by apply list_elem_of_In|].
  by apply bool_decide_eq_true.
Qed.

Lemma cartItem_delete_found id w r :
  r ∈ cartItems w → ci_id r = id →
  cartItem_delete id w
  = (inr tt, with_cartItems (λ _, filter (λ r, ci_id r ≠ id) (cartItems w)) w).
Proof.
  intros Hr Hid. unfold cartItem_delete.
  assert (existsb (λ r, bool_decide (ci_id r = id)) (cartItems w) = true) as ->; [|done].
  apply existsb_exists. exists r. split; [by apply list_elem_of_In|].
  by apply bool_decide_eq_true.
Qed.

Lemma cartItem_create_run cartId productId q v w :
  cartItem_create cartId productId q v w
  = (inr tt,
     with_cartItems (λ _, cartItems w ++ [new_row (cartItems w) cartId productId q v]) w).
Proof. done. Qed.

(** ** addToCart *)

Lemma addToCartSchema_parse_inr a b c w v :
  (addToCartSchema_parse a b c w).1 = inr v →
  addToCartSchema_parse a b c w = (inr v, w)
  ∧ a = Some (ac_productId v) ∧ b = Some (ac_quantity v) ∧ ac_variantId v = c
  ∧ 1 ≤ ac_quantity v ≤ 100.
Proof.
  unfold addToCartSchema_parse. destruct a as [pid|], b as [q|]; try done.
  destruct (bool_decide _ && (1 <=? q) && (q <=? 100)) eqn:Hc; [|done].
  simpl. intros [= <-]. simpl.
  apply andb_true_iff in Hc as [[_ H1]%andb_true_iff H2]. repeat split; lia.
Qed.

Lemma addToCart_insufficient req formData w v p :
  (addToCartSchema_parse (fd_productId formData) (fd_quantity formData)
     (Js.str_or_undefined (fd_variantId formData)) w).1 = inr v →
  products w !! ac_productId v = Some p →
  p_isActive p = true →
  p_inventory p < ac_quantity v →
  addToCart req formData w = (Failure "Insufficient inventory", w).
Proof.
  intros Hparse Hp Hact Hlt.
  apply addToCartSchema_parse_inr in Hparse as (Hparse & _).
  unfold addToCart, server_action. rewrite (bind_inr _ _ _ _ _ Hparse).
  act_unfold. rewrite Hp, Hact. simpl.
  by rewrite (proj2 (Z.ltb_lt _ _) Hlt).
Qed.

(** Past the two product checks, what [addToCart] does is decided by the
    line it finds in the caller's cart. *)
Lemma addToCart_proceeds req formData w v p cart w0 :
  (addToCartSchema_parse (fd_productId formData) (fd_quantity formData)
     (Js.str_or_undefined (fd_variantId formData)) w).1 = inr v →
  products w !! ac_productId v = Some p →
  p_isActive p = true →
  ac_quantity v ≤ p_inventory p →
  getCartSession req w = (inr cart, w0) →
  addToCart req formData w =
    match find (line_matches (cart_id cart) (ac_productId v) (variant_where (ac_variantId v)))
               (cartItems w) with
    | Some e =>
        if p_inventory p <? ci_quantity e + ac_quantity v then
          (Failure "Cannot add more items than available in inventory", w0)
        else
          (Success tt,
           with_effect (Revalidate "cart")
             (with_cartItems
                (λ _, rows_with_quantity (ci_id e) (ci_quantity e + ac_quantity v)
                        (cartItems w)) w0))
    | None =>
        (Success tt,
         with_effect (Revalidate "cart")
           (with_cartItems
              (λ _, cartItems w ++
                    [new_row (cartItems w) (cart_id cart) (ac_productId v)
                       (ac_quantity v) (ac_variantId v)]) w0))
    end.
Proof.
  intros Hparse Hp Hact Hle Hcs.
  apply addToCartSchema_parse_inr in Hparse as (Hparse & _).
  pose proof (getCartSession_keeps_cartItems req w) as Hrows.
  rewrite Hcs in Hrows. simpl in Hrows.
  unfold addToCart, server_action. rewrite (bind_inr _ _ _ _ _ Hparse).
  unfold mbind at 1, Act_bind at 1, gets at 1. rewrite Hp, Hact. simpl.
  rewrite (proj2 (Z.ltb_ge _ _) Hle).
  rewrite (bind_inr _ _ _ _ _ Hcs).
  unfold mbind at 1, Act_bind at 1, gets at 1. rewrite Hrows.
  destruct (find _ (cartItems w)) as [e|] eqn:Hfind.
  - destruct (p_inventory p <? ci_quantity e + ac_quantity v); [done|].
    apply find_Some_elem in Hfind as [He _].
    erewrite bind_inr; [|apply (cartItem_update_found _ _ _ e); by rewrite ?Hrows].
    rewrite Hrows. reflexivity.
  - rewrite (bind_inr _ _ _ _ _ (cartItem_create_run _ _ _ _ _)).
    rewrite Hrows. reflexivity.
Qed.

(** Whatever the form holds, [addToCart] either stops before it touches the
    world, or reaches the lookup of the line with a valid quantity and an
    active product in stock. *)
Lemma addToCart_outcome req formData w :
  (∃ msg, addToCart req formData w = (Failure msg, w))
  ∨ (∃ v p cart w0,
       (addToCartSchema_parse (fd_productId formData) (fd_quantity formData)
          (Js.str_or_undefined (fd_variantId formData)) w).1 = inr v
       ∧ products w !! ac_productId v = Some p
       ∧ p_isActive p = true
       ∧ ac_quantity v ≤ p_inventory p
       ∧ getCartSession req w = (inr cart, w0)).
Proof.
  destruct (addToCartSchema_parse (fd_productId formData) (fd_quantity formData)
              (Js.str_or_undefined (fd_variantId formData)) w) as [[e|v] w1] eqn:Hparse.
  - left. eexists. unfold addToCart, server_action.
    assert (w1 = w) as ->.
    { revert Hparse. unfold addToCartSchema_parse.
      repeat case_match; act_unfold; congruence. }
    by rewrite (bind_inl _ _ _ _ _ Hparse).
  - assert ((addToCartSchema_parse (fd_productId formData) (fd_quantity formData)
               (Js.str_or_undefined (fd_variantId formData)) w).1 = inr v) as Hv
      by (by rewrite Hparse).
    destruct (addToCartSchema_parse_inr _ _ _ _ _ Hv) as (Hparse' & _).
    destruct (products w !! ac_productId v) as [p|] eqn:Hp.
    2:{ left. eexists. unfold addToCart, server_action.
        rewrite (bind_inr _ _ _ _ _ Hparse'). act_unfold. by rewrite Hp. }
    destruct (p_isActive p) eqn:Hact.
    2:{ left. eexists. unfold addToCart, server_action.
        rewrite (bind_inr _ _ _ _ _ Hparse'). act_unfold. by rewrite Hp, Hact. }
    destruct (Z.lt_ge_cases (p_inventory p) (ac_quantity v)) as [Hlt|Hge].
    { left. eexists. by eapply addToCart_insufficient. }
    destruct (getCartSession_returns req w) as (cart & w0 & Hcs & _).
    right. by exists v, p, cart, w0.
Qed.

(** ** updateCartItem *)

Lemma updateCartItemSchema_parse_inr quantity w q :
  (updateCartItemSchema_parse quantity w).1 = inr q →
  updateCartItemSchema_parse quantity w = (inr q, w)
  ∧ quantity = Some q ∧ 0 ≤ q ≤ 100.
Proof.
  unfold updateCartItemSchema_parse. destruct quantity as [n|]; [|done].
  destruct ((0 <=? n) && (n <=? 100)) eqn:Hc; [|done].
  simpl. intros [= <-]. apply andb_true_iff in Hc as [H1 H2]. repeat split; lia.
Qed.

Lemma updateCartItem_proceeds req itemId quantity w q cart w0 row p :
  (updateCartItemSchema_parse quantity w).1 = inr q →
  getCartSession req w = (inr cart, w0) →
  find (λ r, bool_decide (ci_id r = itemId) && bool_decide (ci_cartId r = cart_id cart))
       (cartItems w) = Some row →
  products w !! ci_productId row = Some p →
  updateCartItem req itemId quantity w =
    if q =? 0 then
      (Success tt,
       with_effect (Revalidate "cart")
         (with_cartItems (λ _, filter (λ r, ci_id r ≠ itemId) (cartItems w)) w0))
    else if p_inventory p <? q then
      (Failure "Quantity exceeds available inventory", w0)
    else
      (Success tt,
       with_effect (Revalidate "cart")
         (with_cartItems (λ _, rows_with_quantity itemId q (cartItems w)) w0)).
Proof.
  intros Hparse Hcs Hfind Hp.
  apply updateCartItemSchema_parse_inr in Hparse as (Hparse & _).
  pose proof (getCartSession_keeps_cartItems req w) as Hrows.
  pose proof (getCartSession_keeps_ledger req w) as Hled.
  rewrite Hcs in Hrows, Hled. simpl in Hrows, Hled.
  apply ledger_eq in Hled as (Hprod & _).
  unfold updateCartItem, server_action. rewrite (bind_inr _ _ _ _ _ Hparse).
  rewrite (bind_inr _ _ _ _ _ Hcs).
  unfold mbind at 1, Act_bind at 1, gets at 1. rewrite Hrows, Hfind.
  assert (include_product row w0 = (inr (row, p), w0)) as Hinc.
  { unfold include_product. act_unfold. by rewrite Hprod, Hp. }
  rewrite (bind_inr _ _ _ _ _ Hinc). simpl.
  apply find_Some_elem in Hfind as [Hrow Hcond].
  apply andb_true_iff in Hcond as [Hid%bool_decide_eq_true _].
  destruct (q =? 0).
  - erewrite bind_inr; [|apply (cartItem_delete_found _ _ row); by rewrite ?Hrows].
    rewrite Hrows. reflexivity.
  - destruct (p_inventory p <? q); [done|].
    erewrite bind_inr; [|apply (cartItem_update_found _ _ _ row); by rewrite ?Hrows].
    rewrite Hrows. reflexivity.
Qed.

(** The lines [updateCartItem] leaves are those it found, the deleted line
    left out, or those it found with one quantity replaced by a checked
    quantity of at least 1. *)
Lemma updateCartItem_outcome req itemId quantity w :
  cartItems (updateCartItem req itemId quantity w).2 = cartItems w
  ∨ cartItems (updateCartItem req itemId quantity w).2
    = filter (λ r, ci_id r ≠ itemId) (cartItems w)
  ∨ (∃ q, 1 ≤ q
          ∧ cartItems (updateCartItem req itemId quantity w).2
            = rows_with_quantity itemId q (cartItems w)).
Proof.
  destruct (getCartSession_returns req w) as (cart & w0 & Hcs & Hrows & Hled).
  apply ledger_eq in Hled as (Hprod & _).
  destruct (updateCartItemSchema_parse quantity w) as [[e|q] w1] eqn:Hparse.
  { left. unfold updateCartItem, server_action.
    assert (w1 = w) as ->.
    { revert Hparse. unfold updateCartItemSchema_parse.
      repeat case_match; act_unfold; congruence. }
    by rewrite (bind_inl _ _ _ _ _ Hparse). }
  assert ((updateCartItemSchema_parse quantity w).1 = inr q) as Hq by (by rewrite Hparse).
  destruct (updateCartItemSchema_parse_inr _ _ _ Hq) as (Hparse' & _ & Hrange).
  destruct (find (λ r, bool_decide (ci_id r = itemId)
                       && bool_decide (ci_cartId r = cart_id cart)) (cartItems w))
    as [row|] eqn:Hfind.
  2:{ left. unfold updateCartItem, server_action.
      rewrite (bind_inr _ _ _ _ _ Hparse'), (bind_inr _ _ _ _ _ Hcs).
      act_unfold. by rewrite Hrows, Hfind. }
  destruct (products w !! ci_productId row) as [p|] eqn:Hp.
  2:{ left. unfold updateCartItem, server_action.
      rewrite (bind_inr _ _ _ _ _ Hparse'), (bind_inr _ _ _ _ _ Hcs).
      unfold mbind at 1, Act_bind at 1, gets at 1. rewrite Hrows, Hfind.
      unfold include_product. act_unfold. by rewrite Hprod, Hp. }
  rewrite (updateCartItem_proceeds _ _ _ _ _ _ _ _ _ Hq Hcs Hfind Hp).
  destruct (q =? 0) eqn:Hz; [right; left; done|].
  destruct (p_inventory p <? q); [left; done|].
  right; right. exists q. split; [|done].
  apply Z.eqb_neq in Hz. lia.
Qed.

(** ** Cart mutations are capped by the stock they read *)







(** ** The cart-shape invariants *)

Lemma cart_shape_quantity rows r : cart_shape rows → r ∈ rows → 1 ≤ ci_quantity r.
Proof. intros [Hall _] Hr. rewrite Forall_forall in Hall. by apply Hall. Qed.

Lemma addToCart_cart_shape req formData w :
  cart_shape (cartItems w) → cart_shape (cartItems (addToCart req formData w).2).
Proof.
  intros Hshape.
  destruct (addToCart_outcome req formData w)
    as [[msg ->]|(v & p & cart & w0 & Hparse & Hp & Hact & Hge & Hcs)]; [done|].
  rewrite (addToCart_proceeds _ _ _ _ _ _ _ Hparse Hp Hact Hge Hcs).
  pose proof (getCartSession_keeps_cartItems req w) as Hrows.
  rewrite Hcs in Hrows. simpl in Hrows.
  destruct (addToCartSchema_parse_inr _ _ _ _ _ Hparse) as (_ & _ & _ & _ & Hq).
  destruct (find _ (cartItems w)) as [e|] eqn:Hfind.
  - destruct (p_inventory p <? ci_quantity e + ac_quantity v); simpl; [by rewrite Hrows|].
    apply find_Some_elem in Hfind as [He _].
    apply cart_shape_update; [|done].
    pose proof (cart_shape_quantity _ _ Hshape He). lia.
  - simpl. apply cart_shape_snoc; [simpl; lia| |done].
    apply (find_line_None _ _ _ _ _ Hfind). intros r. apply variant_where_accepts.
Qed.

Lemma updateCartItem_cart_shape req itemId quantity w :
  cart_shape (cartItems w) → cart_shape (cartItems (updateCartItem req itemId quantity w).2).
Proof.
  intros Hshape.
  destruct (updateCartItem_outcome req itemId quantity w) as [->|[->|(q & Hq & ->)]].
  - done.
  - by apply cart_shape_filter.
  - by apply cart_shape_update.
Qed.

Lemma cartItem_deleteMany_cart_shape cond :
  hoare (λ w, cart_shape (cartItems w)) (cartItem_deleteMany cond)
    (λ _ w, cart_shape (cartItems w)) (λ w, cart_shape (cartItems w)).
Proof. intros w Hw. simpl. by apply cart_shape_filter. Qed.

Lemma keeps_cart_shape {A} (m : Act A) :
  keeps cartItems m →
  hoare (λ w, cart_shape (cartItems w)) m
    (λ _ w, cart_shape (cartItems w)) (λ w, cart_shape (cartItems w)).
Proof. apply (hoare_keeps cartItems cart_shape). Qed.

Lemma revalidateTag_keeps_cartItems tag : keeps cartItems (revalidateTag tag).
Proof. by intros w. Qed.

Lemma removeFromCart_cart_shape req productId variantId w :
  cart_shape (cartItems w) →
  cart_shape (cartItems (removeFromCart req productId variantId w).2).
Proof.
  apply (hoare_server_action (λ w, cart_shape (cartItems w))).
  eapply hoare_bind.
  { apply keeps_cart_shape. unfold removeFromCartSchema_parse. keeps_tac. }
  intros validatedData. eapply hoare_bind.
  { apply keeps_cart_shape, getCartSession_keeps_cartItems. }
  intros cart. eapply hoare_bind; [apply cartItem_deleteMany_cart_shape|].
  intros ?. eapply hoare_bind.
  { apply keeps_cart_shape, revalidateTag_keeps_cartItems. }
  intros ?. by intros w' Hw'.
Qed.

Lemma clearCart_cart_shape req w :
  cart_shape (cartItems w) → cart_shape (cartItems (clearCart req w).2).
Proof.
  apply (hoare_server_action (λ w, cart_shape (cartItems w))).
  eapply hoare_bind.
  { apply keeps_cart_shape, getCartSession_keeps_cartItems. }
  intros cart. eapply hoare_bind; [apply cartItem_deleteMany_cart_shape|].
  intros ?. eapply hoare_bind.
  { apply keeps_cart_shape, revalidateTag_keeps_cartItems. }
  intros ?. by intros w' Hw'.
Qed.

(** One turn of the merge loop: the guest line is added to the user's line
    for the same (product, variant), or becomes a new line when there is
    none. *)
Lemma merge_step_cart_shape userCartId item :
  1 ≤ ci_quantity item →
  hoare (λ w, cart_shape (cartItems w))
    (existingItem ← gets (λ w,
       find (line_matches userCartId (ci_productId item)
               (VariantEquals (ci_variantId item))) (cartItems w));
     match existingItem with
     | Some existingItem =>
         cartItem_update (ci_id existingItem) (ci_quantity existingItem + ci_quantity item)
     | None =>
         cartItem_create userCartId (ci_productId item) (ci_quantity item)
           (ci_variantId item)
     end)
    (λ _ w, cart_shape (cartItems w)) (λ w, cart_shape (cartItems w)).
Proof.
  intros Hq w Hshape. unfold mbind, Act_bind, gets.
  destruct (find _ (cartItems w)) as [e|] eqn:Hfind.
  - apply find_Some_elem in Hfind as [He _].
    rewrite (cartItem_update_found _ _ _ e He eq_refl). simpl.
    apply cart_shape_update; [|done].
    pose proof (cart_shape_quantity _ _ Hshape He). lia.
  - simpl. apply cart_shape_snoc; [done| |done].
    apply (find_line_None _ _ _ _ _ Hfind). intros r. apply variant_equals_accepts.
Qed.

Lemma cart_delete_cart_shape id :
  hoare (λ w, cart_shape (cartItems w)) (cart_delete id)
    (λ _ w, cart_shape (cartItems w)) (λ w, cart_shape (cartItems w)).
Proof.
  intros w Hw. unfold cart_delete.
  destruct (existsb _ (carts w)); simpl; [by apply cart_shape_filter|done].
Qed.

Lemma mergeGuestCart_cart_shape req guestSessionId w :
  cart_shape (cartItems w) →
  cart_shape (cartItems (mergeGuestCart req guestSessionId w).2).
Proof.
  intros Hshape. unfold mergeGuestCart.
  destruct (getCurrentUser req) as [user|]; [|done].
  revert Hshape. apply (hoare_server_action (λ w, cart_shape (cartItems w))).
  clear w.
  eapply (hoare_bind _ _
            (λ g w, cart_shape (cartItems w)
                    ∧ ∀ gc, g = Some gc → Forall (λ r, 1 ≤ ci_quantity r) (gc_items gc))).
  { intros w Hshape. simpl. split; [done|].
    intros gc Hgc. destruct (find _ (carts w)); simpl in Hgc; [|done].
    injection Hgc as <-. simpl.
    rewrite Forall_forall. intros r [_ Hr]%list_elem_of_filter.
    by eapply cart_shape_quantity. }
  intros [gc|]; [|by intros w [Hw _]].
  apply hoare_assume. intros Hitems. specialize (Hitems gc eq_refl).
  destruct (bool_decide (gc_items gc = [])); [by intros w Hw|].
  eapply hoare_bind.
  { apply keeps_cart_shape, upsert_cart_keeps_cartItems. }
  intros userCart. eapply hoare_bind.
  { apply hoare_for_each. intros item Hitem. apply merge_step_cart_shape.
    rewrite Forall_forall in Hitems. by apply Hitems. }
  intros ?. eapply hoare_bind; [apply cart_delete_cart_shape|].
  intros ?. eapply hoare_bind.
  { apply keeps_cart_shape, revalidateTag_keeps_cartItems. }
  intros ?. by intros w' Hw'.
Qed.

(** C8: every cart mutation keeps the cart-shape invariants: along any
    sequence of cart mutations, every stored line has a quantity of at least
    1 and no cart holds two lines for one (product, variant) pair.
    [addToCart] merges: when the caller's cart has a line for the product
    (and variant) and the stock covers the sum, the call succeeds and the
    table is what it was with the quantity of that one line raised by the
    quantity asked for; without such a line the call appends one line of the
    quantity asked for.  [updateCartItem] with quantity 0 on a line of the
    caller's cart succeeds and deletes that line, and nothing else. *)
Theorem cart_mutations_keep_cart_shape :
  (∀ (trace : list (Request * CartMutation)) w,
     cart_shape (cartItems w) →
     cart_shape (cartItems (run_mutations trace w)))
  ∧ (∀ req formData w v p cart e,
       (addToCartSchema_parse (fd_productId formData) (fd_quantity formData)
          (Js.str_or_undefined (fd_variantId formData)) w).1 = inr v →
       products w !! ac_productId v = Some p →
       p_isActive p = true →
       (getCartSession req w).1 = inr cart →
       find (line_matches (cart_id cart) (ac_productId v) (variant_where (ac_variantId v)))
            (cartItems w) = Some e →
       0 ≤ ci_quantity e →
       ci_quantity e + ac_quantity v ≤ p_inventory p →
       (addToCart req formData w).1 = Success tt
       ∧ cartItems (addToCart req formData w).2
         = (λ r, if bool_decide (ci_id r = ci_id e)
                 then set_quantity (ci_quantity e + ac_quantity v) r else r)
           <$> cartItems w
       ∧ length (cartItems (addToCart req formData w).2) = length (cartItems w))
  ∧ (∀ req formData w v p cart,
       (addToCartSchema_parse (fd_productId formData) (fd_quantity formData)
          (Js.str_or_undefined (fd_variantId formData)) w).1 = inr v →
       products w !! ac_productId v = Some p →
       p_isActive p = true →
       (getCartSession req w).1 = inr cart →
       find (line_matches (cart_id cart) (ac_productId v) (variant_where (ac_variantId v)))
            (cartItems w) = None →
       ac_quantity v ≤ p_inventory p →
       (addToCart req formData w).1 = Success tt
       ∧ ∃ r, cartItems (addToCart req formData w).2 = cartItems w ++ [r]
              ∧ ci_cartId r = cart_id cart
              ∧ ci_productId r = ac_productId v
              ∧ ci_variantId r = ac_variantId v
              ∧ ci_quantity r = ac_quantity v)
  ∧ (∀ req itemId w cart row,
       (getCartSession req w).1 = inr cart →
       find (λ r, bool_decide (ci_id r = itemId) && bool_decide (ci_cartId r = cart_id cart))
            (cartItems w) = Some row →
       is_Some (products w !! ci_productId row) →
       (updateCartItem req itemId (Some 0) w).1 = Success tt
       ∧ cartItems (updateCartItem req itemId (Some 0) w).2
         = filter (λ r, ci_id r ≠ itemId) (cartItems w)
       ∧ ∀ r, r ∈ cartItems (updateCartItem req itemId (Some 0) w).2 → ci_id r ≠ itemId).
Proof.
  split; [|split; [|split]].
  - induction trace as [|[req m] trace IH]; intros w Hshape; simpl; [done|].
    apply IH. destruct m; simpl.
    + by apply addToCart_cart_shape.
    + by apply updateCartItem_cart_shape.
    + by apply removeFromCart_cart_shape.
    + by apply clearCart_cart_shape.
    + by apply mergeGuestCart_cart_shape.
  - intros req formData w v p cart e Hparse Hp Hact Hcart Hfind Hq0 Hsum.
    destruct (getCartSession req w) as [r w0] eqn:Hcs. cbn in Hcart. subst r.
    destruct (addToCartSchema_parse_inr _ _ _ _ _ Hparse) as (_ & _ & _ & _ & Hq).
    rewrite (addToCart_proceeds _ _ _ _ _ _ _ Hparse Hp Hact ltac:(lia) Hcs), Hfind.
    rewrite (proj2 (Z.ltb_ge _ _)) by lia. cbn.
    split; [done|]. split; [done|].
    unfold rows_with_quantity. by rewrite length_fmap.
  - intros req formData w v p cart Hparse Hp Hact Hcart Hfind Hstock.
    destruct (getCartSession req w) as [r w0] eqn:Hcs. cbn in Hcart. subst r.
    rewrite (addToCart_proceeds _ _ _ _ _ _ _ Hparse Hp Hact Hstock Hcs), Hfind. cbn.
    split; [done|]. by eexists.
  - intros req itemId w cart row Hcart Hfind [p Hp].
    destruct (getCartSession req w) as [r w0] eqn:Hcs. cbn in Hcart. subst r.
    rewrite (updateCartItem_proceeds req itemId (Some 0) w 0 _ _ _ _ eq_refl Hcs Hfind Hp).
    cbn. split; [done|]. split; [done|].
    by intros r [Hr _]%list_elem_of_filter.
Qed.

Lemma cart_mutations_keep_cart_shape_witness :
  cart_shape (cartItems two_carts_world)
  ∧ cart_shape (cartItems
      (run_mutations
         [ (request_of (Some shopper) 1, AddToCart (add_form "A" 1));
           (request_of (Some shopper) 2, MergeGuestCart "g1");
           (request_of (Some shopper) 3, UpdateCartItem "i1" (Some 0)) ]
         two_carts_world))
  ∧ ci_quantity <$> cartItems (addToCart (request_of (Some shopper) 1) (add_form "A" 1)
                                 two_carts_world).2 = [2; 2]
  ∧ ci_id <$> cartItems (updateCartItem (request_of (Some shopper) 1) "i1" (Some 0)
                           two_carts_world).2 = ["i2"].
Proof.
  assert (cart_shape (cartItems two_carts_world)) as H.
  { apply (bool_decide_unpack (cart_shape (cartItems two_carts_world))).
    vm_compute. exact I. }
  destruct cart_mutations_keep_cart_shape as (Hshape & Hmerge & _ & Hdelete).
  split; [exact H|]. split; [exact (Hshape _ _ H)|]. split.
  - destruct (Hmerge (request_of (Some shopper) 1) (add_form "A" 1) two_carts_world
                {| ac_productId := "A"; ac_quantity := 1; ac_variantId := None |}
                (demo_product "A" 2 true)
                {| cart_id := "c1"; cart_userId := Some "u1"; cart_sessionId := None |}
                {| ci_id := "i1"; ci_cartId := "c1"; ci_productId := "A";
                   ci_variantId := None; ci_quantity := 1 |})
      as (_ & Hrows & _); [reflexivity..| cbn; lia | cbn; lia |].
    rewrite Hrows. reflexivity.
  - destruct (Hdelete (request_of (Some shopper) 1) "i1" two_carts_world
                {| cart_id := "c1"; cart_userId := Some "u1"; cart_sessionId := None |}
                {| ci_id := "i1"; ci_cartId := "c1"; ci_productId := "A";
                   ci_variantId := None; ci_quantity := 1 |})
      as (_ & Hrows & _); [reflexivity | reflexivity | by eexists |].
    rewrite Hrows. reflexivity.
Defined.

(** ** Merging a guest cart *)

Lemma line_quantity_app key rows1 rows2 :
  line_quantity key (rows1 ++ rows2) = line_quantity key rows1 + line_quantity key rows2.
Proof. induction rows1 as [|r rows1 IH]; simpl; [done|]. rewrite IH. lia. Qed.

Lemma rows_with_quantity_absent id q rows :
  id ∉ ci_id <$> rows → rows_with_quantity id q rows = rows.
Proof.
  unfold rows_with_quantity. induction rows as [|r rows IH]; simpl; [done|].
  intros Hid. apply not_elem_of_cons in Hid as [Hne Hid].
  rewrite bool_decide_eq_false_2 by done. f_equal. by apply IH.
Qed.

Lemma rows_with_quantity_ids id q rows :
  ci_id <$> rows_with_quantity id q rows = ci_id <$> rows.
Proof.
  unfold rows_with_quantity. rewrite <- list_fmap_compose.
  apply list_fmap_ext. intros i r _. simpl. by case_bool_decide.
Qed.

(** With ids unique, updating the line [e] moves the quantity held for the
    key of [e] by the difference, and no other. *)
Lemma line_quantity_update key q rows e :
  NoDup (ci_id <$> rows) →
  e ∈ rows →
  line_quantity key (rows_with_quantity (ci_id e) q rows)
  = line_quantity key rows
    + (if bool_decide (line_key e = key) then q - ci_quantity e else 0).
Proof.
  induction rows as [|r rows IH]; intros Hnd He; [by apply elem_of_nil in He|].
  rewrite fmap_cons in Hnd. apply NoDup_cons in Hnd as [Hr Hnd].
  apply elem_of_cons in He as [->|He].
  - unfold rows_with_quantity. rewrite fmap_cons. fold (rows_with_quantity (ci_id r) q rows).
    rewrite rows_with_quantity_absent by done.
    rewrite bool_decide_eq_true_2 by done. simpl.
    rewrite line_key_set_quantity. case_bool_decide; lia.
  - assert (ci_id r ≠ ci_id e) as Hne.
    { intros Heq. apply Hr. rewrite Heq. by apply list_elem_of_fmap_2. }
    unfold rows_with_quantity. rewrite fmap_cons. fold (rows_with_quantity (ci_id e) q rows).
    rewrite bool_decide_eq_false_2 by done. simpl.
    rewrite IH by done. lia.
Qed.

Lemma line_quantity_moved cartId guestId productId variantId rows :
  line_quantity (cartId, productId, variantId)
    (moved_to cartId <$> filter (λ r, ci_cartId r = guestId) rows)
  = line_quantity (guestId, productId, variantId) rows.
Proof.
  induction rows as [|r rows IH]; [done|].
  rewrite filter_cons. simpl. case_decide as Hg.
  - rewrite fmap_cons. simpl. rewrite IH. unfold line_key. simpl.
    repeat case_bool_decide; simplify_eq; try lia; congruence.
  - rewrite IH. rewrite bool_decide_eq_false_2; [lia|].
    unfold line_key. congruence.
Qed.

Lemma line_quantity_without_cart key guestId rows :
  key.1.1 ≠ guestId →
  line_quantity key (filter (λ r, ci_cartId r ≠ guestId) rows) = line_quantity key rows.
Proof.
  intros Hne. induction rows as [|r rows IH]; [done|].
  rewrite filter_cons. simpl. case_decide as Hg; simpl; [by rewrite IH|].
  rewrite IH. rewrite bool_decide_eq_false_2; [lia|].
  intros <-. by apply Hne.
Qed.

(** The merge loop runs to the end, keeps the ids unique, and adds to the
    user's cart, key by key, the quantities of the guest lines; nothing is
    read from or compared with the products' inventory. *)
Lemma merge_loop userCartId items :
  ∀ w,
  NoDup (ci_id <$> cartItems w) →
  ∃ rows,
    for_each items (λ item,
      existingItem ← gets (λ w,
        find (line_matches userCartId (ci_productId item)
                (VariantEquals (ci_variantId item))) (cartItems w));
      match existingItem with
      | Some existingItem =>
          cartItem_update (ci_id existingItem) (ci_quantity existingItem + ci_quantity item)
      | None =>
          cartItem_create userCartId (ci_productId item) (ci_quantity item)
            (ci_variantId item)
      end) w
    = (inr tt, with_cartItems (λ _, rows) w)
    ∧ NoDup (ci_id <$> rows)
    ∧ ∀ key,
        line_quantity key rows
        = line_quantity key (cartItems w) + line_quantity key (moved_to userCartId <$> items).
Proof.
  induction items as [|item items IH]; intros w Hnd.
  - exists (cartItems w). split; [by destruct w|]. split; [done|].
    intros key. simpl. lia.
  - cbn [for_each].
    destruct (find (line_matches userCartId (ci_productId item)
                      (VariantEquals (ci_variantId item))) (cartItems w))
      as [e|] eqn:Hfind.
    + pose proof (find_Some_elem _ _ _ Hfind) as [He Hm].
      apply line_matches_true in Hm as (Hc & Hp & Hv). simpl in Hv.
      apply bool_decide_eq_true in Hv.
      set (rows1 := rows_with_quantity (ci_id e) (ci_quantity e + ci_quantity item)
                      (cartItems w)).
      destruct (IH (with_cartItems (λ _, rows1) w)) as (rows & Hrun & Hnd' & Hq).
      { simpl. subst rows1. by rewrite rows_with_quantity_ids. }
      exists rows. split; [|split; [done|]].
      * erewrite bind_inr; [by rewrite Hrun|].
        unfold mbind, Act_bind, gets. rewrite Hfind.
        by rewrite (cartItem_update_found _ _ _ e He eq_refl).
      * intros key. rewrite Hq. cbn [cartItems with_cartItems]. subst rows1.
        rewrite line_quantity_update by done.
        assert (line_key e = line_key (moved_to userCartId item)) as ->.
        { unfold line_key. simpl. congruence. }
        rewrite fmap_cons. cbn [line_quantity moved_to ci_quantity].
        case_bool_decide; lia.
    + set (rows1 := cartItems w ++
                    [new_row (cartItems w) userCartId (ci_productId item)
                       (ci_quantity item) (ci_variantId item)]).
      destruct (IH (with_cartItems (λ _, rows1) w)) as (rows & Hrun & Hnd' & Hq).
      { cbn [cartItems with_cartItems]. subst rows1. rewrite fmap_app.
        unfold new_row. rewrite list_fmap_singleton. cbn [ci_id].
        apply NoDup_app. split; [done|]. split; [|apply NoDup_singleton].
        intros id Hid Hfresh. apply list_elem_of_singleton in Hfresh. subst id.
        exact (infinite_is_fresh _ Hid). }
      exists rows. split; [|split; [done|]].
      * erewrite bind_inr; [by rewrite Hrun|].
        unfold mbind, Act_bind, gets. rewrite Hfind. apply cartItem_create_run.
      * intros key. rewrite Hq. cbn [cartItems with_cartItems]. subst rows1.
        rewrite line_quantity_app, fmap_cons. cbn [line_quantity moved_to ci_quantity].
        unfold line_key. simpl. case_bool_decide; lia.
Qed.

Lemma NoDup_fmap_eq {A B} (f : A → B) (l : list A) x y :
  NoDup (f <$> l) → x ∈ l → y ∈ l → f x = f y → x = y.
Proof.
  induction l as [|a l IH]; intros Hnd Hx Hy Hf; [by apply elem_of_nil in Hx|].
  rewrite fmap_cons in Hnd. apply NoDup_cons in Hnd as [Ha Hnd].
  apply elem_of_cons in Hx as [->|Hx]; apply elem_of_cons in Hy as [->|Hy].
  - done.
  - exfalso. apply Ha. rewrite Hf. by apply list_elem_of_fmap_2.
  - exfalso. apply Ha. rewrite <- Hf. by apply list_elem_of_fmap_2.
  - by apply IH.
Qed.

(** The upsert of the user's cart: the cart found or created belongs to the
    user, is not the guest cart, and no line or product is touched. *)
Lemma upsert_user_cart (user : User) guest w :
  NoDup (cart_id <$> carts w) →
  guest ∈ carts w →
  cart_userId guest ≠ Some (u_id user) →
  ∃ userCart w1,
    upsert_cart (λ c, bool_decide (cart_userId c = Some (u_id user)))
      (λ id, {| cart_id := id; cart_userId := Some (u_id user); cart_sessionId := None |}) w
    = (inr userCart, w1)
    ∧ cart_userId userCart = Some (u_id user)
    ∧ cart_id userCart ≠ cart_id guest
    ∧ userCart ∈ carts w1
    ∧ guest ∈ carts w1
    ∧ cartItems w1 = cartItems w
    ∧ products w1 = products w.
Proof.
  intros Hnd Hguest Hother. unfold upsert_cart. act_unfold.
  destruct (find _ (carts w)) as [c|] eqn:Hfind.
  - apply find_Some_elem in Hfind as [Hc Hu%bool_decide_eq_true].
    exists c, w. repeat split; try done.
    intros Heq. apply Hother. by rewrite <- (NoDup_fmap_eq cart_id _ _ _ Hnd Hc Hguest Heq).
  - eexists _, _. split; [reflexivity|]. simpl. repeat split.
    + intros Heq. apply (infinite_is_fresh (cart_id <$> carts w)).
      rewrite Heq. by apply list_elem_of_fmap_2.
    + apply elem_of_app. right. by left.
    + apply elem_of_app. by left.
Qed.

(** The claim of C4 fails: with 2 units of A in stock, merging the guest
    cart {A: 2} into the user's cart {A: 1} leaves a line of 3 units of A;
    the answer carries no cart. *)
Lemma mergeGuestCart_not_clamped :
  let run := mergeGuestCart (request_of (Some shopper) 0) "g1" two_carts_world in
  inventory two_carts_world "A" = Some 2
  ∧ line_quantity ("c1", "A", None) (cartItems two_carts_world) = 1
  ∧ line_quantity ("c2", "A", None) (cartItems two_carts_world) = 2
  ∧ run.1 = Success tt
  ∧ cartItems run.2
    = [ {| ci_id := "i1"; ci_cartId := "c1"; ci_productId := "A";
           ci_variantId := None; ci_quantity := 3 |} ]
  ∧ line_quantity ("c1", "A", None) (cartItems run.2) ≠ 2.
Proof. by vm_compute. Qed.

(** C4 (amended): [mergeGuestCart] adds, for every (product, variant), the
    guest cart's quantity to the user's cart's quantity, without looking at
    the stock; it deletes the guest cart and its lines and answers success
    with no cart in the answer. *)
Theorem mergeGuestCart_sums req guestSessionId w user guest :
  req_user req = Some user →
  find (λ c, bool_decide (cart_sessionId c = Some guestSessionId)) (carts w) = Some guest →
  filter (λ r, ci_cartId r = cart_id guest) (cartItems w) ≠ [] →
  NoDup (ci_id <$> cartItems w) →
  NoDup (cart_id <$> carts w) →
  cart_userId guest ≠ Some (u_id user) →
  ∃ userCart w',
    mergeGuestCart req guestSessionId w = (Success tt, w')
    ∧ cart_userId userCart = Some (u_id user)
    ∧ userCart ∈ carts w'
    ∧ (∀ productId variantId,
         line_quantity (cart_id userCart, productId, variantId) (cartItems w')
         = line_quantity (cart_id userCart, productId, variantId) (cartItems w)
           + line_quantity (cart_id guest, productId, variantId) (cartItems w))
    ∧ (∀ r, r ∈ cartItems w' → ci_cartId r ≠ cart_id guest)
    ∧ (∀ c, c ∈ carts w' → cart_id c ≠ cart_id guest)
    ∧ products w' = products w.
Proof.
  intros Hu Hfind Hitems Hnd Hndc Hother.
  pose proof (find_Some_elem _ _ _ Hfind) as [Hguest _].
  destruct (upsert_user_cart user guest w Hndc Hguest Hother)
    as (userCart & w1 & Hup & Hmine & Hne & Huc & Hg1 & Hrows1 & Hprod1).
  destruct (merge_loop (cart_id userCart)
              (filter (λ r, ci_cartId r = cart_id guest) (cartItems w)) w1)
    as (rows & Hloop & _ & Hq); [by rewrite Hrows1|].
  set (w2 := with_cartItems (λ _, rows) w1) in *.
  assert (cart_delete (cart_id guest) w2
          = (inr tt, with_cartItems (filter (λ r, ci_cartId r ≠ cart_id guest))
                       (with_carts (filter (λ c, cart_id c ≠ cart_id guest)) w2)))
    as Hdel.
  { unfold cart_delete.
    assert (existsb (λ c, bool_decide (cart_id c = cart_id guest)) (carts w2) = true)
      as ->; [|done].
    apply existsb_exists. exists guest. split; [by apply list_elem_of_In|].
    by apply bool_decide_eq_true. }
  exists userCart. eexists. split; [|split; [done|split; [|split; [|split; [|split]]]]].
  - unfold mergeGuestCart, server_action, getCurrentUser. rewrite Hu.
    unfold mbind at 1, Act_bind at 1, gets at 1. rewrite Hfind. simpl.
    rewrite bool_decide_eq_false_2 by done.
    rewrite (bind_inr _ _ _ _ _ Hup).
    rewrite (bind_inr _ _ _ _ _ Hloop).
    rewrite (bind_inr _ _ _ _ _ Hdel).
    reflexivity.
  - simpl. apply list_elem_of_filter. split; [|done]. done.
  - intros pid vid. simpl.
    rewrite line_quantity_without_cart by done.
    rewrite Hq, Hrows1. by rewrite line_quantity_moved.
  - intros r. simpl. by intros [Hr _]%list_elem_of_filter.
  - intros c. simpl. by intros [Hc _]%list_elem_of_filter.
  - simpl. done.
Qed.

Lemma mergeGuestCart_sums_witness :
  ∃ userCart w',
    mergeGuestCart (request_of (Some shopper) 0) "g1" two_carts_world = (Success tt, w')
    ∧ cart_id userCart = "c1"
    ∧ inventory two_carts_world "A" = Some 2
    ∧ line_quantity ("c1", "A", None) (cartItems w') = 3.
Proof.
  destruct (mergeGuestCart_sums (request_of (Some shopper) 0) "g1" two_carts_world shopper
              {| cart_id := "c2"; cart_userId := None; cart_sessionId := Some "g1" |}
              eq_refl eq_refl)
    as (userCart & w' & Hrun & _ & _ & _ & _ & _ & _).
  - by vm_compute.
  - apply (bool_decide_unpack (NoDup (ci_id <$> cartItems two_carts_world))).
    vm_compute. exact I.
  - apply (bool_decide_unpack (NoDup (cart_id <$> carts two_carts_world))).
    vm_compute. exact I.
  - done.
  - exists {| cart_id := "c1"; cart_userId := Some "u1"; cart_sessionId := None |}, w'.
    split; [exact Hrun|]. split; [done|]. split; [done|].
    vm_compute in Hrun. injection Hrun as <-. reflexivity.
Defined.

(** ** Shipping cost and tax *)

Lemma shippingRates_cases method :
  shippingRates method
  = if bool_decide (method = "standard") then Some 5.99%float
    else if bool_decide (method = "express") then Some 12.99%float
    else if bool_decide (method = "overnight") then Some 24.99%float
    else if bool_decide (method = "free") then Some 0%float
    else None.
Proof.
  unfold shippingRates.
  repeat (case_bool_decide as H;
          [rewrite H; reflexivity
          |apply String.eqb_neq in H; rewrite H; clear H]).
  done.
Qed.

Lemma taxRates_cases st :
  taxRates st
  = if bool_decide (st = "CA") then Some 0.08%float
    else if bool_decide (st = "NY") then Some 0.08%float
    else if bool_decide (st = "TX") then Some 0.065%float
    else if bool_decide (st = "FL") then Some 0.06%float
    else None.
Proof.
  unfold taxRates.
  repeat (case_bool_decide as H;
          [rewrite H; reflexivity
          |apply String.eqb_neq in H; rewrite H; clear H]).
  done.
Qed.

(** The shipping cost, case by case: nothing from 75 up; below that the
    rate of 'express' and 'overnight', the inherited member for a method
    named like one, and 5.99 for every other name ('free' has the rate 0,
    which is falsy). *)
Lemma calculateShippingCost_cases method address orderValue :
  calculateShippingCost method address orderValue
  = if Js.ge orderValue 75 then Js.Number 0
    else if bool_decide (method ∈ Object_prototype_keys) then Js.Member method
    else Js.Number (if bool_decide (method = "express") then 12.99%float
                    else if bool_decide (method = "overnight") then 24.99%float
                    else 5.99%float).
Proof.
  unfold calculateShippingCost. destruct (Js.ge orderValue 75); [done|].
  unfold Js.lookup. case_bool_decide as Hkey.
  - assert (shippingRates method = None) as ->; [|done].
    unfold Object_prototype_keys in Hkey. rewrite !elem_of_cons, elem_of_nil in Hkey.
    repeat (destruct Hkey as [->|Hkey]; [reflexivity|]). done.
  - rewrite shippingRates_cases.
    repeat (case_bool_decide; [simplify_eq; reflexivity|]). done.
Qed.

(** The tax, case by case; for a state named like a member of
    [Object.prototype] the rate is that member, and the product [NaN]. *)
Lemma calculateTax_cases subtotal st :
  calculateTax subtotal st
  = (subtotal
     * (if bool_decide (st = "CA") then 0.08
        else if bool_decide (st = "NY") then 0.08
        else if bool_decide (st = "TX") then 0.065
        else if bool_decide (st = "FL") then 0.06
        else if bool_decide (st ∈ Object_prototype_keys) then nan
        else 0))%float.
Proof.
  unfold calculateTax, Js.lookup. rewrite taxRates_cases.
  repeat (case_bool_decide; [reflexivity|]). reflexivity.
Qed.

(** ** Checkout *)

Lemma keeps_ledger_products {A} (m : Act A) : keeps ledger m → keeps products m.
Proof. intros H w. by destruct (ledger_eq _ _ (H w)) as (-> & _). Qed.

Lemma check_inventory_keeps {X} (π : World → X) items : keeps π (check_inventory items).
Proof. induction items as [|item rest IH]; simpl; keeps_tac. Qed.

Lemma checkoutSchema_parse_keeps {X} (π : World → X) formData :
  keeps π (checkoutSchema_parse formData).
Proof. unfold checkoutSchema_parse. keeps_tac. Qed.

Lemma float_field_keeps {X} (π : World → X) v : keeps π (float_field v).
Proof. destruct v; unfold float_field; keeps_tac. Qed.
#[global] Hint Resolve float_field_keeps : keeps.

Lemma order_create_keeps_products mk : keeps products (order_create mk).
Proof. by intros w. Qed.

Lemma order_update_keeps_products id f : keeps products (order_update id f).
Proof. intros w. unfold order_update. by destruct (orders w !! id). Qed.

Lemma createCheckoutSession_keeps_products req orderId :
  keeps products (createCheckoutSession req orderId).
Proof. intros w. unfold createCheckoutSession. by destruct (req_stripeUp req). Qed.

(** [createCheckout] never writes a product: whatever it answers, every
    inventory count is what it was. *)
Lemma createCheckout_keeps_products req formData w :
  products (createCheckout req formData w).2 = products w.
Proof.
  unfold createCheckout. apply keeps_server_action.
  apply keeps_bind; [apply checkoutSchema_parse_keeps|]. intros v.
  apply keeps_bind; [apply keeps_ledger_products, getCart_keeps_ledger|]. intros cart.
  destruct (bool_decide (cv_items cart = [])); [apply keeps_ret|].
  apply keeps_bind; [apply check_inventory_keeps|]. intros [msg|]; [apply keeps_ret|].
  apply keeps_bind; [apply float_field_keeps|]. intros shippingCost.
  apply keeps_bind; [apply float_field_keeps|]. intros total.
  apply keeps_bind; [apply order_create_keeps_products|]. intros order.
  apply keeps_bind; [apply createCheckoutSession_keeps_products|]. intros session.
  apply keeps_bind; [apply order_update_keeps_products|]. intros _.
  apply keeps_bind; [by intros w'|]. intros _. apply keeps_ret.
Qed.

(** The check loop reads the products only and always returns. *)
Lemma check_inventory_returns items w :
  ∃ r, check_inventory items w = (inr r, w).
Proof.
  induction items as [|item rest IH]; simpl; [by eexists|].
  act_unfold. destruct (products w !! ck_productId item) as [p|]; [|by eexists].
  destruct (p_isActive p); simpl; [|by eexists].
  destruct (p_inventory p <? ck_quantity item); [by eexists|done].
Qed.

Lemma check_inventory_same_products items w1 w :
  products w1 = products w →
  (check_inventory items w1).1 = (check_inventory items w).1.
Proof.
  intros Hp. induction items as [|item rest IH]; simpl; [done|].
  act_unfold. rewrite Hp. destruct (products w !! ck_productId item) as [p|]; [|done].
  destruct (p_isActive p); simpl; [|done].
  by destruct (p_inventory p <? ck_quantity item).
Qed.

Lemma check_inventory_passed items w :
  (check_inventory items w).1 = inr None → Forall (line_available w) items.
Proof.
  induction items as [|item rest IH]; simpl; [by constructor|].
  act_unfold. destruct (products w !! ck_productId item) as [p|] eqn:Hp; [|done].
  destruct (p_isActive p) eqn:Hact; simpl; [|done].
  destruct (p_inventory p <? ck_quantity item) eqn:Hcmp; [done|].
  intros H. constructor; [|by apply IH].
  exists p. apply Z.ltb_ge in Hcmp. done.
Qed.

Lemma check_inventory_available items w w1 :
  products w1 = products w →
  Forall (line_available w) items →
  check_inventory items w1 = (inr None, w1).
Proof.
  intros Hprod Hall. induction Hall as [|item rest (p & Hp & Hact & Hstock) _ IH]; [done|].
  cbn [check_inventory]. act_unfold. rewrite Hprod, Hp, Hact. cbn.
  by rewrite (proj2 (Z.ltb_ge _ _)) by lia.
Qed.


Lemma getCart_returns req w :
  ∃ cart w1, getCart req w = (inr cart, w1) ∧ ledger w1 = ledger w
             ∧ cv_total cart = cart_total (cv_items cart).
Proof.
  pose proof (getCart_keeps_ledger req w) as Hled.
  unfold getCart, try_catch in *.
  destruct ((getCartSession req ≫= _) w) as [[e|cart] w1] eqn:Hrun.
  - eexists _, _. split; [reflexivity|]. split; [done|]. done.
  - exists cart, w1. split; [done|]. split; [done|].
    revert Hrun. act_unfold.
    destruct (getCartSession req w) as [[e|c] w0]; [done|].
    destruct (for_all _ include_product w0) as [[e|items] w0']; [done|].
    by intros [= <- _].
Qed.

Lemma checkoutSchema_parse_inr formData w v :
  (checkoutSchema_parse formData w).1 = inr v →
  checkoutSchema_parse formData w = (inr v, w)
  ∧ cd_items v = cf_items formData
  ∧ cd_shippingAddress v = cf_shippingAddress formData
  ∧ Some (cd_shippingMethod v) = cf_shippingMethod formData.
Proof.
  unfold checkoutSchema_parse. destruct (cf_shippingMethod formData) as [method|]; [|done].
  match goal with |- context [if ?c then _ else _] => destruct c end; [|done].
  simpl. by intros [= <-].
Qed.

(** What [createCheckout] leaves in the order table: nothing new together
    with a failure, or exactly one new order, built from the form and the
    caller's cart once every line has passed the check and the shipping cost
    is a number. *)
Lemma createCheckout_cases req formData w :
  (∃ msg, (createCheckout req formData w).1 = Failure msg
          ∧ orders (createCheckout req formData w).2 = orders w)
  ∨ (∃ v cart o shippingCost,
       (checkoutSchema_parse formData w).1 = inr v
       ∧ (getCart req w).1 = inr cart
       ∧ cv_items cart ≠ []
       ∧ (check_inventory (cd_items v) w).1 = inr None
       ∧ orders (createCheckout req formData w).2
         = <[fresh (dom (orders w)) := o]> (orders w)
       ∧ calculateShippingCost (cd_shippingMethod v) (cd_shippingAddress v)
           (cart_total (cv_items cart)) = Js.Number shippingCost
       ∧ (let subtotal := cart_total (cv_items cart) in
          let tax := calculateTax subtotal (state (cd_shippingAddress v)) in
          let o0 := new_order (fresh (dom (orders w))) (getCurrentUser req) v
                      subtotal shippingCost tax (subtotal + shippingCost + tax)%float
                      (req_now req) in
          o = o0 ∨ ∃ sid, o = set_stripeSessionId sid o0)
       ∧ (∀ ok, (createCheckout req formData w).1 = Success ok →
            ∃ session,
              stripeSessions (createCheckout req formData w).2 !! ok.1 = Some session
              ∧ ss_orderId session = Some (fresh (dom (orders w))))).
Proof.
  destruct ((checkoutSchema_parse formData w).1) as [e|v] eqn:Hv.
  { left. pose proof (checkoutSchema_parse_keeps (λ w, w) formData w) as Hw.
    assert (checkoutSchema_parse formData w = (inl e, w)) as Hparse.
    { destruct (checkoutSchema_parse formData w). simpl in *. congruence. }
    unfold createCheckout, server_action. rewrite (bind_inl _ _ _ _ _ Hparse). eauto. }
  destruct (checkoutSchema_parse_inr _ _ _ Hv) as (Hparse' & _).
  destruct (getCart_returns req w) as (cart & w1 & Hcart & Hled & Htotal).
  apply ledger_eq in Hled as (Hprod & Hord & _).
  unfold createCheckout, server_action.
  rewrite (bind_inr _ _ _ _ _ Hparse'). cbn zeta.
  rewrite (bind_inr _ _ _ _ _ Hcart).
  case_bool_decide as Hempty.
  { left. eexists. split; [reflexivity|]. done. }
  destruct (check_inventory_returns (cd_items v) w1) as [r Hcheck].
  rewrite (bind_inr _ _ _ _ _ Hcheck).
  destruct r as [msg|].
  { left. eexists. split; [reflexivity|]. done. }
  rewrite Htotal.
  set (subtotal := cart_total (cv_items cart)).
  destruct (calculateShippingCost (cd_shippingMethod v) (cd_shippingAddress v) subtotal)
    as [shippingCost| |name|] eqn:Hship;
    [|left; eexists; split; [reflexivity|done]..].
  right. cbn [Js.plus Js.to_number float_field].
  rewrite (bind_inr (mret shippingCost) _ w1 shippingCost w1 eq_refl).
  rewrite (bind_inr (mret _) _ w1 _ w1 eq_refl).
  set (tax := calculateTax subtotal (state (cd_shippingAddress v))).
  set (o0 := new_order (fresh (dom (orders w))) (getCurrentUser req) v
               subtotal shippingCost tax (subtotal + shippingCost + tax)%float (req_now req)).
  assert ((check_inventory (cd_items v) w).1 = inr None) as Hpassed.
  { rewrite <- (check_inventory_same_products _ w1 w Hprod). by rewrite Hcheck. }
  unfold order_create at 1. unfold mbind at 1, Act_bind at 1. rewrite Hord. fold o0.
  set (w2 := with_orders (insert (fresh (dom (orders w))) o0) w1).
  unfold createCheckoutSession. unfold mbind at 1, Act_bind at 1.
  destruct (req_stripeUp req).
  - set (sid := fresh (dom (stripeSessions w2))).
    exists v, cart, (set_stripeSessionId sid o0), shippingCost.
    do 4 (split; [by rewrite ?Hcart|]).
    unfold order_update. act_unfold. simpl. rewrite Hord.
    rewrite lookup_insert_eq. simpl. rewrite Hord.
    split; [by rewrite insert_insert_eq|].
    split; [done|].
    split; [right; by exists sid|].
    rewrite lookup_insert_eq. simpl.
    intros ok [= <-]. eexists. split; [apply lookup_insert_eq|done].
  - exists v, cart, o0, shippingCost. do 4 (split; [by rewrite ?Hcart|]).
    split; [simpl; by rewrite Hord|]. split; [done|]. split; [by left|]. done.
Qed.

(** The run of [createCheckout] for a valid form, a cart with lines, lines
    that all pass the check and a shipping cost that is a number. *)
Lemma createCheckout_run req formData w v cart w1 shippingCost :
  (checkoutSchema_parse formData w).1 = inr v →
  getCart req w = (inr cart, w1) →
  cv_items cart ≠ [] →
  Forall (line_available w) (cf_items formData) →
  let subtotal := cv_total cart in
  calculateShippingCost (cd_shippingMethod v) (cd_shippingAddress v) subtotal
  = Js.Number shippingCost →
  let tax := calculateTax subtotal (state (cd_shippingAddress v)) in
  let id := fresh (dom (orders w)) in
  let o0 := new_order id (getCurrentUser req) v subtotal shippingCost tax
              (subtotal + shippingCost + tax)%float (req_now req) in
  let sid := fresh (dom (stripeSessions w)) in
  let session := {| ss_id := sid; ss_url := "https://checkout.stripe.com/c/pay/" +:+ sid;
                    ss_orderId := Some id; ss_paymentIntent := None |} in
  createCheckout req formData w
  = if req_stripeUp req then
      (Success (sid, ss_url session),
       with_effect (Revalidate "orders")
         (with_orders (insert id (set_stripeSessionId sid o0))
            (with_stripeSessions (insert sid session) w1)))
    else
      (Failure "Failed to create checkout session", with_orders (insert id o0) w1).
Proof.
  intros Hparse Hcart Hitems Havail subtotal Hship tax id o0 sid session.
  destruct (checkoutSchema_parse_inr _ _ _ Hparse) as (Hparse' & Hv & _).
  destruct (getCart_returns req w) as (cart' & w1' & Hcart' & Hled & _).
  rewrite Hcart in Hcart'. injection Hcart' as <- <-.
  apply ledger_eq in Hled as (Hprod & Hord & Hsess).
  unfold createCheckout, server_action.
  rewrite (bind_inr _ _ _ _ _ Hparse'). cbn zeta.
  rewrite (bind_inr _ _ _ _ _ Hcart).
  rewrite bool_decide_eq_false_2 by done.
  rewrite (bind_inr _ _ _ _ _
             (check_inventory_available (cd_items v) w w1 Hprod ltac:(by rewrite Hv))).
  fold subtotal. rewrite Hship. cbn [Js.plus Js.to_number float_field].
  rewrite (bind_inr (mret shippingCost) _ w1 shippingCost w1 eq_refl).
  rewrite (bind_inr (mret _) _ w1 _ w1 eq_refl).
  fold tax.
  unfold order_create at 1. unfold mbind at 1, Act_bind at 1. rewrite Hord.
  fold id o0. cbn [o_id new_order].
  unfold createCheckoutSession. unfold mbind at 1, Act_bind at 1.
  destruct (req_stripeUp req); [|done].
  cbn [stripeSessions with_orders]. rewrite Hsess. fold sid session.
  unfold order_update, revalidateTag. act_unfold.
  cbn [orders with_stripeSessions with_orders ss_id session].
  change (o_id o0) with id. fold session.
  rewrite lookup_insert_eq.
  unfold with_effect, with_orders, with_stripeSessions. cbn.
  by rewrite insert_insert_eq.
Qed.




(** ** No reservation between the check and the payment *)

(** The claim of C2 fails, already without any overlap of the calls: with 5
    units of P, the checkouts of u1 and of u2 for 3 units each both pass the
    check, and once both payments are confirmed 6 units have been taken and
    the inventory of P stands at -1. *)
Lemma two_checkouts_oversell :
  let formData := checkout_form [checkout_line "P" 3] in
  let req1 := request_of (Some shopper) 1 in
  let req2 := request_of (Some shopper2) 2 in
  let run1 := createCheckout req1 formData contention_world in
  let run2 := createCheckout req2 formData run1.2 in
  let paid1 := processSuccessfulPayment req1 (session_of run1.1) run2.2 in
  let paid2 := processSuccessfulPayment req2 (session_of run2.1) paid1.2 in
  inventory contention_world "P" = Some 5
  ∧ (∃ ok, run1.1 = Success ok)
  ∧ (∃ ok, run2.1 = Success ok)
  ∧ session_of run1.1 ≠ session_of run2.1
  ∧ (∃ o, paid1.1 = Success o ∧ units_of "P" (o_items o) = 3)
  ∧ (∃ o, paid2.1 = Success o ∧ units_of "P" (o_items o) = 3)
  ∧ inventory paid2.2 "P" = Some (-1).
Proof.
  split; [reflexivity|].
  split; [eexists; vm_compute; reflexivity|].
  split; [eexists; vm_compute; reflexivity|].
  split; [by vm_compute|].
  split; [eexists; split; vm_compute; reflexivity|].
  split; [eexists; split; vm_compute; reflexivity|].
  vm_compute. reflexivity.
Qed.

(** The lines of one checkout that passed the check, on distinct products,
    ask for no more of any product than it had when checked. *)
Lemma units_of_checked w items productId i :
  NoDup (ck_productId <$> items) →
  Forall (line_available w) items →
  inventory w productId = Some i →
  0 ≤ i →
  units_of productId (order_line <$> items) ≤ i.
Proof.
  intros Hnd Hall Hinv Hi. unfold units_of.
  induction Hall as [|item items (p & Hp & _ & Hq) Hall IH]; [done|].
  rewrite fmap_cons in Hnd. apply NoDup_cons in Hnd as [Hfresh Hnd].
  rewrite fmap_cons. cbn [stock_delta order_line oi_productId oi_quantity].
  case_bool_decide as Hpid.
  - assert (stock_delta oi_quantity productId (order_line <$> items) = 0) as ->.
    { clear -Hfresh Hpid. rewrite Hpid in Hfresh.
      induction items as [|x items IH]; [done|].
      rewrite fmap_cons in Hfresh. apply not_elem_of_cons in Hfresh as [Hne Hfresh].
      rewrite fmap_cons. cbn [stock_delta order_line oi_productId oi_quantity].
      rewrite bool_decide_eq_false_2 by done. by rewrite IH. }
    unfold inventory in Hinv. rewrite <- Hpid, Hp in Hinv. simpl in Hinv.
    injection Hinv as <-. lia.
  - specialize (IH Hnd). lia.
Qed.

(** C2 (amended): a checkout passes the check exactly when each of its
    lines asks for at most the inventory its active product has at that
    moment: a call that succeeds has only such lines, and a call with only
    such lines succeeds (the form being valid, the caller's cart not empty,
    the shipping method and the state not named like members of
    [Object.prototype] and the payment processor answering).  Passing takes nothing: [createCheckout] leaves
    every inventory count as it was.  Units are taken only when a payment is
    confirmed, and then the order's quantities are subtracted whatever the
    count is, with no floor.  So a checkout on distinct products whose
    payment is confirmed before anything else touches the stock leaves no
    count below zero; nothing bounds what several checkouts that each passed
    the check take together. *)
Theorem checkout_checks_without_reserving :
  (∀ req formData w ok,
     (createCheckout req formData w).1 = Success ok →
     Forall (line_available w) (cf_items formData))
  ∧ (∀ req formData w v cart,
       (checkoutSchema_parse formData w).1 = inr v →
       (getCart req w).1 = inr cart →
       cv_items cart ≠ [] →
       cd_shippingMethod v ∉ Object_prototype_keys →
       state (cd_shippingAddress v) ∉ Object_prototype_keys →
       req_stripeUp req = true →
       Forall (line_available w) (cf_items formData) →
       ∃ ok, (createCheckout req formData w).1 = Success ok)
  ∧ (∀ req formData w productId,
       inventory (createCheckout req formData w).2 productId = inventory w productId)
  ∧ (∀ req sessionId w session o,
       stripeSessions w !! sessionId = Some session →
       ss_orderId session = Some (o_id o) →
       orders w !! o_id o = Some o →
       (∀ item, item ∈ o_items o → is_Some (products w !! oi_productId item)) →
       ∃ w',
         processSuccessfulPayment req sessionId w = (Success o, w')
         ∧ ∀ productId,
             inventory w' productId
             = (λ i, i - units_of productId (o_items o)) <$> inventory w productId)
  ∧ (∀ req req' formData w ok w',
       createCheckout req formData w = (Success ok, w') →
       NoDup (ck_productId <$> cf_items formData) →
       ∃ o w'',
         processSuccessfulPayment req' ok.1 w' = (Success o, w'')
         ∧ o_items o = order_line <$> cf_items formData
         ∧ ∀ productId i,
             inventory w productId = Some i →
             0 ≤ i →
             inventory w'' productId = Some (i - units_of productId (o_items o))
             ∧ 0 ≤ i - units_of productId (o_items o)).
Proof.
  assert (∀ req formData w ok,
            (createCheckout req formData w).1 = Success ok →
            Forall (line_available w) (cf_items formData)) as Hcheck.
  { intros req formData w ok Hrun.
    destruct (createCheckout_cases req formData w)
      as [(msg & Hfail & _)|(v & cart & o & c & Hv & _ & _ & Hpass & _)].
    { rewrite Hrun in Hfail. done. }
    destruct (checkoutSchema_parse_inr _ _ _ Hv) as (_ & <- & _).
    by apply check_inventory_passed. }
  split; [exact Hcheck|]. split; [|split; [|split]].
  - intros req formData w v cart Hv Hcart Hne Hmethod _ Hup Havail.
    destruct (getCart req w) as [r w1] eqn:Hcart'. cbn in Hcart. subst r.
    destruct (getCart_returns req w) as (cart' & w1' & Hcart'' & _ & Htotal).
    rewrite Hcart' in Hcart''. injection Hcart'' as <- <-.
    pose proof (calculateShippingCost_cases (cd_shippingMethod v) (cd_shippingAddress v)
                  (cv_total cart)) as Hship.
    rewrite (bool_decide_eq_false_2 _ Hmethod) in Hship.
    destruct (Js.ge (cv_total cart) 75);
      rewrite (createCheckout_run req formData w v cart w1 _ Hv Hcart' Hne Havail Hship), Hup;
      by eexists.
  - intros req formData w pid. unfold inventory.
    by rewrite createCheckout_keeps_products.
  - intros req sessionId w session o Hs Hmeta Ho Hex.
    destruct (processSuccessfulPayment_run req sessionId w session o Hs Hmeta Ho Hex)
      as (w' & Hrun & _ & _ & Hinv & _).
    by exists w'.
  - intros req req' formData w ok w' Hrun Hnd.
    assert (Hall : Forall (line_available w) (cf_items formData)).
    { apply (Hcheck req formData w ok). by rewrite Hrun. }
    pose proof (createCheckout_keeps_products req formData w) as Hprod.
    rewrite Hrun in Hprod. cbn in Hprod.
    destruct (createCheckout_cases req formData w)
      as [(msg & Hfail & _)|(v & cart & o & c & Hv & _ & _ & _ & Hord & _ & Ho & Hsess)].
    { rewrite Hrun in Hfail. done. }
    rewrite Hrun in Hord, Hsess. simpl in Hord, Hsess.
    destruct (Hsess ok eq_refl) as (session & Hsession & Hmeta).
    destruct (checkoutSchema_parse_inr _ _ _ Hv) as (_ & Hitems & _).
    assert (o_id o = fresh (dom (orders w))
            ∧ o_items o = order_line <$> cf_items formData) as [Hid Hlines].
    { cbn zeta in Ho. destruct Ho as [->|[sid ->]]; simpl; by rewrite Hitems. }
    destruct (processSuccessfulPayment_run req' ok.1 w' session o) as
      (w'' & Hpaid & _ & _ & Hinv & _).
    + done.
    + by rewrite Hid.
    + rewrite Hid, Hord. apply lookup_insert_eq.
    + intros item. rewrite Hlines, Hprod.
      intros (x & -> & Hx)%list_elem_of_fmap.
      rewrite Forall_forall in Hall. destruct (Hall x Hx) as (p & Hp & _).
      simpl. by rewrite Hp.
    + exists o, w''. split; [done|]. split; [done|].
      intros pid i Hi Hpos.
      assert (inventory w' pid = Some i) as Hi'.
      { unfold inventory. by rewrite Hprod. }
      rewrite Hinv, Hi'. simpl. split; [done|].
      pose proof (units_of_checked w (cf_items formData) pid i Hnd Hall Hi Hpos).
      rewrite Hlines. lia.
Qed.

Lemma checkout_checks_without_reserving_witness :
  let req := request_of (Some shopper) 1 in
  let formData := checkout_form [checkout_line "P" 5] in
  inventory contention_world "P" = Some 5
  ∧ (∃ ok, (createCheckout req formData contention_world).1 = Success ok)
  ∧ inventory (createCheckout req formData contention_world).2 "P" = Some 5.
Proof.
  intros req formData.
  destruct checkout_checks_without_reserving as (_ & Hpass & Hinv & _).
  split; [reflexivity|]. split; [|by rewrite Hinv].
  apply (Hpass req formData contention_world
           {| cd_items := [checkout_line "P" 5]; cd_shippingAddress := demo_address;
              cd_billingAddress := Some demo_address; cd_customerInfo := demo_customer;
              cd_shippingMethod := "standard"; cd_notes := None |}
           (cart_shown req contention_world)).
  - reflexivity.
  - reflexivity.
  - by vm_compute.
  - apply (bool_decide_unpack _). by vm_compute.
  - apply (bool_decide_unpack _). by vm_compute.
  - reflexivity.
  - apply Forall_singleton. exists (demo_product "P" 5 true).
    split; [reflexivity|]. split; [reflexivity|]. simpl. lia.
Defined.

(** ** Order totals *)

(** The subtotal adds unit price times quantity, line after line. *)
Lemma cart_total_snoc items line :
  cart_total (items ++ [line])
  = (cart_total items + p_price line.2 * Js.of_int (ci_quantity line.1))%float.
Proof. unfold cart_total. by rewrite fold_left_app. Qed.

Lemma for_all_include_product rows w :
  ∀ items w1,
  for_all rows include_product w = (inr items, w1) →
  items.*1 = rows ∧ Forall (joined_line w) items.
Proof.
  induction rows as [|r rows IH]; intros items w1; cbn [for_all].
  - intros [= <- _]. by split.
  - destruct (products w !! ci_productId r) as [p|] eqn:Hp.
    + assert (include_product r w = (inr (r, p), w)) as Hinc.
      { unfold include_product. act_unfold. by rewrite Hp. }
      rewrite (bind_inr _ _ _ _ _ Hinc).
      destruct (for_all rows include_product w) as [[e|rest] w2] eqn:Hrest.
      * by rewrite (bind_inl _ _ _ _ _ Hrest).
      * rewrite (bind_inr _ _ _ _ _ Hrest). intros [= <- _].
        destruct (IH _ _ eq_refl) as [Hfst Hall].
        split; [rewrite fmap_cons; by rewrite Hfst|]. by constructor.
    + assert (include_product r w = (inl (JsError "Inconsistent query result"), w)) as Hinc.
      { unfold include_product. act_unfold. by rewrite Hp. }
      by rewrite (bind_inl _ _ _ _ _ Hinc).
Qed.

(** A cart that [getCart] shows with lines shows the lines of the caller's
    cart, each with its product. *)
Lemma getCart_lines req w cart :
  (getCart req w).1 = inr cart →
  cv_items cart ≠ [] →
  ∃ c, (getCartSession req w).1 = inr c
       ∧ (cv_items cart).*1 = filter (λ r, ci_cartId r = cart_id c) (cartItems w)
       ∧ Forall (joined_line w) (cv_items cart).
Proof.
  destruct (getCartSession_returns req w) as (c & w0 & Hcs & Hrows & Hled).
  apply ledger_eq in Hled as (Hprod & _).
  set (rows := filter (λ r, ci_cartId r = cart_id c) (cartItems w)).
  assert (gets (λ w, filter (λ r, ci_cartId r = cart_id c) (cartItems w)) w0
          = (inr rows, w0)) as Hgets.
  { unfold gets. by rewrite Hrows. }
  unfold getCart, try_catch. rewrite (bind_inr _ _ _ _ _ Hcs).
  rewrite (bind_inr _ _ _ _ _ Hgets).
  destruct (for_all rows include_product w0) as [[e|items] w1] eqn:Hall.
  - rewrite (bind_inl _ _ _ _ _ Hall). simpl. by intros [= <-].
  - rewrite (bind_inr _ _ _ _ _ Hall). simpl. intros [= <-] _. simpl.
    exists c. rewrite Hcs. split; [done|].
    destruct (for_all_include_product _ _ _ _ Hall) as [Hfst Hjoin].
    split; [done|]. eapply Forall_impl; [exact Hjoin|].
    intros line. unfold joined_line. by rewrite Hprod.
Qed.

(** C7: an order created by [createCheckout] is stored with
    total = subtotal + shipping + tax (added in that order, in binary64).
    The subtotal is the sum of unit price times quantity over the lines of
    the caller's cart.  The tax is the subtotal times the rate of the state
    of the shipping address: 0.08 for CA and NY, 0.065 for TX, 0.06 for FL,
    0 for every other state (for a state named like a member of
    [Object.prototype] the product is [NaN]).  The shipping cost is 0 from a
    subtotal of 75 up; below that it is 12.99 for 'express', 24.99 for
    'overnight' and 5.99 for every other method, and no order is stored for
    a method named like a member of [Object.prototype].  The totals of the
    checkout route add up the same way, with a shipping cost that depends on
    the subtotal only. *)
Theorem createCheckout_order_totals :
  (∀ req formData w id o,
     orders w !! id = None →
     orders (createCheckout req formData w).2 !! id = Some o →
     ∃ cart c,
       (getCart req w).1 = inr cart
       ∧ (getCartSession req w).1 = inr c
       ∧ (cv_items cart).*1 = filter (λ r, ci_cartId r = cart_id c) (cartItems w)
       ∧ Forall (joined_line w) (cv_items cart)
       ∧ o_subtotal o
         = fold_left (λ sum line,
                        (sum + p_price line.2 * Js.of_int (ci_quantity line.1))%float)
             (cv_items cart) 0%float
       ∧ o_tax o
         = (o_subtotal o
            * (let st := state (o_shippingAddress o) in
               if bool_decide (st = "CA" ∨ st = "NY") then 0.08
               else if bool_decide (st = "TX") then 0.065
               else if bool_decide (st = "FL") then 0.06
               else if bool_decide (st ∈ Object_prototype_keys) then nan
               else 0))%float
       ∧ o_shippingCost o
         = (if Js.ge (o_subtotal o) 75 then 0%float
            else if bool_decide (o_shippingMethod o = "express") then 12.99%float
            else if bool_decide (o_shippingMethod o = "overnight") then 24.99%float
            else 5.99%float)
       ∧ (Js.ge (o_subtotal o) 75 = false → o_shippingMethod o ∉ Object_prototype_keys)
       ∧ o_total o = (o_subtotal o + o_shippingCost o + o_tax o)%float
       ∧ o_shippingAddress o = cf_shippingAddress formData
       ∧ Some (o_shippingMethod o) = cf_shippingMethod formData
       ∧ o_status o = PENDING)
  ∧ (∀ cartItems,
       let t := POST_totals cartItems in
       t_subtotal t
       = fold_left (λ sum line,
                      (sum + p_price line.2 * Js.of_int (ci_quantity line.1))%float)
           cartItems 0%float
       ∧ t_shippingCost t = (if Js.ge (t_subtotal t) 10000 then 0%float else 1500%float)
       ∧ t_tax t = Js.Math_round (t_subtotal t * 0.08)
       ∧ t_total t = (t_subtotal t + t_shippingCost t + t_tax t)%float).
Proof.
  split; [|done].
  intros req formData w id o Hnew Hstored.
  destruct (createCheckout_cases req formData w)
    as [(msg & _ & Hsame)
       |(v & cart & o' & shippingCost & Hv & Hcart & Hne & _ & Hord & Hship & Ho' & _)].
  { rewrite Hsame in Hstored. congruence. }
  rewrite Hord, lookup_insert in Hstored. case_decide; [|congruence].
  injection Hstored as <-.
  destruct (checkoutSchema_parse_inr _ _ _ Hv) as (_ & _ & Haddr & Hmethod).
  destruct (getCart_lines req w cart Hcart Hne) as (c & Hc & Hlines & Hjoin).
  exists cart, c.
  do 4 (split; [done|]).
  rewrite calculateShippingCost_cases in Hship.
  assert (Hfields : o_subtotal o' = cart_total (cv_items cart)
                    ∧ o_tax o' = calculateTax (cart_total (cv_items cart))
                                   (state (cd_shippingAddress v))
                    ∧ o_shippingCost o' = shippingCost
                    ∧ o_total o' = (o_subtotal o' + o_shippingCost o' + o_tax o')%float
                    ∧ o_shippingAddress o' = cd_shippingAddress v
                    ∧ o_shippingMethod o' = cd_shippingMethod v
                    ∧ o_status o' = PENDING).
  { cbn zeta in Ho'. by destruct Ho' as [->|[sid ->]]. }
  destruct Hfields as (Hsub & Htax & Hsc & Htotal & Hsa & Hsm & Hst).
  rewrite Hsub, Htax, Hsc, Hsa, Hsm, Hst. rewrite Htotal, Hsub, Htax, Hsc.
  split; [done|]. split.
  { rewrite calculateTax_cases. f_equal. cbn zeta.
    repeat case_bool_decide; try reflexivity; exfalso; tauto. }
  destruct (Js.ge (cart_total (cv_items cart)) 75).
  { injection Hship as <-. by rewrite Haddr. }
  case_bool_decide as Hkey; [done|]. injection Hship as <-.
  by rewrite Haddr.
Qed.

Lemma createCheckout_order_totals_witness :
  let formData := {| cf_items := [checkout_line "P" 3]; cf_shippingAddress := demo_address;
                     cf_billingAddress := Some demo_address;
                     cf_customerInfo := demo_customer; cf_shippingMethod := Some "express";
                     cf_notes := None |} in
  ∃ o,
    orders (createCheckout (request_of (Some shopper) 1) formData contention_world).2 !! "0"
    = Some o
    ∧ o_subtotal o = 30%float
    ∧ o_shippingCost o = 12.99%float
    ∧ o_tax o = (30 * 0.08)%float
    ∧ o_total o = (30 + 12.99 + 30 * 0.08)%float.
Proof.
  intros formData.
  eexists. split; [vm_compute; reflexivity|].
  destruct (proj1 createCheckout_order_totals (request_of (Some shopper) 1)
              formData contention_world "0" _
              eq_refl ltac:(vm_compute; reflexivity))
    as (cart & c & Hcart & _ & _ & _ & Hsub & Htax & Hship & _ & Htotal & _).
  injection Hcart as <-.
  split; [by vm_compute|]. split; [by vm_compute|]. split; by vm_compute.
Defined.

(** * Further properties of the code *)

(** ** Roles and guards (lib/roles.ts) *)

Lemma requireRole_run req role w :
  requireRole req role w =
    match req_user req with
    | None => (inl (Redirect "/auth/signin"), w)
    | Some user =>
        if hasRole req role then (inr user, w) else (inl (Redirect "/unauthorized"), w)
    end.
Proof.
  unfold requireRole, requireAuth, getCurrentUser.
  destruct (req_user req) as [user|] eqn:Hu; act_unfold; [|done].
  by destruct (hasRole req role).
Qed.

Lemma requirePermission_run req perm w :
  requirePermission req perm w =
    match req_user req with
    | None => (inl (Redirect "/auth/signin"), w)
    | Some user =>
        if hasPermission req perm then (inr user, w)
        else (inl (Redirect "/unauthorized"), w)
    end.
Proof.
  unfold requirePermission, requireAuth, getCurrentUser.
  destruct (req_user req) as [user|] eqn:Hu; act_unfold; [|done].
  by destruct (hasPermission req perm).
Qed.

Lemma requirePermission_denied req perm w :
  hasPermission req perm = false →
  ∃ e, requirePermission req perm w = (inl e, w).
Proof.
  intros H. rewrite requirePermission_run, H. destruct (req_user req); eauto.
Qed.

(** X1: the role guard of the admin actions and the permission checks of the
    admin area single out the same callers: [requireAdmin] lets a caller
    through, and [canAccessAdmin], [canManageProducts] and
    [canViewAllOrders] answer true, exactly for a signed-in user whose role
    is ADMIN or SUPER_ADMIN. *)
Theorem admin_guards_agree req w :
  let admin := ∃ user, req_user req = Some user ∧ u_role user ≠ USER in
  ((∃ user, requireAdmin req w = (inr user, w)) ↔ admin)
  ∧ (canAccessAdmin req = true ↔ admin)
  ∧ (canManageProducts req = true ↔ admin)
  ∧ (canViewAllOrders req = true ↔ admin).
Proof.
  intros admin.
  set (b := match req_user req with
            | Some user => negb (bool_decide (u_role user = USER))
            | None => false
            end).
  assert (Hadmin : admin ↔ b = true).
  { subst admin b. destruct (req_user req) as [user|].
    - rewrite negb_true_iff, bool_decide_eq_false. split.
      + by intros (u & [= <-] & Hrole).
      + intros Hrole. by exists user.
    - split; [by intros (u & Hu & _) | done]. }
  assert (Hguard : requireAdmin req w
                   = match req_user req with
                     | Some user =>
                         if b then (inr user, w) else (inl (Redirect "/unauthorized"), w)
                     | None => (inl (Redirect "/auth/signin"), w)
                     end).
  { unfold requireAdmin. rewrite requireRole_run. subst b.
    unfold hasRole, getCurrentUser.
    destruct (req_user req) as [[id role]|]; [|done]. by destruct role. }
  assert (Hperm : canAccessAdmin req = b ∧ canManageProducts req = b
                  ∧ canViewAllOrders req = b).
  { subst b. unfold canAccessAdmin, canManageProducts, canViewAllOrders,
      hasAnyPermission, hasPermission, getCurrentUser.
    destruct (req_user req) as [[id role]|]; [|done]. by destruct role. }
  destruct Hperm as (-> & -> & ->). rewrite Hguard, Hadmin.
  split_and!; try done.
  destruct (req_user req) as [user|]; [destruct b|]; split;
    try done; try (by intros [u Hu]); intros _; by exists user.
Qed.

(** X2: for a visitor who is not signed in, every permission and role check
    answers false and the guards redirect to the sign-in page without
    touching the data; [hasAllPermissions] alone answers true, and only on
    the empty list of permissions. *)
Theorem anonymous_caller_checks req w :
  req_user req = None →
  (∀ permission, hasPermission req permission = false)
  ∧ (∀ role, hasRole req role = false)
  ∧ (∀ permissions, hasAnyPermission req permissions = false)
  ∧ (∀ permissions, hasAllPermissions req permissions = true ↔ permissions = [])
  ∧ (∀ permission,
       requirePermission req permission w = (inl (Redirect "/auth/signin"), w))
  ∧ (∀ role, requireRole req role w = (inl (Redirect "/auth/signin"), w)).
Proof.
  intros Hanon.
  assert (Hperm : ∀ permission, hasPermission req permission = false).
  { intros permission. unfold hasPermission, getCurrentUser. by rewrite Hanon. }
  split_and!; [done | | | | |].
  - intros role. unfold hasRole, getCurrentUser. by rewrite Hanon.
  - intros permissions. unfold hasAnyPermission.
    induction permissions as [|p ps IH]; [done|].
    rewrite fmap_cons. cbn [existsb]. by rewrite Hperm, IH.
  - intros permissions. unfold hasAllPermissions.
    destruct permissions as [|p ps]; [done|].
    rewrite fmap_cons. cbn [forallb]. by rewrite Hperm.
  - intros permission. by rewrite requirePermission_run, Hanon.
  - intros role. by rewrite requireRole_run, Hanon.
Qed.

Lemma anonymous_caller_checks_witness :
  hasAllPermissions (request_of None 0) [] = true
  ∧ hasAllPermissions (request_of None 0) [PRODUCT_READ] ≠ true
  ∧ requirePermission (request_of None 0) PRODUCT_READ empty_world
    = (inl (Redirect "/auth/signin"), empty_world).
Proof.
  destruct (anonymous_caller_checks (request_of None 0) empty_world eq_refl)
    as (_ & _ & _ & Hall & Hreq & _).
  split; [by apply Hall|]. split; [|apply Hreq].
  intros H. by apply Hall in H.
Defined.

(** X3: a SUPER_ADMIN passes every check of lib/roles.ts: every permission
    (the role's list is all of [PERMISSIONS]), every role check, whatever the
    role asked for, and every guard, which returns the signed-in user and
    leaves the data as it is. *)
Theorem super_admin_passes_every_check req user w :
  req_user req = Some user →
  u_role user = SUPER_ADMIN →
  (∀ permission, hasPermission req permission = true)
  ∧ (∀ role, hasRole req role = true)
  ∧ (∀ permissions, hasAllPermissions req permissions = true)
  ∧ (∀ permission, requirePermission req permission w = (inr user, w))
  ∧ (∀ role, requireRole req role w = (inr user, w)).
Proof.
  intros Huser Hrole.
  assert (Hperm : ∀ permission, hasPermission req permission = true).
  { intros permission. unfold hasPermission, getCurrentUser. rewrite Huser, Hrole.
    by destruct permission. }
  assert (Hhas : ∀ role, hasRole req role = true).
  { intros role. unfold hasRole, getCurrentUser. rewrite Huser, Hrole.
    by rewrite orb_true_r. }
  split_and!; [done | done | | |].
  - intros permissions. unfold hasAllPermissions.
    induction permissions as [|p ps IH]; [done|].
    rewrite fmap_cons. cbn [forallb]. by rewrite Hperm, IH.
  - intros permission. by rewrite requirePermission_run, Huser, Hperm.
  - intros role. by rewrite requireRole_run, Huser, Hhas.
Qed.

Lemma super_admin_passes_every_check_witness :
  let root := {| u_id := "root"; u_role := SUPER_ADMIN |} in
  hasPermission (request_of (Some root) 0) SETTINGS_UPDATE = true
  ∧ hasRole (request_of (Some root) 0) USER = true.
Proof.
  intros root.
  destruct (super_admin_passes_every_check (request_of (Some root) 0) root empty_world
              eq_refl eq_refl) as (Hperm & Hrole & _).
  split; [apply Hperm | apply Hrole].
Defined.

(** ** Admin actions: who may call them, and what they do to a missing row *)

Lemma hasPermission_user req perm :
  (∀ user, req_user req = Some user → u_role user = USER) →
  perm ∈ [PRODUCT_CREATE; PRODUCT_UPDATE; PRODUCT_DELETE; ORDER_UPDATE; ORDER_DELETE;
          ORDER_READ_ALL; ADMIN_ACCESS; ANALYTICS_READ] →
  hasPermission req perm = false.
Proof.
  intros Huser Hperm. unfold hasPermission, getCurrentUser.
  destruct (req_user req) as [user|] eqn:Hu; [|done].
  rewrite (Huser user eq_refl).
  rewrite !elem_of_cons, elem_of_nil in Hperm.
  by destruct Hperm as [->|[->|[->|[->|[->|[->|[->|[->|[]]]]]]]]].
Qed.

Lemma requireAdmin_denied req w :
  (∀ user, req_user req = Some user → u_role user = USER) →
  ∃ e, requireAdmin req w = (inl e, w).
Proof.
  intros Huser. unfold requireAdmin. rewrite requireRole_run.
  unfold hasRole, getCurrentUser.
  destruct (req_user req) as [user|] eqn:Hu; [|by eauto].
  rewrite (Huser user eq_refl). simpl. eauto.
Qed.

Lemma requireAdmin_granted req user w :
  req_user req = Some user → u_role user ≠ USER → requireAdmin req w = (inr user, w).
Proof.
  intros Hu Hrole. unfold requireAdmin. rewrite requireRole_run, Hu.
  unfold hasRole, getCurrentUser. rewrite Hu. by destruct (u_role user).
Qed.

Lemma hasPermission_admin req user perm :
  req_user req = Some user → u_role user ≠ USER →
  perm ∈ [PRODUCT_CREATE; PRODUCT_UPDATE; PRODUCT_DELETE; ORDER_UPDATE;
          ORDER_READ_ALL; ADMIN_ACCESS; ANALYTICS_READ] →
  hasPermission req perm = true.
Proof.
  intros Hu Hrole Hperm. unfold hasPermission, getCurrentUser. rewrite Hu.
  rewrite !elem_of_cons, elem_of_nil in Hperm.
  destruct (u_role user); [done| |];
    by destruct Hperm as [->|[->|[->|[->|[->|[->|[->|[]]]]]]]].
Qed.

(** X4: the admin actions do nothing for a caller who is not signed in or
    whose role is USER: [updateOrderStatus], [deleteOrder],
    [updateProductInventory] and [toggleProductStatus] answer their generic
    failure (the guard's redirect is caught by the action's own handler) and
    leave the data exactly as it was. *)
Theorem admin_actions_refuse_other_callers cascade req w :
  (∀ user, req_user req = Some user → u_role user = USER) →
  (∀ orderId formData,
     updateOrderStatus req orderId formData w
     = (Failure "Failed to update order status", w))
  ∧ (∀ orderId,
       deleteOrder cascade req orderId w = (Failure "Failed to delete order", w))
  ∧ (∀ productId quantity operation,
       updateProductInventory req productId quantity operation w
       = (Failure "Failed to update product inventory", w))
  ∧ (∀ productId,
       toggleProductStatus req productId w
       = (Failure "Failed to toggle product status", w)).
Proof.
  intros Huser. split_and!.
  - intros orderId formData.
    destruct (requirePermission_denied req ORDER_UPDATE w) as [e He].
    { apply hasPermission_user; [done|]. rewrite !elem_of_cons. tauto. }
    unfold updateOrderStatus, server_action. by rewrite (bind_inl _ _ _ _ _ He).
  - intros orderId.
    destruct (requireAdmin_denied req w Huser) as [e He].
    unfold deleteOrder, server_action. by rewrite (bind_inl _ _ _ _ _ He).
  - intros productId quantity operation.
    destruct (requirePermission_denied req PRODUCT_UPDATE w) as [e He].
    { apply hasPermission_user; [done|]. rewrite !elem_of_cons. tauto. }
    unfold updateProductInventory, server_action. by rewrite (bind_inl _ _ _ _ _ He).
  - intros productId.
    destruct (requirePermission_denied req PRODUCT_UPDATE w) as [e He].
    { apply hasPermission_user; [done|]. rewrite !elem_of_cons. tauto. }
    unfold toggleProductStatus, server_action. by rewrite (bind_inl _ _ _ _ _ He).
Qed.

Lemma admin_actions_refuse_other_callers_witness :
  updateOrderStatus (request_of (Some shopper) 7) "o1" (status_form "SHIPPED")
    (order_world PROCESSING 3)
  = (Failure "Failed to update order status", order_world PROCESSING 3)
  ∧ deleteOrder true (request_of (Some shopper) 7) "o1" (order_world PROCESSING 3)
    = (Failure "Failed to delete order", order_world PROCESSING 3).
Proof.
  destruct (admin_actions_refuse_other_callers true (request_of (Some shopper) 7)
              (order_world PROCESSING 3))
    as (Hstatus & Hdelete & _).
  { intros user [= <-]. reflexivity. }
  split; [apply Hstatus | apply Hdelete].
Defined.

(** X5: called by an ADMIN or SUPER_ADMIN on a row that does not exist, the
    admin actions change nothing: [deleteOrder] answers 'Order not found',
    [updateProductInventory] and [toggleProductStatus] answer 'Product not
    found', and [updateOrderStatus], which does not look the order up before
    it writes, answers its generic failure. *)
Theorem admin_actions_on_missing_rows cascade req user w :
  req_user req = Some user →
  u_role user ≠ USER →
  (∀ orderId formData,
     orders w !! orderId = None →
     updateOrderStatus req orderId formData w
     = (Failure "Failed to update order status", w))
  ∧ (∀ orderId,
       orders w !! orderId = None →
       deleteOrder cascade req orderId w = (Failure "Order not found", w))
  ∧ (∀ productId quantity operation,
       products w !! productId = None →
       updateProductInventory req productId quantity operation w
       = (Failure "Product not found", w))
  ∧ (∀ productId,
       products w !! productId = None →
       toggleProductStatus req productId w = (Failure "Product not found", w)).
Proof.
  intros Hu Hrole.
  assert (Hperm : ∀ perm,
            perm ∈ [PRODUCT_UPDATE; ORDER_UPDATE] →
            requirePermission req perm w = (inr user, w)).
  { intros perm Hperm. rewrite requirePermission_run, Hu.
    rewrite (hasPermission_admin req user perm Hu Hrole); [done|].
    rewrite !elem_of_cons, elem_of_nil in Hperm. rewrite !elem_of_cons.
    destruct Hperm as [->|[->|[]]]; tauto. }
  split_and!.
  - intros orderId formData Hnone.
    unfold updateOrderStatus, server_action.
    rewrite (bind_inr _ _ _ _ _ (Hperm ORDER_UPDATE ltac:(rewrite !elem_of_cons; tauto))).
    unfold updateOrderStatusSchema_parse.
    destruct (fs_status formData ≫= parse_OrderStatus) as [st|]; [|done].
    act_unfold. unfold order_update. simpl. by rewrite Hnone.
  - intros orderId Hnone.
    unfold deleteOrder, server_action.
    rewrite (bind_inr _ _ _ _ _ (requireAdmin_granted req user w Hu Hrole)).
    act_unfold. by rewrite Hnone.
  - intros productId quantity operation Hnone.
    unfold updateProductInventory, server_action.
    rewrite (bind_inr _ _ _ _ _ (Hperm PRODUCT_UPDATE ltac:(rewrite !elem_of_cons; tauto))).
    act_unfold. by rewrite Hnone.
  - intros productId Hnone.
    unfold toggleProductStatus, server_action.
    rewrite (bind_inr _ _ _ _ _ (Hperm PRODUCT_UPDATE ltac:(rewrite !elem_of_cons; tauto))).
    act_unfold. by rewrite Hnone.
Qed.

Lemma admin_actions_on_missing_rows_witness :
  deleteOrder true (request_of (Some admin_user) 7) "o2" (order_world PROCESSING 3)
  = (Failure "Order not found", order_world PROCESSING 3)
  ∧ toggleProductStatus (request_of (Some admin_user) 7) "Q" (order_world PROCESSING 3)
    = (Failure "Product not found", order_world PROCESSING 3).
Proof.
  destruct (admin_actions_on_missing_rows true (request_of (Some admin_user) 7) admin_user
              (order_world PROCESSING 3) eq_refl ltac:(done))
    as (_ & Hdelete & _ & Htoggle).
  split; [by apply Hdelete | by apply Htoggle].
Defined.

(** ** What the admin actions write and whom they notify *)

(** X6: a status update mails the customer exactly when the new status is
    SHIPPED or DELIVERED, always revalidates the 'orders' tag, and stamps
    [updatedAt]; a tracking number or a note left empty in the form keeps the
    stored value, so the form cannot clear either. *)
Theorem updateOrderStatus_notifies req orderId formData w o target :
  hasPermission req ORDER_UPDATE = true →
  orders w !! orderId = Some o →
  fs_status formData ≫= parse_OrderStatus = Some target →
  ∃ o' w',
    updateOrderStatus req orderId formData w = (Success o', w')
    ∧ o_status o' = target
    ∧ o_updatedAt o' = req_now req
    ∧ o_trackingNumber o'
      = match fs_trackingNumber formData with
        | Some t => if bool_decide (t = "") then o_trackingNumber o else Some t
        | None => o_trackingNumber o
        end
    ∧ o_notes o'
      = match fs_notes formData with
        | Some n => if bool_decide (n = "") then o_notes o else Some n
        | None => o_notes o
        end
    ∧ effects w'
      = effects w
        ++ (if bool_decide (target = SHIPPED ∨ target = DELIVERED)
            then [Mail {| em_to := o_customerEmail o;
                          em_subject := "Order Confirmation - #" +:+ o_id o |}]
            else [])
        ++ [Revalidate "orders"]
    ∧ carts w' = carts w ∧ cartItems w' = cartItems w ∧ products w' = products w.
Proof.
  intros Hperm Ho Htarget.
  destruct (requirePermission_granted req ORDER_UPDATE w Hperm) as (user & _ & Hreq).
  unfold updateOrderStatus, server_action.
  rewrite (bind_inr _ _ _ _ _ Hreq).
  unfold updateOrderStatusSchema_parse. rewrite Htarget.
  set (v := {| us_status := target;
               us_trackingNumber := Js.str_or_undefined (fs_trackingNumber formData);
               us_notes := Js.str_or_undefined (fs_notes formData) |}).
  rewrite (bind_inr (mret v) _ w v w eq_refl).
  rewrite (bind_inr _ _ _ _ _ (order_update_found orderId _ w o Ho)).
  assert (Hfield : ∀ (field : option string) (stored : option string),
            match Js.str_or_undefined field with Some x => Some x | None => stored end
            = match field with
              | Some x => if bool_decide (x = "") then stored else Some x
              | None => stored
              end).
  { intros [[|c s]|] stored; done. }
  assert (Hin : bool_decide (target ∈ [SHIPPED; DELIVERED])
                = bool_decide (target = SHIPPED ∨ target = DELIVERED)).
  { apply bool_decide_ext. rewrite !elem_of_cons, elem_of_nil. tauto. }
  cbn [us_status v]. rewrite Hin.
  unfold sendOrderConfirmation, revalidateTag. act_unfold.
  destruct (bool_decide (target = SHIPPED ∨ target = DELIVERED));
    (eexists _, _; split; [reflexivity|]);
    (split_and!; try done; cbn; try apply Hfield; by rewrite <- ?app_assoc).
Qed.

Lemma updateOrderStatus_notifies_witness :
  ∃ o' w',
    updateOrderStatus (request_of (Some admin_user) 7) "o1"
      {| fs_status := Some "SHIPPED"; fs_trackingNumber := Some "1Z999"; fs_notes := Some "" |}
      (order_world PROCESSING 3) = (Success o', w')
    ∧ o_trackingNumber o' = Some "1Z999"
    ∧ o_notes o' = None
    ∧ effects w'
      = [Mail {| em_to := "shopper@example.com"; em_subject := "Order Confirmation - #o1" |};
         Revalidate "orders"].
Proof.
  destruct (updateOrderStatus_notifies (request_of (Some admin_user) 7) "o1"
              {| fs_status := Some "SHIPPED"; fs_trackingNumber := Some "1Z999";
                 fs_notes := Some "" |}
              (order_world PROCESSING 3)
              (demo_order "o1" (Some "u1") PROCESSING
                 [{| oi_productId := "P"; oi_quantity := 3; oi_price := 10%float |}])
              SHIPPED eq_refl eq_refl eq_refl)
    as (o' & w' & Hrun & _ & _ & Htrack & Hnotes & Heff & _).
  exists o', w'. split; [exact Hrun|]. split; [exact Htrack|]. split; [exact Hnotes|].
  exact Heff.
Defined.

(** X7: a stock adjustment by a whole quantity (stock and quantity not
    negative, their sum below 2^31) mails the low-stock alert to ADMIN_EMAIL
    exactly when the new count is between 1 and 10 and ADMIN_EMAIL is set
    and not empty (a count of 0 sends nothing); besides that it revalidates
    the 'products' and 'inventory' tags, writes the one product, and touches
    no other product, order or cart. *)
Theorem updateProductInventory_low_stock_alert req productId q operation w p :
  hasPermission req PRODUCT_UPDATE = true →
  products w !! productId = Some p →
  0 ≤ p_inventory p →
  0 ≤ q →
  p_inventory p + q < 2 ^ 31 →
  let run := updateProductInventory req productId (Js.of_int q) operation w in
  let n := match operation with
           | ADD => p_inventory p + q
           | SUBTRACT => Z.max 0 (p_inventory p - q)
           | SET => q
           end in
  inventory run.2 productId = Some n
  ∧ effects run.2
    = effects w
      ++ (if bool_decide (1 ≤ n ≤ 10) then
            match req_adminEmail req with
            | Some adminEmail =>
                if bool_decide (adminEmail = "") then []
                else [Mail {| em_to := adminEmail;
                              em_subject := "Low Stock Alert: " +:+ p_name p |}]
            | None => []
            end
          else [])
      ++ [Revalidate "products"; Revalidate "inventory"]
  ∧ (∀ other, other ≠ productId → products run.2 !! other = products w !! other)
  ∧ orders run.2 = orders w ∧ carts run.2 = carts w ∧ cartItems run.2 = cartItems w.
Proof.
  intros Hperm Hp Hi Hq Hsum run n. subst run.
  assert (H53 : 2 ^ 31 < 2 ^ 53) by done.
  rewrite (updateProductInventory_run req productId q operation w p Hperm Hp Hi Hq)
    by lia.
  fold n. cbn [snd effects products orders carts cartItems].
  split_and!; try done.
  - unfold inventory. cbn. by rewrite lookup_insert_eq.
  - do 2 f_equal.
    assert (Hlow : (n <=? 10) && (0 <? n) = bool_decide (1 ≤ n ≤ 10)).
    { case_bool_decide as Hn.
      - apply andb_true_iff. split; [apply Z.leb_le | apply Z.ltb_lt]; lia.
      - apply andb_false_iff.
        destruct (Z.leb_spec n 10); [right; apply Z.ltb_ge; lia | by left]. }
    rewrite Hlow. destruct (bool_decide (1 ≤ n ≤ 10)); [|done].
    by destruct (req_adminEmail req) as [[|c s]|].
  - intros other Hother. by rewrite lookup_insert_ne.
Qed.

Lemma updateProductInventory_low_stock_alert_witness :
  let req := {| req_user := Some admin_user; req_cartSession := None; req_now := 0;
                req_adminEmail := Some "ops@example.com"; req_stripeUp := true |} in
  effects (updateProductInventory req "P" 2 SUBTRACT (order_world PROCESSING 3)).2
  = [Mail {| em_to := "ops@example.com"; em_subject := "Low Stock Alert: Product P" |};
     Revalidate "products"; Revalidate "inventory"]
  ∧ effects (updateProductInventory req "P" 5 SUBTRACT (order_world PROCESSING 3)).2
    = [Revalidate "products"; Revalidate "inventory"].
Proof.
  intros req. split.
  - exact (proj1 (proj2 (updateProductInventory_low_stock_alert req "P" 2 SUBTRACT
                           (order_world PROCESSING 3) (demo_product "P" 5 true)
                           eq_refl eq_refl ltac:(cbn; lia) ltac:(lia) ltac:(by vm_compute)))).
  - exact (proj1 (proj2 (updateProductInventory_low_stock_alert req "P" 5 SUBTRACT
                           (order_world PROCESSING 3) (demo_product "P" 5 true)
                           eq_refl eq_refl ltac:(cbn; lia) ltac:(lia) ltac:(by vm_compute)))).
Defined.

Lemma set_inventory_twice p a b : set_inventory (set_inventory p a) b = set_inventory p b.
Proof. done. Qed.

Lemma set_inventory_same p : set_inventory p (p_inventory p) = p.
Proof. by destruct p. Qed.

(** X8: for a stock and a whole quantity that are not negative and whose sum
    is below 2^31, adding the quantity to a product's stock and then
    subtracting it gives the stock back; subtracting first and adding after
    gives it back only if the quantity did not exceed the stock: the
    subtraction stops at 0, so the round trip ends at the larger of stock
    and quantity. *)
Theorem updateProductInventory_round_trips req productId q w p :
  hasPermission req PRODUCT_UPDATE = true →
  products w !! productId = Some p →
  0 ≤ p_inventory p →
  0 ≤ q →
  p_inventory p + q < 2 ^ 31 →
  let quantity := Js.of_int q in
  let add_sub :=
    (updateProductInventory req productId quantity SUBTRACT
       (updateProductInventory req productId quantity ADD w).2).2 in
  let sub_add :=
    (updateProductInventory req productId quantity ADD
       (updateProductInventory req productId quantity SUBTRACT w).2).2 in
  products add_sub = products w
  ∧ inventory sub_add productId = Some (Z.max (p_inventory p) q)
  ∧ (products sub_add = products w ↔ q ≤ p_inventory p).
Proof.
  intros Hperm Hp Hi Hq Hsum quantity add_sub sub_add. subst quantity add_sub sub_add.
  assert (H53 : 2 ^ 31 < 2 ^ 53) by done.
  assert (Hadd : products (updateProductInventory req productId (Js.of_int q) ADD w).2
                   !! productId
                 = Some (set_inventory p (p_inventory p + q))).
  { rewrite (updateProductInventory_run req productId q ADD w p Hperm Hp Hi Hq) by lia.
    cbn. apply lookup_insert_eq. }
  assert (Hsub : products (updateProductInventory req productId (Js.of_int q) SUBTRACT w).2
                   !! productId
                 = Some (set_inventory p (Z.max 0 (p_inventory p - q)))).
  { rewrite (updateProductInventory_run req productId q SUBTRACT w p Hperm Hp Hi Hq) by lia.
    cbn. apply lookup_insert_eq. }
  rewrite (updateProductInventory_run req productId q SUBTRACT _ _ Hperm Hadd)
    by (cbn; lia).
  rewrite (updateProductInventory_run req productId q ADD _ _ Hperm Hsub) by (cbn; lia).
  rewrite (updateProductInventory_run req productId q ADD w p Hperm Hp Hi Hq) by lia.
  rewrite (updateProductInventory_run req productId q SUBTRACT w p Hperm Hp Hi Hq) by lia.
  cbn [snd products p_inventory set_inventory].
  rewrite !insert_insert_eq, !set_inventory_twice.
  replace (Z.max 0 (p_inventory p + q - q)) with (p_inventory p) by lia.
  replace (Z.max 0 (p_inventory p - q) + q) with (Z.max (p_inventory p) q) by lia.
  rewrite set_inventory_same.
  split_and!.
  - by apply insert_id.
  - unfold inventory. cbn. by rewrite lookup_insert_eq.
  - split.
    + intros Heq.
      assert (<[productId := set_inventory p (Z.max (p_inventory p) q)]> (products w)
              !! productId = Some p) as Hlook by (by rewrite Heq).
      rewrite lookup_insert_eq in Hlook. injection Hlook as Hlook.
      apply (f_equal p_inventory) in Hlook. cbn in Hlook. lia.
    + intros Hle. rewrite Z.max_l by done. rewrite set_inventory_same. by apply insert_id.
Qed.

Lemma updateProductInventory_round_trips_witness :
  let req := request_of (Some admin_user) 0 in
  let w := order_world PROCESSING 3 in
  inventory w "P" = Some 5
  ∧ inventory (updateProductInventory req "P" 8 ADD
                 (updateProductInventory req "P" 8 SUBTRACT w).2).2 "P" = Some 8
  ∧ products (updateProductInventory req "P" 8 SUBTRACT
                (updateProductInventory req "P" 8 ADD w).2).2 = products w.
Proof.
  intros req w.
  destruct (updateProductInventory_round_trips req "P" 8 w (demo_product "P" 5 true)
              eq_refl eq_refl ltac:(simpl; lia) ltac:(lia) ltac:(by vm_compute))
    as (Hback & Hmax & _).
  split; [reflexivity|]. split; [exact Hmax | exact Hback].
Defined.

(** ** Switching a product off and on ([toggleProductStatus]) *)

Lemma toggleProductStatus_run req productId w p :
  hasPermission req PRODUCT_UPDATE = true →
  products w !! productId = Some p →
  toggleProductStatus req productId w
  = (Success (set_isActive p (negb (p_isActive p))),
     {| products := <[productId := set_isActive p (negb (p_isActive p))]> (products w);
        carts := carts w; cartItems := cartItems w; orders := orders w;
        stripeSessions := stripeSessions w;
        effects := effects w ++ [Revalidate "products"; Revalidate "product"] |}).
Proof.
  intros Hperm Hp.
  destruct (requirePermission_granted req PRODUCT_UPDATE w Hperm) as (user & _ & Hreq).
  unfold toggleProductStatus, server_action.
  rewrite (bind_inr _ _ _ _ _ Hreq).
  unfold product_update_isActive, revalidateTag. act_unfold.
  rewrite Hp. simpl. rewrite Hp.
  unfold with_effect, with_products; simpl. by rewrite <- app_assoc.
Qed.

Lemma set_isActive_twice p a b : set_isActive (set_isActive p a) b = set_isActive p b.
Proof. done. Qed.

Lemma set_isActive_same p : set_isActive p (p_isActive p) = p.
Proof. by destruct p. Qed.

(** X9: [toggleProductStatus] flips the product's [isActive] flag and leaves
    its stock, price and name alone; toggling a second time gives back the
    product, and with it the whole product table. *)
Theorem toggleProductStatus_twice req productId w p :
  hasPermission req PRODUCT_UPDATE = true →
  products w !! productId = Some p →
  let once := toggleProductStatus req productId w in
  let twice := toggleProductStatus req productId once.2 in
  (∃ p', once.1 = Success p'
         ∧ products once.2 !! productId = Some p'
         ∧ p_isActive p' = negb (p_isActive p)
         ∧ p_inventory p' = p_inventory p ∧ p_price p' = p_price p ∧ p_name p' = p_name p)
  ∧ (∀ other, other ≠ productId → products once.2 !! other = products w !! other)
  ∧ twice.1 = Success p
  ∧ products twice.2 = products w.
Proof.
  intros Hperm Hp once twice. subst twice once.
  assert (Hon : products (toggleProductStatus req productId w).2 !! productId
                = Some (set_isActive p (negb (p_isActive p)))).
  { rewrite (toggleProductStatus_run req productId w p Hperm Hp). cbn.
    apply lookup_insert_eq. }
  rewrite (toggleProductStatus_run req productId _ _ Hperm Hon).
  rewrite (toggleProductStatus_run req productId w p Hperm Hp).
  cbn [fst snd products p_isActive set_isActive].
  rewrite negb_involutive, set_isActive_twice, set_isActive_same, insert_insert_eq.
  split_and!.
  - eexists. split; [done|]. by rewrite lookup_insert_eq.
  - intros other Hother. by rewrite lookup_insert_ne.
  - done.
  - by apply insert_id.
Qed.

Lemma toggleProductStatus_twice_witness :
  let req := request_of (Some admin_user) 0 in
  let once := toggleProductStatus req "P" (order_world PENDING 1) in
  p_isActive <$> products once.2 !! "P" = Some false
  ∧ products (toggleProductStatus req "P" once.2).2 = products (order_world PENDING 1).
Proof.
  intros req once.
  destruct (toggleProductStatus_twice req "P" (order_world PENDING 1)
              (demo_product "P" 5 true) eq_refl eq_refl)
    as ((p' & _ & Hlook & Hflag & _) & _ & _ & Hback).
  split; [|exact Hback].
  subst once. rewrite Hlook. cbn. by rewrite Hflag.
Defined.

Lemma check_inventory_refuses items w productId p :
  productId ∈ ck_productId <$> items →
  products w !! productId = Some p →
  p_isActive p = false →
  ∃ msg, check_inventory items w = (inr (Some msg), w).
Proof.
  intros Hin Hp Hoff. induction items as [|item rest IH]; [by apply elem_of_nil in Hin|].
  rewrite fmap_cons, elem_of_cons in Hin.
  cbn [check_inventory]. act_unfold.
  destruct (products w !! ck_productId item) as [q|] eqn:Hq; [|by eauto].
  destruct (p_isActive q) eqn:Hact; cbn; [|by eauto].
  destruct (p_inventory q <? ck_quantity item); [by eauto|].
  apply IH. destruct Hin as [->|Hin]; [|done].
  rewrite Hq in Hp. injection Hp as ->. congruence.
Qed.

(** X10: once an admin has switched a product off, no call of [addToCart]
    for that product and no [createCheckout] whose form names it succeeds:
    each answers a failure, [addToCart] leaves the data as it was and
    [createCheckout] creates no order.  The lines already in carts stay where
    they are. *)
Theorem deactivated_product_is_refused admin productId w p :
  hasPermission admin PRODUCT_UPDATE = true →
  products w !! productId = Some p →
  p_isActive p = true →
  let off := (toggleProductStatus admin productId w).2 in
  cartItems off = cartItems w
  ∧ (∀ req formData,
       fd_productId formData = Some productId →
       ∃ msg, addToCart req formData off = (Failure msg, off))
  ∧ (∀ req formData,
       productId ∈ ck_productId <$> cf_items formData →
       ∃ msg, (createCheckout req formData off).1 = Failure msg
              ∧ orders (createCheckout req formData off).2 = orders off).
Proof.
  intros Hperm Hp Hact off.
  assert (Hoff : products off !! productId = Some (set_isActive p false)).
  { subst off. rewrite (toggleProductStatus_run admin productId w p Hperm Hp). cbn.
    rewrite Hact. apply lookup_insert_eq. }
  split_and!.
  - subst off. by rewrite (toggleProductStatus_run admin productId w p Hperm Hp).
  - intros req formData Hpid.
    destruct (addToCart_outcome req formData off)
      as [Hfail|(v & q & cart & w0 & Hparse & Hq & Hq_act & _)]; [done|].
    apply addToCartSchema_parse_inr in Hparse as (_ & Hv & _).
    rewrite Hpid in Hv. injection Hv as Hv. rewrite <- Hv, Hoff in Hq.
    injection Hq as <-. done.
  - intros req formData Hin.
    destruct (createCheckout_cases req formData off)
      as [(msg & Hmsg & Hord)|(v & cart & o & c & Hparse & _ & _ & Hcheck & _)]; [by eauto|].
    apply checkoutSchema_parse_inr in Hparse as (_ & Hitems & _).
    rewrite Hitems in Hcheck.
    destruct (check_inventory_refuses (cf_items formData) off productId
                (set_isActive p false) Hin Hoff eq_refl) as [msg Hmsg].
    by rewrite Hmsg in Hcheck.
Qed.

Lemma deactivated_product_is_refused_witness :
  let off := (toggleProductStatus (request_of (Some admin_user) 0) "P" contention_world).2 in
  cartItems off = cartItems contention_world
  ∧ ∃ msg, addToCart (request_of (Some shopper) 1) (add_form "P" 1) off = (Failure msg, off).
Proof.
  intros off.
  destruct (deactivated_product_is_refused (request_of (Some admin_user) 0) "P"
              contention_world (demo_product "P" 5 true) eq_refl eq_refl eq_refl)
    as (Hlines & Hadd & _).
  split; [exact Hlines|]. by apply Hadd.
Defined.

(** ** Deleting an order ([deleteOrder]) *)

Lemma deleteOrder_run cascade req orderId w user o :
  req_user req = Some user →
  u_role user ≠ USER →
  orders w !! orderId = Some o →
  (∀ item, item ∈ o_items o → is_Some (products w !! oi_productId item)) →
  let restock := bool_decide (o_status o ∈ [PROCESSING; SHIPPED; DELIVERED]) in
  ∃ ps,
    (∀ productId,
       p_inventory <$> ps !! productId
       = (λ i, i + (if restock then units_of productId (o_items o) else 0))
           <$> inventory w productId)
    ∧ (∀ productId, is_Some (ps !! productId) ↔ is_Some (products w !! productId))
    ∧ deleteOrder cascade req orderId w
      = if cascade || bool_decide (o_items o = []) then
          (Success tt,
           with_effect (Revalidate "products")
             (with_effect (Revalidate "orders")
                (with_orders (delete orderId) (with_products (λ _, ps) w))))
        else
          (Failure "Failed to delete order", with_products (λ _, ps) w).
Proof.
  intros Hu Hrole Ho Hex restock.
  unfold deleteOrder, server_action.
  rewrite (bind_inr _ _ _ _ _ (requireAdmin_granted req user w Hu Hrole)).
  rewrite (bind_inr (gets (λ w, orders w !! orderId)) _ w (Some o) w)
    by (unfold gets; by rewrite Ho).
  fold restock. destruct restock.
  - destruct (stock_loop (λ item inv, inv + oi_quantity item) oi_quantity (o_items o)
                (λ _ _, eq_refl) w Hex) as (ps & Hloop & Hinv & Hdom).
    exists ps. split; [done|]. split; [done|].
    rewrite (bind_inr _ _ _ _ _ Hloop).
    unfold order_delete, revalidateTag. act_unfold. cbn [orders with_products].
    rewrite Ho. by destruct (cascade || bool_decide (o_items o = [])).
  - exists (products w). split; [|split; [done|]].
    + intros productId. unfold inventory.
      destruct (products w !! productId); cbn; f_equal; lia.
    + assert (with_products (λ _, products w) w = w) as -> by (by destruct w).
      unfold order_delete, revalidateTag. act_unfold.
      rewrite Ho. by destruct (cascade || bool_decide (o_items o = [])).
Qed.

(** X11: [deleteOrder], called by an ADMIN or SUPER_ADMIN (the guard is the
    role, not the ORDER_DELETE permission, which ADMIN does not hold), puts
    the units of an order in status PROCESSING, SHIPPED or DELIVERED back
    into stock before it deletes the order, and leaves the stock alone for
    the other statuses.  The restock is written before the deletion and is
    not undone if the deletion fails. *)
Theorem deleteOrder_restocks cascade req orderId w user o :
  req_user req = Some user →
  u_role user ≠ USER →
  orders w !! orderId = Some o →
  (∀ item, item ∈ o_items o → is_Some (products w !! oi_productId item)) →
  let run := deleteOrder cascade req orderId w in
  (∀ productId,
     inventory run.2 productId
     = (λ i, i + (if bool_decide (o_status o ∈ [PROCESSING; SHIPPED; DELIVERED])
                  then units_of productId (o_items o) else 0))
         <$> inventory w productId)
  ∧ (cascade = true ∨ o_items o = [] →
     run.1 = Success tt ∧ orders run.2 = delete orderId (orders w))
  ∧ (cascade = false → o_items o ≠ [] →
     run.1 = Failure "Failed to delete order" ∧ orders run.2 = orders w).
Proof.
  intros Hu Hrole Ho Hex run. subst run.
  destruct (deleteOrder_run cascade req orderId w user o Hu Hrole Ho Hex)
    as (ps & Hinv & _ & ->).
  split_and!.
  - intros productId. rewrite <- Hinv.
    by destruct (cascade || bool_decide (o_items o = [])).
  - intros Hcase.
    assert (cascade || bool_decide (o_items o = []) = true) as ->; [|done].
    destruct Hcase as [->| ->]; [done|]. by rewrite orb_true_r.
  - intros -> Hitems. by rewrite bool_decide_eq_false_2.
Qed.

Lemma deleteOrder_restocks_witness :
  let run := deleteOrder true (request_of (Some admin_user) 9) "o1" (order_world SHIPPED 3) in
  inventory (order_world SHIPPED 3) "P" = Some 5
  ∧ inventory run.2 "P" = Some 8
  ∧ orders run.2 = ∅.
Proof.
  intros run.
  destruct (deleteOrder_restocks true (request_of (Some admin_user) 9) "o1"
              (order_world SHIPPED 3) admin_user
              (demo_order "o1" (Some "u1") SHIPPED
                 [{| oi_productId := "P"; oi_quantity := 3; oi_price := 10%float |}])
              eq_refl ltac:(done) eq_refl
              ltac:(intros item ->%list_elem_of_singleton; by eexists))
    as (Hinv & Hdel & _).
  split; [reflexivity|]. split.
  - subst run. by rewrite Hinv.
  - destruct Hdel as [_ Hord]; [by left|]. subst run. rewrite Hord. by vm_compute.
Defined.

(** X12: deleting a paid order undoes the stock movement of its payment:
    after [processSuccessfulPayment] for an order and then [deleteOrder] of
    that order, every product has the inventory it had before the payment. *)
Theorem payment_then_deleteOrder_restores_stock cascade req admin user sessionId w session o :
  stripeSessions w !! sessionId = Some session →
  ss_orderId session = Some (o_id o) →
  orders w !! o_id o = Some o →
  (∀ item, item ∈ o_items o → is_Some (products w !! oi_productId item)) →
  req_user admin = Some user →
  u_role user ≠ USER →
  let paid := processSuccessfulPayment req sessionId w in
  let run := deleteOrder cascade admin (o_id o) paid.2 in
  paid.1 = Success o
  ∧ (∀ productId,
       inventory paid.2 productId
       = (λ i, i - units_of productId (o_items o)) <$> inventory w productId)
  ∧ (∀ productId, inventory run.2 productId = inventory w productId).
Proof.
  intros Hs Hmeta Ho Hex Hu Hrole paid run. subst run paid.
  destruct (processSuccessfulPayment_run req sessionId w session o Hs Hmeta Ho Hex)
    as (w1 & -> & Hord & _ & Hinv & Hdom).
  cbn [fst snd]. split; [done|]. split; [done|].
  set (o1 := mark_paid (ss_paymentIntent session) (req_now req) o).
  assert (Ho1 : orders w1 !! o_id o = Some o1) by (rewrite Hord; apply lookup_insert_eq).
  assert (Hex1 : ∀ item, item ∈ o_items o1 → is_Some (products w1 !! oi_productId item)).
  { intros item Hitem. apply Hdom. by apply Hex. }
  destruct (deleteOrder_run cascade admin (o_id o) w1 user o1 Hu Hrole Ho1 Hex1)
    as (ps & Hinv2 & _ & ->).
  intros productId.
  assert (inventory (if cascade || bool_decide (o_items o1 = []) then _ else _).2 productId
          = p_inventory <$> ps !! productId) as ->.
  { by destruct (cascade || bool_decide (o_items o1 = [])). }
  rewrite Hinv2, Hinv.
  rewrite bool_decide_eq_true_2 by (cbn; apply elem_of_cons; by left).
  cbn [o_items o1 mark_paid].
  destruct (inventory w productId); cbn; f_equal. lia.
Qed.

Lemma payment_then_deleteOrder_restores_stock_witness :
  let paid := processSuccessfulPayment (request_of (Some shopper) 9) "cs_1"
                (order_world PENDING 2) in
  let run := deleteOrder true (request_of (Some admin_user) 11) "o1" paid.2 in
  inventory paid.2 "P" = Some 3 ∧ inventory run.2 "P" = Some 5.
Proof.
  intros paid run.
  destruct (payment_then_deleteOrder_restores_stock true (request_of (Some shopper) 9)
              (request_of (Some admin_user) 11) admin_user "cs_1" (order_world PENDING 2)
              {| ss_id := "cs_1"; ss_url := "https://pay"; ss_orderId := Some "o1";
                 ss_paymentIntent := Some "pi_1" |}
              (demo_order "o1" (Some "u1") PENDING
                 [{| oi_productId := "P"; oi_quantity := 2; oi_price := 10%float |}])
              eq_refl eq_refl eq_refl
              ltac:(intros item ->%list_elem_of_singleton; by eexists)
              eq_refl ltac:(done))
    as (_ & Hpaid & Hback).
  split.
  - subst paid. by rewrite Hpaid.
  - subst run paid. by rewrite Hback.
Defined.

(** ** One cart per owner *)

Lemma omap_filter_sublist {A B} (f : A → option B) (P : A → Prop)
  `{∀ x, Decision (P x)} (l : list A) :
  omap f (filter P l) `sublist_of` omap f l.
Proof.
  induction l as [|x l IH]; [done|].
  rewrite filter_cons. destruct (decide (P x)); cbn.
  - destruct (f x); [by apply sublist_skip | done].
  - destruct (f x); [by apply sublist_cons | done].
Qed.

Lemma elem_of_omap_find {A B} `{EqDecision B} (f : A → option B) (l : list A) (b : B) :
  find (λ x, bool_decide (f x = Some b)) l = None → b ∉ omap f l.
Proof.
  intros Hfind Hin. apply list_elem_of_omap in Hin as (x & Hx & Hfx).
  pose proof (find_None_elem _ _ x Hfind Hx) as Hno. by rewrite bool_decide_eq_false in Hno.
Qed.

Lemma NoDup_snoc {A} (l : list A) (x : A) : NoDup l → x ∉ l → NoDup (l ++ [x]).
Proof.
  intros Hl Hx. apply NoDup_app. split; [done|]. split; [|apply NoDup_singleton].
  intros y Hy ->%list_elem_of_singleton. done.
Qed.

Lemma upsert_cart_for_user uid :
  hoare (λ w, one_cart_per_owner (carts w))
    (upsert_cart (λ c, bool_decide (cart_userId c = Some uid))
       (λ id, {| cart_id := id; cart_userId := Some uid; cart_sessionId := None |}))
    (λ _ w, one_cart_per_owner (carts w)) (λ w, one_cart_per_owner (carts w)).
Proof.
  intros w (Hid & Huser & Hsess). unfold upsert_cart. act_unfold.
  destruct (find _ (carts w)) as [c|] eqn:Hfind; [done|]. cbn.
  split_and!.
  - rewrite fmap_app. apply NoDup_snoc; [done|]. cbn. apply infinite_is_fresh.
  - rewrite omap_app. cbn. apply NoDup_snoc; [done|]. by apply elem_of_omap_find.
  - rewrite omap_app. cbn. by rewrite app_nil_r.
Qed.

Lemma upsert_cart_for_session sid :
  hoare (λ w, one_cart_per_owner (carts w))
    (upsert_cart (λ c, bool_decide (cart_sessionId c = Some sid))
       (λ id, {| cart_id := id; cart_userId := None; cart_sessionId := Some sid |}))
    (λ _ w, one_cart_per_owner (carts w)) (λ w, one_cart_per_owner (carts w)).
Proof.
  intros w (Hid & Huser & Hsess). unfold upsert_cart. act_unfold.
  destruct (find _ (carts w)) as [c|] eqn:Hfind; [done|]. cbn.
  split_and!.
  - rewrite fmap_app. apply NoDup_snoc; [done|]. cbn. apply infinite_is_fresh.
  - rewrite omap_app. cbn. by rewrite app_nil_r.
  - rewrite omap_app. cbn. apply NoDup_snoc; [done|]. by apply elem_of_omap_find.
Qed.

Lemma keeps_one_cart {A} (m : Act A) :
  keeps carts m →
  hoare (λ w, one_cart_per_owner (carts w)) m
    (λ _ w, one_cart_per_owner (carts w)) (λ w, one_cart_per_owner (carts w)).
Proof. apply (hoare_keeps carts one_cart_per_owner). Qed.

Lemma getCartSession_one_cart req :
  hoare (λ w, one_cart_per_owner (carts w)) (getCartSession req)
    (λ _ w, one_cart_per_owner (carts w)) (λ w, one_cart_per_owner (carts w)).
Proof.
  unfold getCartSession. destruct (getCurrentUser req) as [user|].
  - apply upsert_cart_for_user.
  - eapply hoare_bind; [|intros sid; apply upsert_cart_for_session].
    apply keeps_one_cart. keeps_tac.
Qed.

Lemma cart_delete_one_cart id :
  hoare (λ w, one_cart_per_owner (carts w)) (cart_delete id)
    (λ _ w, one_cart_per_owner (carts w)) (λ w, one_cart_per_owner (carts w)).
Proof.
  intros w (Hid & Huser & Hsess). unfold cart_delete.
  destruct (existsb _ (carts w)); [|done]. cbn.
  split_and!.
  - apply (sublist_NoDup _ _ Hid). apply fmap_sublist, sublist_filter.
  - apply (sublist_NoDup _ _ Huser), omap_filter_sublist.
  - apply (sublist_NoDup _ _ Hsess), omap_filter_sublist.
Qed.

Lemma cartItem_update_keeps_carts id q : keeps carts (cartItem_update id q).
Proof. intros w. unfold cartItem_update. by destruct (existsb _ _). Qed.
#[global] Hint Resolve cartItem_update_keeps_carts : keeps.

Lemma cartItem_delete_keeps_carts id : keeps carts (cartItem_delete id).
Proof. intros w. unfold cartItem_delete. by destruct (existsb _ _). Qed.
#[global] Hint Resolve cartItem_delete_keeps_carts : keeps.

Lemma cartItem_create_keeps_carts c p q v : keeps carts (cartItem_create c p q v).
Proof. by intros w. Qed.
#[global] Hint Resolve cartItem_create_keeps_carts : keeps.

Lemma cartItem_deleteMany_keeps_carts cond : keeps carts (cartItem_deleteMany cond).
Proof. by intros w. Qed.
#[global] Hint Resolve cartItem_deleteMany_keeps_carts : keeps.

Lemma revalidateTag_keeps_carts tag : keeps carts (revalidateTag tag).
Proof. by intros w. Qed.
#[global] Hint Resolve revalidateTag_keeps_carts : keeps.

Lemma product_update_keeps_carts id f : keeps carts (product_update id f).
Proof. intros w. unfold product_update. by destruct (products w !! id). Qed.
#[global] Hint Resolve product_update_keeps_carts : keeps.

Lemma order_update_keeps_carts id f : keeps carts (order_update id f).
Proof. intros w. unfold order_update. by destruct (orders w !! id). Qed.
#[global] Hint Resolve order_update_keeps_carts : keeps.

Lemma order_create_keeps_carts mk : keeps carts (order_create mk).
Proof. by intros w. Qed.
#[global] Hint Resolve order_create_keeps_carts : keeps.

Lemma createCheckoutSession_keeps_carts req orderId :
  keeps carts (createCheckoutSession req orderId).
Proof. intros w. unfold createCheckoutSession. by destruct (req_stripeUp req). Qed.
#[global] Hint Resolve createCheckoutSession_keeps_carts : keeps.

Lemma sendOrderConfirmation_keeps_carts o : keeps carts (sendOrderConfirmation o).
Proof. by intros w. Qed.
#[global] Hint Resolve sendOrderConfirmation_keeps_carts : keeps.

Lemma hoare_try_catch {A} (I : World → Prop) (m : Act A) (h : Exn → Act A) :
  hoare I m (λ _, I) I → (∀ e, hoare I (h e) (λ _, I) I) →
  hoare I (try_catch m h) (λ _, I) I.
Proof.
  intros Hm Hh w Hw. unfold try_catch. specialize (Hm w Hw).
  destruct (m w) as [[e|a] w1]; [|done]. by apply Hh.
Qed.

(** Takes a goal [hoare I m _ I], [I] the one-cart-per-owner invariant, apart
    along the structure of [m]. *)
Ltac one_cart_tac :=
  repeat first
    [ progress intros
    | apply getCartSession_one_cart
    | apply upsert_cart_for_user
    | apply cart_delete_one_cart
    | solve [apply keeps_one_cart; keeps_tac]
    | eapply hoare_bind
    | apply hoare_for_each
    | apply hoare_try_catch
    | match goal with
      | |- hoare _ (match ?x with _ => _ end) _ _ => destruct x
      | |- hoare _ (if ?b then _ else _) _ _ => destruct b
      end ].

Lemma clearCart_one_cart req w :
  one_cart_per_owner (carts w) → one_cart_per_owner (carts (clearCart req w).2).
Proof.
  apply (hoare_server_action (λ w, one_cart_per_owner (carts w))).
  unfold clearCart. one_cart_tac.
Qed.

Lemma run_mutation_one_cart req m w :
  one_cart_per_owner (carts w) → one_cart_per_owner (carts (run_mutation req m w)).
Proof.
  destruct m as [formData|itemId quantity|productId variantId| |guestSessionId]; cbn.
  - apply (hoare_server_action (λ w, one_cart_per_owner (carts w))).
    unfold addToCartSchema_parse. one_cart_tac.
  - apply (hoare_server_action (λ w, one_cart_per_owner (carts w))).
    unfold updateCartItemSchema_parse, include_product. one_cart_tac.
  - apply (hoare_server_action (λ w, one_cart_per_owner (carts w))).
    unfold removeFromCartSchema_parse. one_cart_tac.
  - apply clearCart_one_cart.
  - apply (hoare_server_action (λ w, one_cart_per_owner (carts w))).
    one_cart_tac.
Qed.

Lemma clearCart_step_one_cart req :
  hoare (λ w, one_cart_per_owner (carts w)) (modify (λ w, (clearCart req w).2))
    (λ _ w, one_cart_per_owner (carts w)) (λ w, one_cart_per_owner (carts w)).
Proof. intros w Hw. cbn. by apply clearCart_one_cart. Qed.

(** X13: the actions of cart.ts and checkout.ts never leave two carts for one
    user, two carts for one guest session, or two carts with one id: if the
    cart table is so before a sequence of cart mutations, a [getCart], a
    [createCheckout] or a [processSuccessfulPayment], whoever the callers
    are, it is so after. *)
Theorem cart_actions_keep_one_cart_per_owner :
  (∀ (trace : list (Request * CartMutation)) w,
     one_cart_per_owner (carts w) → one_cart_per_owner (carts (run_mutations trace w)))
  ∧ (∀ req w,
       one_cart_per_owner (carts w) → one_cart_per_owner (carts (getCart req w).2))
  ∧ (∀ req formData w,
       one_cart_per_owner (carts w) →
       one_cart_per_owner (carts (createCheckout req formData w).2))
  ∧ (∀ req sessionId w,
       one_cart_per_owner (carts w) →
       one_cart_per_owner (carts (processSuccessfulPayment req sessionId w).2)).
Proof.
  assert (Hcart : ∀ req,
            hoare (λ w, one_cart_per_owner (carts w)) (getCart req)
              (λ _ w, one_cart_per_owner (carts w)) (λ w, one_cart_per_owner (carts w))).
  { intros req. unfold getCart. apply hoare_try_catch; [|one_cart_tac].
    eapply hoare_bind; [apply getCartSession_one_cart|]. intros cart.
    apply keeps_one_cart. keeps_tac. }
  split_and!.
  - intros trace. induction trace as [|[req m] trace IH]; intros w Hw; [done|].
    cbn. apply IH. by apply run_mutation_one_cart.
  - intros req w Hw. specialize (Hcart req w Hw). by destruct (getCart req w) as [[e|c] w'].
  - intros req formData w.
    apply (hoare_server_action (λ w, one_cart_per_owner (carts w))).
    unfold checkoutSchema_parse.
    eapply hoare_bind; [one_cart_tac|]. intros v. cbn zeta.
    eapply hoare_bind; [apply Hcart|]. intros cart.
    case_bool_decide; [one_cart_tac|].
    eapply hoare_bind; [apply keeps_one_cart, check_inventory_keeps|].
    intros refused. one_cart_tac.
  - intros req sessionId w.
    apply (hoare_server_action (λ w, one_cart_per_owner (carts w))).
    eapply hoare_bind; [one_cart_tac|]. intros session.
    destruct session as [session|]; [|one_cart_tac].
    destruct (ss_orderId session) as [orderId|]; [|one_cart_tac].
    eapply hoare_bind; [one_cart_tac|]. intros order.
    destruct order as [order|]; [|one_cart_tac].
    eapply hoare_bind; [one_cart_tac|]. intros ?.
    eapply hoare_bind; [one_cart_tac|]. intros ?.
    eapply hoare_bind; [apply clearCart_step_one_cart|]. intros ?.
    one_cart_tac.
Qed.

Lemma cart_actions_keep_one_cart_per_owner_witness :
  one_cart_per_owner (carts two_carts_world)
  ∧ one_cart_per_owner (carts
      (run_mutations
         [ (request_of (Some shopper2) 1, AddToCart (add_form "A" 1));
           (request_of (Some shopper) 2, MergeGuestCart "g1");
           (request_of None 3, ClearCart) ]
         two_carts_world)).
Proof.
  assert (H : one_cart_per_owner (carts two_carts_world)).
  { apply (bool_decide_unpack (one_cart_per_owner (carts two_carts_world))).
    vm_compute. exact I. }
  split; [exact H|].
  exact (proj1 cart_actions_keep_one_cart_per_owner _ two_carts_world H).
Defined.

(** ** The caller's cart *)

Lemma find_app_None {A} (f : A → bool) (l : list A) (x : A) :
  find f l = None → f x = true → find f (l ++ [x]) = Some x.
Proof.
  intros Hl Hx. induction l as [|y l IH]; cbn in *; [by rewrite Hx|].
  destruct (f y); [done|]. by apply IH.
Qed.

(** A signed-in user has one cart: [getCartSession] finds it, or creates it
    on the first call, and finds the same cart from then on, whatever has
    happened to the other tables. *)
Lemma getCartSession_user req user w :
  req_user req = Some user →
  ∃ cart w0,
    getCartSession req w = (inr cart, w0)
    ∧ cart_userId cart = Some (u_id user)
    ∧ cartItems w0 = cartItems w ∧ ledger w0 = ledger w ∧ effects w0 = effects w
    ∧ (∀ w1, carts w1 = carts w0 → getCartSession req w1 = (inr cart, w1)).
Proof.
  intros Hu. unfold getCartSession, getCurrentUser. rewrite Hu.
  unfold upsert_cart. act_unfold.
  destruct (find _ (carts w)) as [c|] eqn:Hfind.
  - exists c, w. split; [done|].
    destruct (find_Some_elem _ _ _ Hfind) as [_ Hc%bool_decide_eq_true].
    split_and!; try done.
    intros w1 Hw1. by rewrite Hw1, Hfind.
  - eexists _, _. split; [reflexivity|]. cbn. split_and!; try done.
    intros w1 Hw1. rewrite Hw1. cbn.
    by rewrite (find_app_None _ _ _ Hfind) by (by apply bool_decide_eq_true).
Qed.

Lemma removeFromCart_run req productId variantId w pid cart w0 :
  productId = Some pid → pid ≠ "" →
  getCartSession req w = (inr cart, w0) →
  removeFromCart req productId variantId w
  = (Success tt,
     with_effect (Revalidate "cart")
       (with_cartItems
          (filter (λ r, line_matches (cart_id cart) pid
                          (variant_where (Js.str_or_undefined variantId)) r = false))
          w0)).
Proof.
  intros -> Hpid Hcart. unfold removeFromCart, server_action.
  unfold removeFromCartSchema_parse.
  rewrite bool_decide_eq_true_2 by (destruct pid; [done|cbn; lia]).
  rewrite (bind_inr (mret _) _ w _ w eq_refl).
  rewrite (bind_inr _ _ _ _ _ Hcart).
  unfold cartItem_deleteMany, revalidateTag. by act_unfold.
Qed.

(** X14: [removeFromCart] deletes from the caller's cart the lines of the
    given product - all its variants when the form names no variant, the one
    variant otherwise - and nothing else: lines of other products and of
    other carts, products and orders stay as they are.  It answers success
    also when no line matched.  A form without a product id is refused and
    changes nothing. *)
Theorem removeFromCart_removes req productId variantId w :
  let run := removeFromCart req productId variantId w in
  (productId = None ∨ productId = Some "" →
   run = (Failure "Failed to remove item from cart", w))
  ∧ (∀ pid, productId = Some pid → pid ≠ "" →
       ∃ cart,
         (getCartSession req w).1 = inr cart
         ∧ run.1 = Success tt
         ∧ (∀ r, r ∈ cartItems run.2 ↔
                 r ∈ cartItems w
                 ∧ ¬ (ci_cartId r = cart_id cart ∧ ci_productId r = pid
                      ∧ match Js.str_or_undefined variantId with
                        | None => True
                        | Some v => ci_variantId r = Some v
                        end))
         ∧ cartItems run.2 `sublist_of` cartItems w
         ∧ ledger run.2 = ledger w).
Proof.
  intros run. subst run. split.
  - intros Hbad. unfold removeFromCart, server_action, removeFromCartSchema_parse.
    by destruct Hbad as [-> | ->].
  - intros pid Hpid Hne.
    destruct (getCartSession_returns req w) as (cart & w0 & Hcart & Hrows & Hledger).
    exists cart. rewrite Hcart.
    rewrite (removeFromCart_run req productId variantId w pid cart w0 Hpid Hne Hcart).
    cbn [fst snd]. split; [done|]. split; [done|].
    split_and!.
    + intros r. cbn. rewrite Hrows, list_elem_of_filter.
      rewrite <- not_true_iff_false, line_matches_true.
      destruct (Js.str_or_undefined variantId) as [v|]; cbn.
      * rewrite bool_decide_eq_true. tauto.
      * tauto.
    + cbn. rewrite Hrows. apply sublist_filter.
    + done.
Qed.

Lemma removeFromCart_removes_witness :
  let run := removeFromCart (request_of (Some shopper) 0) (Some "A") None two_carts_world in
  run.1 = Success tt
  ∧ cartItems run.2
    = [ {| ci_id := "i2"; ci_cartId := "c2"; ci_productId := "A";
           ci_variantId := None; ci_quantity := 2 |} ].
Proof.
  intros run.
  destruct (proj2 (removeFromCart_removes (request_of (Some shopper) 0) (Some "A") None
                     two_carts_world) "A" eq_refl ltac:(done))
    as (cart & _ & Hok & _).
  split; [exact Hok|]. by vm_compute.
Defined.

Lemma filter_none {A} (P : A → Prop) `{∀ x, Decision (P x)} (l : list A) :
  (∀ x, x ∈ l → ¬ P x) → filter P l = [].
Proof.
  induction l as [|x l IH]; intros Hl; [done|].
  rewrite filter_cons, decide_False by (apply Hl; by left).
  apply IH. intros y Hy. apply Hl. by right.
Qed.

Lemma clearCart_run req w cart w0 :
  getCartSession req w = (inr cart, w0) →
  clearCart req w
  = (Success tt,
     with_effect (Revalidate "cart")
       (with_cartItems (filter (λ r, bool_decide (ci_cartId r = cart_id cart) = false)) w0)).
Proof.
  intros Hcart. unfold clearCart, server_action.
  rewrite (bind_inr _ _ _ _ _ Hcart).
  unfold cartItem_deleteMany, revalidateTag. by act_unfold.
Qed.

Lemma getCart_empty req w cart w0 :
  getCartSession req w = (inr cart, w0) →
  lines_of (cart_id cart) w = [] →
  getCart req w
  = (inr {| cv_id := cart_id cart; cv_items := []; cv_total := 0%float; cv_itemCount := 0 |},
     w0).
Proof.
  intros Hcart Hlines. unfold getCart, try_catch.
  rewrite (bind_inr _ _ _ _ _ Hcart).
  pose proof (getCartSession_keeps_cartItems req w) as Hrows.
  rewrite Hcart in Hrows. cbn in Hrows.
  unfold lines_of in Hlines. act_unfold. rewrite Hrows, Hlines. done.
Qed.

Lemma createCheckout_empty_cart req formData w v cart w0 :
  (checkoutSchema_parse formData w).1 = inr v →
  getCartSession req w = (inr cart, w0) →
  lines_of (cart_id cart) w = [] →
  createCheckout req formData w = (Failure "Cart is empty", w0).
Proof.
  intros Hparse Hcart Hlines.
  destruct (checkoutSchema_parse_inr _ _ _ Hparse) as (Hparse' & _).
  unfold createCheckout, server_action.
  rewrite (bind_inr _ _ _ _ _ Hparse'). cbn zeta.
  rewrite (bind_inr _ _ _ _ _ (getCart_empty req w cart w0 Hcart Hlines)).
  done.
Qed.

(** X15: [clearCart] always answers success; for a signed-in user it deletes
    exactly the lines of that user's cart and keeps the cart itself, every
    other cart's lines, the products and the orders.  After it the user's
    cart reads as empty, and a checkout with a valid form is refused with
    'Cart is empty' and creates no order. *)
Theorem clearCart_empties req user w :
  req_user req = Some user →
  let run := clearCart req w in
  ∃ cart,
    (getCartSession req w).1 = inr cart
    ∧ run.1 = Success tt
    ∧ cartItems run.2 = filter (λ r, ci_cartId r ≠ cart_id cart) (cartItems w)
    ∧ ledger run.2 = ledger w
    ∧ (getCartSession req run.2).1 = inr cart
    ∧ cv_items (cart_shown req run.2) = []
    ∧ (∀ formData v,
         (checkoutSchema_parse formData run.2).1 = inr v →
         (createCheckout req formData run.2).1 = Failure "Cart is empty"
         ∧ orders (createCheckout req formData run.2).2 = orders w).
Proof.
  intros Hu run. subst run.
  destruct (getCartSession_user req user w Hu)
    as (cart & w0 & Hcart & _ & Hrows & Hledger & _ & Hagain).
  exists cart. rewrite Hcart, (clearCart_run req w cart w0 Hcart). cbn [fst snd].
  set (w' := with_effect _ _).
  assert (Hrows' : cartItems w' = filter (λ r, ci_cartId r ≠ cart_id cart) (cartItems w)).
  { subst w'. cbn. rewrite Hrows. apply list_filter_iff. intros r.
    by rewrite bool_decide_eq_false. }
  assert (Hcart' : getCartSession req w' = (inr cart, w')) by (by apply Hagain).
  assert (Hlines : lines_of (cart_id cart) w' = []).
  { unfold lines_of. rewrite Hrows'. apply filter_none.
    by intros r [Hr _]%list_elem_of_filter. }
  split_and!; try done.
  - by rewrite Hcart'.
  - unfold cart_shown. by rewrite (getCart_empty req w' cart w' Hcart' Hlines).
  - intros formData v Hparse.
    rewrite (createCheckout_empty_cart req formData w' v cart w' Hparse Hcart' Hlines).
    cbn [fst snd]. split; [done|]. subst w'. cbn.
    by apply ledger_eq in Hledger as (_ & -> & _).
Qed.

Lemma clearCart_empties_witness :
  let run := clearCart (request_of (Some shopper) 0) two_carts_world in
  run.1 = Success tt
  ∧ cartItems run.2
    = [ {| ci_id := "i2"; ci_cartId := "c2"; ci_productId := "A";
           ci_variantId := None; ci_quantity := 2 |} ]
  ∧ (createCheckout (request_of (Some shopper) 0) (checkout_form [checkout_line "A" 1])
       run.2).1 = Failure "Cart is empty".
Proof.
  intros run.
  destruct (clearCart_empties (request_of (Some shopper) 0) shopper two_carts_world eq_refl)
    as (cart & _ & Hok & _ & _ & _ & _ & Hcheckout).
  split; [exact Hok|]. split; [by vm_compute|].
  exact (proj1 (Hcheckout (checkout_form [checkout_line "A" 1]) _ eq_refl)).
Defined.

(** ** Adding to the cart, twice and back *)

Lemma addToCartSchema_parse_ok pid q variantId w :
  pid ≠ "" → 1 ≤ q ≤ 100 →
  addToCartSchema_parse (Some pid) (Some q) variantId w
  = (inr {| ac_productId := pid; ac_quantity := q; ac_variantId := variantId |}, w).
Proof.
  intros Hpid Hq. unfold addToCartSchema_parse.
  rewrite bool_decide_eq_true_2 by (destruct pid; [done|cbn; lia]).
  by rewrite (proj2 (Z.leb_le 1 q)), (proj2 (Z.leb_le q 100)) by lia.
Qed.

Lemma find_rows_with_quantity (f : CartItem → bool) id q rows :
  (∀ r q', f (set_quantity q' r) = f r) →
  find f (rows_with_quantity id q rows)
  = (λ r, if bool_decide (ci_id r = id) then set_quantity q r else r) <$> find f rows.
Proof.
  intros Hf. unfold rows_with_quantity.
  induction rows as [|r rows IH]; [done|].
  rewrite fmap_cons. cbn [find].
  assert (f (if bool_decide (ci_id r = id) then set_quantity q r else r) = f r) as ->.
  { case_bool_decide; [apply Hf|done]. }
  destruct (f r); [done|]. apply IH.
Qed.

Lemma rows_with_quantity_twice id q1 q2 rows :
  rows_with_quantity id q2 (rows_with_quantity id q1 rows) = rows_with_quantity id q2 rows.
Proof.
  unfold rows_with_quantity. rewrite <- list_fmap_compose.
  apply list_fmap_ext. intros i r _. cbn.
  destruct (decide (ci_id r = id)) as [Hid|Hid].
  - rewrite (bool_decide_eq_true_2 (ci_id r = id)) by done. cbn.
    by rewrite bool_decide_eq_true_2.
  - rewrite (bool_decide_eq_false_2 (ci_id r = id)) by done.
    by rewrite bool_decide_eq_false_2.
Qed.

Lemma rows_with_quantity_snoc rows r q :
  ci_id r ∉ ci_id <$> rows →
  rows_with_quantity (ci_id r) q (rows ++ [r]) = rows ++ [set_quantity q r].
Proof.
  intros Hfresh. unfold rows_with_quantity at 1. rewrite fmap_app.
  fold (rows_with_quantity (ci_id r) q rows).
  rewrite rows_with_quantity_absent by done.
  cbn. by rewrite bool_decide_eq_true_2.
Qed.

Lemma addToCart_success_stock req formData w v p :
  (addToCartSchema_parse (fd_productId formData) (fd_quantity formData)
     (Js.str_or_undefined (fd_variantId formData)) w).1 = inr v →
  products w !! ac_productId v = Some p →
  p_isActive p = true →
  (addToCart req formData w).1 = Success tt →
  ac_quantity v ≤ p_inventory p.
Proof.
  intros Hparse Hp Hact Hok.
  destruct (Z.le_gt_cases (ac_quantity v) (p_inventory p)) as [|Hlt]; [done|].
  rewrite (addToCart_insufficient req formData w v p Hparse Hp Hact) in Hok by lia.
  done.
Qed.

(** X16: for a signed-in user, adding a product to the cart in two calls, of
    [q1] and then [q2] units, leaves the same cart lines as adding
    [q1 + q2] units in one call, whenever the single call succeeds: the
    second call finds the line of the first and adds to it. *)
Theorem addToCart_adds_up req user pid variantId q1 q2 w p :
  req_user req = Some user →
  pid ≠ "" →
  1 ≤ q1 → 1 ≤ q2 → q1 + q2 ≤ 100 →
  products w !! pid = Some p →
  p_isActive p = true →
  let form q := {| fd_productId := Some pid; fd_quantity := Some q;
                   fd_variantId := variantId |} in
  let once := addToCart req (form (q1 + q2)) w in
  let first := addToCart req (form q1) w in
  let second := addToCart req (form q2) first.2 in
  once.1 = Success tt →
  first.1 = Success tt
  ∧ second.1 = Success tt
  ∧ cartItems second.2 = cartItems once.2
  ∧ carts second.2 = carts once.2
  ∧ ledger second.2 = ledger once.2.
Proof.
  intros Hu Hpid Hq1 Hq2 Hq Hp Hact form once first second Honce.
  destruct (getCartSession_user req user w Hu)
    as (cart & w0 & Hcart & _ & Hrows & Hledger & _ & Hagain).
  set (v' := Js.str_or_undefined variantId).
  assert (Hparse : ∀ q w1, 1 ≤ q ≤ 100 →
            (addToCartSchema_parse (fd_productId (form q)) (fd_quantity (form q))
               (Js.str_or_undefined (fd_variantId (form q))) w1).1
            = inr {| ac_productId := pid; ac_quantity := q; ac_variantId := v' |}).
  { intros q w1 Hq'. unfold form. cbn [fd_productId fd_quantity fd_variantId].
    by rewrite addToCartSchema_parse_ok. }
  pose proof (addToCart_success_stock req (form (q1 + q2)) w _ p
                (Hparse (q1 + q2) w ltac:(lia)) Hp Hact Honce) as Hstock.
  cbn [ac_quantity] in Hstock.
  assert (Eonce := addToCart_proceeds req (form (q1 + q2)) w _ p cart w0
                     (Hparse (q1 + q2) w ltac:(lia)) Hp Hact Hstock Hcart).
  assert (Efirst := addToCart_proceeds req (form q1) w _ p cart w0
                      (Hparse q1 w ltac:(lia)) Hp Hact ltac:(cbn; lia) Hcart).
  cbn [ac_productId ac_quantity ac_variantId] in Eonce, Efirst.
  subst once first second. rewrite Eonce in Honce |- *. rewrite Efirst.
  assert (Hprod0 : products w0 = products w) by (by apply ledger_eq in Hledger as (-> & _)).
  destruct (find _ (cartItems w)) as [e|] eqn:Hfind.
  - (* the product has a line already *)
    destruct (p_inventory p <? ci_quantity e + (q1 + q2)) eqn:Hfull; [done|].
    apply Z.ltb_ge in Hfull.
    rewrite (proj2 (Z.ltb_ge _ _)) by lia. cbn [fst snd].
    set (w1 := with_effect _ (with_cartItems _ w0)).
    assert (Hp1 : products w1 !! pid = Some p) by (subst w1; cbn; by rewrite Hprod0).
    assert (Hcart1 : getCartSession req w1 = (inr cart, w1)) by (by apply Hagain).
    rewrite (addToCart_proceeds req (form q2) w1 _ p cart w1
               (Hparse q2 w1 ltac:(lia)) Hp1 Hact ltac:(cbn; lia) Hcart1).
    cbn [ac_productId ac_quantity ac_variantId].
    assert (Hfind1 : find (line_matches (cart_id cart) pid (variant_where v')) (cartItems w1)
                     = Some (set_quantity (ci_quantity e + q1) e)).
    { subst w1. cbn [cartItems with_effect with_cartItems].
      rewrite find_rows_with_quantity by done. rewrite Hfind. cbn.
      by rewrite bool_decide_eq_true_2. }
    rewrite Hfind1. cbn [ci_quantity ci_id set_quantity].
    rewrite (proj2 (Z.ltb_ge _ _)) by lia. cbn [fst snd].
    split_and!; try done.
    subst w1. cbn [cartItems with_effect with_cartItems].
    rewrite rows_with_quantity_twice. f_equal. lia.
  - (* the product gets a line of its own *)
    cbn [fst snd].
    set (r1 := new_row (cartItems w) (cart_id cart) pid q1 v').
    set (w1 := with_effect _ (with_cartItems _ w0)).
    assert (Hp1 : products w1 !! pid = Some p) by (subst w1; cbn; by rewrite Hprod0).
    assert (Hcart1 : getCartSession req w1 = (inr cart, w1)) by (by apply Hagain).
    rewrite (addToCart_proceeds req (form q2) w1 _ p cart w1
               (Hparse q2 w1 ltac:(lia)) Hp1 Hact ltac:(cbn; lia) Hcart1).
    cbn [ac_productId ac_quantity ac_variantId].
    assert (Hfind1 : find (line_matches (cart_id cart) pid (variant_where v')) (cartItems w1)
                     = Some r1).
    { subst w1. cbn [cartItems with_effect with_cartItems].
      apply find_app_None; [done|]. apply line_matches_true.
      split; [done|]. split; [done|]. by apply variant_where_accepts. }
    rewrite Hfind1. cbn [ci_quantity ci_id r1 new_row].
    rewrite (proj2 (Z.ltb_ge _ _)) by lia. cbn [fst snd].
    split_and!; try done.
    subst w1. cbn [cartItems with_effect with_cartItems].
    change (fresh (ci_id <$> cartItems w)) with (ci_id r1).
    rewrite rows_with_quantity_snoc by apply infinite_is_fresh. done.
Qed.

Lemma addToCart_adds_up_witness :
  let req := request_of (Some shopper) 0 in
  cartItems (addToCart req (add_form "P" 1)
               (addToCart req (add_form "P" 1) contention_world).2).2
  = cartItems (addToCart req (add_form "P" 2) contention_world).2.
Proof.
  intros req.
  exact (proj1 (proj2 (proj2
    (addToCart_adds_up req shopper "P" None 1 1 contention_world (demo_product "P" 5 true)
       eq_refl ltac:(done) ltac:(lia) ltac:(lia) ltac:(lia) eq_refl eq_refl eq_refl)))).
Defined.

Lemma find_None_filter {A} (f : A → bool) (l : list A) :
  find f l = None → filter (λ x, f x = false) l = l.
Proof.
  induction l as [|x l IH]; [done|]. cbn [find].
  destruct (f x) eqn:Hx; [done|]. intros Hl.
  rewrite filter_cons_True by done. f_equal. by apply IH.
Qed.

(** X17: for a signed-in user whose cart holds no line of a product (and
    variant), [addToCart] followed by [removeFromCart] for the same product
    and variant gives the table of cart lines back as it was. *)
Theorem addToCart_then_removeFromCart req user pid variantId q w :
  req_user req = Some user →
  pid ≠ "" →
  (∀ cart, (getCartSession req w).1 = inr cart →
     find (line_matches (cart_id cart) pid (variant_where (Js.str_or_undefined variantId)))
          (cartItems w) = None) →
  let added := addToCart req {| fd_productId := Some pid; fd_quantity := Some q;
                                fd_variantId := variantId |} w in
  added.1 = Success tt →
  let removed := removeFromCart req (Some pid) variantId added.2 in
  length (cartItems added.2) = S (length (cartItems w))
  ∧ removed.1 = Success tt
  ∧ cartItems removed.2 = cartItems w
  ∧ ledger removed.2 = ledger w.
Proof.
  intros Hu Hpid Hnone added Hok removed.
  destruct (getCartSession_user req user w Hu)
    as (cart & w0 & Hcart & _ & Hrows & Hledger & _ & Hagain).
  specialize (Hnone cart ltac:(by rewrite Hcart)).
  set (v' := Js.str_or_undefined variantId) in *.
  set (formData := {| fd_productId := Some pid; fd_quantity := Some q;
                      fd_variantId := variantId |}) in *.
  destruct (addToCart_outcome req formData w)
    as [[msg Hfail]|(v & p & cart' & w0' & Hparse & Hp & Hact & Hstock & Hcart')].
  { subst added. by rewrite Hfail in Hok. }
  rewrite Hcart in Hcart'. injection Hcart' as <- <-.
  destruct (addToCartSchema_parse_inr _ _ _ _ _ Hparse) as (_ & Hv1 & Hv2 & Hv3 & _).
  cbn in Hv1, Hv2, Hv3. injection Hv1 as Hv1. injection Hv2 as Hv2.
  assert (Eadd := addToCart_proceeds req formData w v p cart w0 Hparse Hp Hact Hstock Hcart).
  rewrite <- Hv1, Hv3 in Eadd. fold v' in Eadd. rewrite Hnone in Eadd.
  subst removed added. rewrite Eadd. cbn [fst snd].
  set (r1 := new_row (cartItems w) (cart_id cart) pid (ac_quantity v) v').
  set (w1 := with_effect _ (with_cartItems _ w0)).
  assert (Hcart1 : getCartSession req w1 = (inr cart, w1)) by (by apply Hagain).
  rewrite (removeFromCart_run req (Some pid) variantId w1 pid cart w1 eq_refl Hpid Hcart1).
  cbn [fst snd]. subst w1. cbn [cartItems with_effect with_cartItems ledger products orders
                                 stripeSessions].
  split_and!.
  - rewrite length_app. cbn. lia.
  - done.
  - rewrite filter_app. fold v'.
    assert (filter (λ r, line_matches (cart_id cart) pid (variant_where v') r = false)
              (cartItems w) = cartItems w) as ->.
    { by apply find_None_filter. }
    rewrite filter_cons_False, filter_nil, app_nil_r; [done|].
    rewrite not_false_iff_true. apply line_matches_true.
    split; [done|]. split; [done|]. by apply variant_where_accepts.
  - exact Hledger.
Qed.

Lemma addToCart_then_removeFromCart_witness :
  let req := request_of (Some shopper2) 0 in
  cartItems (removeFromCart req (Some "A") None
               (addToCart req (add_form "A" 1) two_carts_world).2).2
  = cartItems two_carts_world.
Proof.
  intros req.
  refine (proj1 (proj2 (proj2
    (addToCart_then_removeFromCart req shopper2 "A" None 1 two_carts_world
       eq_refl ltac:(done) _ eq_refl)))).
  intros cart Hcart. vm_compute in Hcart. injection Hcart as <-. reflexivity.
Defined.

(** ** Checkout: what is refused, and what a failed payment session leaves *)

(** X18: when the payment processor does not open the session, the checkout
    answers 'Failed to create checkout session', but the order it has
    created before the call stays in the order table: PENDING, with the
    lines of the form and without a session id.  No transaction undoes
    it.  (The shipping method and the state are not named like members of
    [Object.prototype].) *)
Theorem createCheckout_processor_failure req formData w v cart :
  req_stripeUp req = false →
  (checkoutSchema_parse formData w).1 = inr v →
  (getCart req w).1 = inr cart →
  cv_items cart ≠ [] →
  Forall (line_available w) (cf_items formData) →
  cd_shippingMethod v ∉ Object_prototype_keys →
  state (cd_shippingAddress v) ∉ Object_prototype_keys →
  let run := createCheckout req formData w in
  run.1 = Failure "Failed to create checkout session"
  ∧ stripeSessions run.2 = stripeSessions w
  ∧ ∃ o,
      orders run.2 = <[fresh (dom (orders w)) := o]> (orders w)
      ∧ orders w !! fresh (dom (orders w)) = None
      ∧ o_status o = PENDING
      ∧ o_stripeSessionId o = None
      ∧ o_items o = order_line <$> cf_items formData
      ∧ o_userId o = u_id <$> req_user req.
Proof.
  intros Hdown Hparse Hcart Hitems Havail Hmethod Hstate run. subst run.
  destruct (getCart req w) as [r w1] eqn:Hcart'. cbn in Hcart. subst r.
  pose proof (calculateShippingCost_cases (cd_shippingMethod v) (cd_shippingAddress v)
                (cv_total cart)) as Hship.
  rewrite (bool_decide_eq_false_2 _ Hmethod) in Hship.
  assert (∃ shippingCost,
            calculateShippingCost (cd_shippingMethod v) (cd_shippingAddress v) (cv_total cart)
            = Js.Number shippingCost) as [shippingCost Hnumber].
  { rewrite Hship. destruct (Js.ge (cv_total cart) 75); by eexists. }
  rewrite (createCheckout_run req formData w v cart w1 shippingCost
             Hparse Hcart' Hitems Havail Hnumber), Hdown.
  destruct (getCart_returns req w) as (cart' & w1' & Hcart'' & Hled & _).
  rewrite Hcart' in Hcart''. injection Hcart'' as <- <-.
  apply ledger_eq in Hled as (_ & Hord & Hsess).
  destruct (checkoutSchema_parse_inr _ _ _ Hparse) as (_ & Hv & _).
  cbn [fst snd]. split; [done|]. split; [done|].
  eexists. split; [cbn; by rewrite Hord|].
  split; [apply not_elem_of_dom, is_fresh|].
  cbn. by rewrite Hv.
Qed.

Lemma createCheckout_processor_failure_witness :
  let req := {| req_user := Some shopper; req_cartSession := None; req_now := 1;
                req_adminEmail := None; req_stripeUp := false |} in
  let run := createCheckout req (checkout_form [checkout_line "P" 3]) contention_world in
  run.1 = Failure "Failed to create checkout session"
  ∧ o_status <$> orders run.2 !! "0" = Some PENDING.
Proof.
  intros req run.
  destruct (createCheckout_processor_failure req (checkout_form [checkout_line "P" 3])
              contention_world _ _ eq_refl eq_refl eq_refl ltac:(done)
              ltac:(apply Forall_singleton; eexists; by split_and!)
              ltac:(apply (bool_decide_unpack _); by vm_compute)
              ltac:(apply (bool_decide_unpack _); by vm_compute))
    as (Hfail & _ & o & Hord & _ & Hst & _).
  split; [exact Hfail|]. subst run. rewrite Hord.
  change (fresh (dom (orders contention_world))) with "0".
  rewrite lookup_insert_eq. cbn. by rewrite Hst.
Defined.

(** X19: [createCheckout] refuses, with 'Failed to create checkout session'
    and without changing anything, a form that has no billing address (the
    schema marks it optional, but the action passes [null] for a missing one,
    which the schema does not accept), no lines, a line with a quantity below
    1, no shipping method, or an empty state. *)
Theorem createCheckout_refuses_invalid_form req formData w :
  cf_billingAddress formData = None
  ∨ cf_items formData = []
  ∨ (∃ item, item ∈ cf_items formData ∧ ck_quantity item < 1)
  ∨ cf_shippingMethod formData = None
  ∨ cf_shippingMethod formData = Some ""
  ∨ state (cf_shippingAddress formData) = "" →
  createCheckout req formData w = (Failure "Failed to create checkout session", w).
Proof.
  intros Hbad.
  assert (checkoutSchema_parse formData w = (inl ZodError, w)) as Hparse.
  { unfold checkoutSchema_parse.
    destruct (cf_shippingMethod formData) as [method|] eqn:Hm; [|done].
    match goal with |- (if ?c then _ else _) _ = _ => assert (c = false) as ->; [|done] end.
    destruct Hbad as [Hb|[Hi|[(item & Hin & Hq)|[Hs|[Hs|Hst]]]]].
    - rewrite Hb. cbn. by rewrite !andb_false_r.
    - rewrite Hi. cbn. done.
    - assert (forallb checkoutItem_ok (cf_items formData) = false) as ->; [|done].
      apply not_true_iff_false. intros Hall.
      rewrite forallb_forall in Hall. specialize (Hall item).
      rewrite <- list_elem_of_In in Hall. specialize (Hall Hin).
      unfold checkoutItem_ok in Hall. apply andb_true_iff in Hall as [?%Z.leb_le _]. lia.
    - done.
    - injection Hs as ->. by rewrite !andb_false_r.
    - unfold shippingAddressSchema_ok at 1. rewrite Hst. cbn.
      by rewrite !andb_false_r. }
  unfold createCheckout, server_action. by rewrite (bind_inl _ _ _ _ _ Hparse).
Qed.

Lemma createCheckout_refuses_invalid_form_witness :
  let formData := {| cf_items := [checkout_line "P" 3]; cf_shippingAddress := demo_address;
                     cf_billingAddress := None; cf_customerInfo := demo_customer;
                     cf_shippingMethod := Some "standard"; cf_notes := None |} in
  createCheckout (request_of (Some shopper) 1) formData contention_world
  = (Failure "Failed to create checkout session", contention_world).
Proof.
  intros formData.
  apply (createCheckout_refuses_invalid_form (request_of (Some shopper) 1) formData
           contention_world).
  by left.
Defined.

(** X30: a shipping method and a state named like members of
    [Object.prototype] ('toString', 'constructor', ...) pass the schema and
    are looked up in the rate tables, where they find the inherited member.
    For such a method and a subtotal below 75 the shipping cost is that
    member, no number, and the checkout answers 'Failed to create checkout
    session' without storing an order or opening a session, although every
    line is in stock.  For such a state the tax is [NaN], whatever the
    subtotal. *)
Theorem createCheckout_inherited_names req formData w v cart :
  (checkoutSchema_parse formData w).1 = inr v →
  (getCart req w).1 = inr cart →
  cv_items cart ≠ [] →
  Forall (line_available w) (cf_items formData) →
  cd_shippingMethod v ∈ Object_prototype_keys →
  Js.ge (cv_total cart) 75 = false →
  let run := createCheckout req formData w in
  calculateShippingCost (cd_shippingMethod v) (cd_shippingAddress v) (cv_total cart)
  = Js.Member (cd_shippingMethod v)
  ∧ run.1 = Failure "Failed to create checkout session"
  ∧ orders run.2 = orders w
  ∧ stripeSessions run.2 = stripeSessions w
  ∧ ∀ subtotal st,
      st ∈ Object_prototype_keys → Js.is_nan (calculateTax subtotal st) = true.
Proof.
  intros Hparse Hcart Hitems Havail Hmethod Hsmall run. subst run.
  assert (Hship : calculateShippingCost (cd_shippingMethod v) (cd_shippingAddress v)
                    (cv_total cart) = Js.Member (cd_shippingMethod v)).
  { by rewrite calculateShippingCost_cases, Hsmall, (bool_decide_eq_true_2 _ Hmethod). }
  split; [done|].
  destruct (getCart req w) as [r w1] eqn:Hcart'. cbn in Hcart. subst r.
  destruct (checkoutSchema_parse_inr _ _ _ Hparse) as (Hparse' & Hv & _).
  destruct (getCart_returns req w) as (cart' & w1' & Hcart'' & Hled & _).
  rewrite Hcart' in Hcart''. injection Hcart'' as <- <-.
  apply ledger_eq in Hled as (Hprod & Hord & Hsess).
  assert (createCheckout req formData w = (Failure "Failed to create checkout session", w1))
    as ->.
  { unfold createCheckout, server_action.
    rewrite (bind_inr _ _ _ _ _ Hparse'). cbn zeta.
    rewrite (bind_inr _ _ _ _ _ Hcart').
    rewrite bool_decide_eq_false_2 by done.
    rewrite (bind_inr _ _ _ _ _
               (check_inventory_available (cd_items v) w w1 Hprod ltac:(by rewrite Hv))).
    by rewrite Hship. }
  split; [done|]. split; [done|]. split; [done|].
  intros subtotal st Hst. rewrite calculateTax_cases.
  assert (Hrate : (if bool_decide (st = "CA") then 0.08
                   else if bool_decide (st = "NY") then 0.08
                   else if bool_decide (st = "TX") then 0.065
                   else if bool_decide (st = "FL") then 0.06
                   else if bool_decide (st ∈ Object_prototype_keys) then nan
                   else 0)%float = nan).
  { unfold Object_prototype_keys in Hst. rewrite !elem_of_cons, elem_of_nil in Hst.
    repeat (destruct Hst as [->|Hst]; [reflexivity|]). done. }
  rewrite Hrate. unfold Js.is_nan.
  rewrite FloatAxioms.eqb_spec, FloatAxioms.mul_spec.
  change (Prim2SF nan) with S754_nan.
  by destruct (Prim2SF subtotal).
Qed.

Lemma createCheckout_inherited_names_witness :
  let formData := {| cf_items := [checkout_line "P" 3]; cf_shippingAddress := demo_address;
                     cf_billingAddress := Some demo_address;
                     cf_customerInfo := demo_customer; cf_shippingMethod := Some "toString";
                     cf_notes := None |} in
  let run := createCheckout (request_of (Some shopper) 1) formData contention_world in
  run.1 = Failure "Failed to create checkout session"
  ∧ orders run.2 = ∅
  ∧ Js.is_nan (calculateTax 30 "constructor") = true.
Proof.
  intros formData run.
  destruct (createCheckout_inherited_names (request_of (Some shopper) 1) formData
              contention_world
              {| cd_items := [checkout_line "P" 3]; cd_shippingAddress := demo_address;
                 cd_billingAddress := Some demo_address; cd_customerInfo := demo_customer;
                 cd_shippingMethod := "toString"; cd_notes := None |}
              (cart_shown (request_of (Some shopper) 1) contention_world))
    as (_ & Hfail & Hord & _ & Hnan).
  - reflexivity.
  - reflexivity.
  - by vm_compute.
  - apply Forall_singleton. exists (demo_product "P" 5 true).
    split; [reflexivity|]. split; [reflexivity|]. simpl. lia.
  - apply (bool_decide_unpack _). by vm_compute.
  - by vm_compute.
  - split; [exact Hfail|]. split; [exact Hord|].
    apply Hnan. apply (bool_decide_unpack _). by vm_compute.
Defined.

(** ** Shipping cost and tax *)

(** X20: shipping is free exactly when the order value is at least 75.
    Below that, 'express' costs 12.99 and 'overnight' 24.99, and every other
    method name costs 5.99 - 'free' included, whose rate of 0 counts as
    missing.  So each method offered by [getShippingMethods] is charged the
    price shown for it.  (Method names that are members of
    [Object.prototype] are left aside.) *)
Theorem calculateShippingCost_rates method address orderValue :
  method ∉ Object_prototype_keys →
  let cost := calculateShippingCost method address orderValue in
  (cost = Js.Number 0 ↔ Js.ge orderValue 75 = true)
  ∧ (Js.ge orderValue 75 = false →
     cost = Js.Number (if bool_decide (method = "express") then 12.99%float
                       else if bool_decide (method = "overnight") then 24.99%float
                       else 5.99%float))
  ∧ (Js.ge orderValue 75 = false →
     ∀ offered, offered ∈ getShippingMethods → sm_id offered = method →
       cost = Js.Number (sm_price offered)).
Proof.
  intros Hkey cost. subst cost.
  rewrite calculateShippingCost_cases, (bool_decide_eq_false_2 _ Hkey).
  assert (Hne : ∀ x : float, (x =? 0)%float = false → x = 0%float → False).
  { intros x Hx ->. by vm_compute in Hx. }
  destruct (Js.ge orderValue 75) eqn:Hfree.
  - split; [done|]. split; done.
  - split_and!.
    + split; [|done]. intros [= H]. exfalso. revert H.
      repeat case_bool_decide; apply Hne; reflexivity.
    + done.
    + intros _ offered Hoffered Hid. unfold getShippingMethods in Hoffered.
      rewrite !elem_of_cons, elem_of_nil in Hoffered.
      destruct Hoffered as [->|[->|[->|[]]]]; cbn in Hid; subst method; reflexivity.
Qed.

Lemma calculateShippingCost_rates_witness :
  calculateShippingCost "free" demo_address 10 = Js.Number 5.99
  ∧ calculateShippingCost "express" demo_address 75 = Js.Number 0.
Proof.
  split.
  - exact (proj1 (proj2 (calculateShippingCost_rates "free" demo_address 10
                           ltac:(apply (bool_decide_unpack _); by vm_compute))) eq_refl).
  - exact (proj2 (proj1 (calculateShippingCost_rates "express" demo_address 75
                           ltac:(apply (bool_decide_unpack _); by vm_compute))) eq_refl).
Defined.

Lemma float_mul_zero (x : float) :
  ((x * 0 =? 0)%float = true) ↔ PrimFloat.is_finite x = true.
Proof.
  unfold PrimFloat.is_finite, PrimFloat.is_nan, PrimFloat.is_infinity.
  rewrite !FloatAxioms.eqb_spec, FloatAxioms.mul_spec, FloatAxioms.abs_spec.
  change (Prim2SF 0) with (S754_zero false).
  change (Prim2SF infinity) with (S754_infinity false).
  destruct (Prim2SF x) as [s|s| |s m e]; cbn.
  - by split.
  - rewrite orb_true_r. by split.
  - by split.
  - rewrite Z.compare_refl.
    change (PosDef.Pos.compare_cont Eq m m) with (Pos.compare m m).
    rewrite Pos.compare_refl. by destruct s.
Qed.

(** X21: an order shipped to a state outside CA, NY, TX and FL is not taxed,
    whatever its subtotal: for every state name that is not one of the four
    (names differing in case included) the tax is zero, for every finite
    subtotal, and only for those.  (State names that are members of
    [Object.prototype] are left aside.) *)
Theorem calculateTax_untaxed_state subtotal st :
  st ∉ Object_prototype_keys →
  st ∉ ["CA"; "NY"; "TX"; "FL"] →
  (calculateTax subtotal st =? 0)%float = true ↔ PrimFloat.is_finite subtotal = true.
Proof.
  intros Hkey Hst. rewrite calculateTax_cases.
  rewrite !not_elem_of_cons in Hst. destruct Hst as (? & ? & ? & ? & _).
  rewrite !bool_decide_eq_false_2 by done.
  apply float_mul_zero.
Qed.

Lemma calculateTax_untaxed_state_witness :
  (calculateTax 120 "ca" =? 0)%float = true.
Proof.
  apply (calculateTax_untaxed_state 120 "ca");
    [apply (bool_decide_unpack _); by vm_compute
    |apply (bool_decide_unpack _); by vm_compute
    |reflexivity].
Defined.

(** ** Payment confirmation and cancellation: refusals and side effects *)

(** X22: [processSuccessfulPayment] answers 'Failed to process payment' and
    changes nothing when the processor knows no session of that id, when the
    session carries no order id, or when the order it names does not
    exist. *)
Theorem processSuccessfulPayment_failures req sessionId w :
  stripeSessions w !! sessionId = None
  ∨ (∃ session,
       stripeSessions w !! sessionId = Some session
       ∧ (ss_orderId session = None
          ∨ ∃ orderId, ss_orderId session = Some orderId ∧ orders w !! orderId = None)) →
  processSuccessfulPayment req sessionId w = (Failure "Failed to process payment", w).
Proof.
  intros Hbad. unfold processSuccessfulPayment, server_action. act_unfold.
  destruct Hbad as [-> | (session & -> & [-> | (orderId & -> & ->)])]; done.
Qed.

Lemma processSuccessfulPayment_failures_witness :
  processSuccessfulPayment (request_of (Some shopper) 9) "cs_2" (order_world PENDING 2)
  = (Failure "Failed to process payment", order_world PENDING 2).
Proof.
  apply (processSuccessfulPayment_failures (request_of (Some shopper) 9) "cs_2"
           (order_world PENDING 2)).
  by left.
Defined.

Lemma getCartSession_same_carts req w1 w2 :
  carts w1 = carts w2 → (getCartSession req w1).1 = (getCartSession req w2).1.
Proof.
  intros Hc. unfold getCartSession, upsert_cart.
  destruct (getCurrentUser req) as [user|].
  - act_unfold. rewrite Hc. destruct (find _ (carts w2)); cbn; by rewrite ?Hc.
  - destruct (Js.str_or_undefined (req_cartSession req)) as [s|].
    + act_unfold. rewrite Hc. destruct (find _ (carts w2)); cbn; by rewrite ?Hc.
    + act_unfold. cbn. rewrite Hc. destruct (find _ (carts w2)); cbn; by rewrite ?Hc.
Qed.

Lemma processSuccessfulPayment_world req sessionId w session o :
  stripeSessions w !! sessionId = Some session →
  ss_orderId session = Some (o_id o) →
  orders w !! o_id o = Some o →
  (∀ item, item ∈ o_items o → is_Some (products w !! oi_productId item)) →
  ∃ ps,
    processSuccessfulPayment req sessionId w
    = (Success o,
       with_effect (Revalidate "products")
         (with_effect (Revalidate "orders")
            (with_effect (Mail {| em_to := o_customerEmail o;
                                  em_subject := "Order Confirmation - #" +:+ o_id o |})
               (clearCart req
                  (with_products (λ _, ps)
                     (with_orders
                        (insert (o_id o) (mark_paid (ss_paymentIntent session) (req_now req) o))
                        w))).2))).
Proof.
  intros Hs Hmeta Ho Hex.
  set (o1 := mark_paid (ss_paymentIntent session) (req_now req) o).
  set (w1 := with_orders (insert (o_id o) o1) w).
  destruct (stock_loop (λ item inv, inv - oi_quantity item) (λ item, - oi_quantity item)
              (o_items o) (λ _ _, eq_refl) w1 Hex) as (ps & Hloop & _ & _).
  exists ps.
  unfold processSuccessfulPayment, server_action.
  act_unfold. rewrite Hs, Hmeta, Ho.
  unfold order_update. rewrite Ho. fold o1 w1. rewrite Hloop.
  unfold sendOrderConfirmation, revalidateTag. act_unfold. reflexivity.
Qed.

(** X23: a confirmed payment empties the cart of the signed-in user whose
    request carries the confirmation - whoever owns the order - and keeps
    every other cart's lines.  It hands one confirmation mail for the order
    to the mail service, addressed to the order's customerEmail, and
    revalidates the 'cart', 'orders' and 'products' tags. *)
Theorem processSuccessfulPayment_clears_callers_cart req user sessionId w session o :
  req_user req = Some user →
  stripeSessions w !! sessionId = Some session →
  ss_orderId session = Some (o_id o) →
  orders w !! o_id o = Some o →
  (∀ item, item ∈ o_items o → is_Some (products w !! oi_productId item)) →
  let run := processSuccessfulPayment req sessionId w in
  ∃ cart,
    (getCartSession req w).1 = inr cart
    ∧ cart_userId cart = Some (u_id user)
    ∧ run.1 = Success o
    ∧ cartItems run.2 = filter (λ r, ci_cartId r ≠ cart_id cart) (cartItems w)
    ∧ effects run.2
      = effects w
        ++ [Revalidate "cart";
            Mail {| em_to := o_customerEmail o;
                    em_subject := "Order Confirmation - #" +:+ o_id o |};
            Revalidate "orders"; Revalidate "products"].
Proof.
  intros Hu Hs Hmeta Ho Hex run. subst run.
  destruct (processSuccessfulPayment_world req sessionId w session o Hs Hmeta Ho Hex)
    as (ps & ->).
  set (w2 := with_products _ _).
  destruct (getCartSession_user req user w2 Hu)
    as (cart & w0 & Hcart & Howner & Hrows & _ & Heff & _).
  exists cart. split.
  { rewrite (getCartSession_same_carts req w w2) by done. by rewrite Hcart. }
  rewrite (clearCart_run req w2 cart w0 Hcart).
  cbn [fst snd cartItems effects with_effect with_cartItems].
  split_and!; try done.
  - rewrite Hrows. subst w2. cbn. apply list_filter_iff. intros r.
    by rewrite bool_decide_eq_false.
  - rewrite Heff. subst w2. cbn. by rewrite <- !app_assoc.
Qed.

Lemma processSuccessfulPayment_clears_callers_cart_witness :
  let w := {| products := products (order_world PENDING 2);
              carts := carts two_carts_world; cartItems := cartItems two_carts_world;
              orders := orders (order_world PENDING 2);
              stripeSessions := stripeSessions (order_world PENDING 2); effects := [] |} in
  let run := processSuccessfulPayment (request_of (Some shopper) 9) "cs_1" w in
  cartItems run.2
  = [ {| ci_id := "i2"; ci_cartId := "c2"; ci_productId := "A";
         ci_variantId := None; ci_quantity := 2 |} ]
  ∧ effects run.2
    = [Revalidate "cart";
       Mail {| em_to := "shopper@example.com"; em_subject := "Order Confirmation - #o1" |};
       Revalidate "orders"; Revalidate "products"].
Proof.
  intros w run.
  destruct (processSuccessfulPayment_clears_callers_cart (request_of (Some shopper) 9)
              shopper "cs_1" w
              {| ss_id := "cs_1"; ss_url := "https://pay"; ss_orderId := Some "o1";
                 ss_paymentIntent := Some "pi_1" |}
              (demo_order "o1" (Some "u1") PENDING
                 [{| oi_productId := "P"; oi_quantity := 2; oi_price := 10%float |}])
              eq_refl eq_refl eq_refl eq_refl
              ltac:(intros item ->%list_elem_of_singleton; by eexists))
    as (cart & Hcart & _ & _ & Hrows & Heff).
  split; [|exact Heff].
  subst run. rewrite Hrows.
  vm_compute in Hcart. injection Hcart as <-. by vm_compute.
Defined.

(** X24: [cancelOrder] refuses, and changes nothing, when nobody is signed
    in ('Authentication required'), when the order does not exist ('Order
    not found'), and when the order belongs to someone else or to no user at
    all ('Unauthorized') - so an order placed as a guest cannot be cancelled
    by anyone, an admin included. *)
Theorem cancelOrder_refusals req orderId w :
  (req_user req = None →
   cancelOrder req orderId w = (Failure "Authentication required", w))
  ∧ (∀ user,
       req_user req = Some user →
       orders w !! orderId = None →
       cancelOrder req orderId w = (Failure "Order not found", w))
  ∧ (∀ user o,
       req_user req = Some user →
       orders w !! orderId = Some o →
       o_userId o ≠ Some (u_id user) →
       cancelOrder req orderId w = (Failure "Unauthorized", w)).
Proof.
  unfold cancelOrder, server_action, getCurrentUser. split_and!.
  - by intros ->.
  - intros user -> Hnone. act_unfold. by rewrite Hnone.
  - intros user o -> Ho Hother. act_unfold. rewrite Ho.
    by rewrite bool_decide_eq_true_2.
Qed.

Lemma cancelOrder_refusals_witness :
  let w := with_orders (insert "o9" (demo_order "o9" None PENDING [])) empty_world in
  cancelOrder (request_of (Some admin_user) 3) "o9" w = (Failure "Unauthorized", w)
  ∧ cancelOrder (request_of None 3) "o9" w = (Failure "Authentication required", w).
Proof.
  intros w.
  destruct (cancelOrder_refusals (request_of (Some admin_user) 3) "o9" w) as (_ & _ & Hother).
  destruct (cancelOrder_refusals (request_of None 3) "o9" w) as (Hanon & _).
  split; [|by apply Hanon].
  by apply (Hother admin_user (demo_order "o9" None PENDING [])).
Defined.

(** ** Amounts in cents (lib/stripe.ts) *)

Lemma same_number_eq x y : same_number x y = true → x = y.
Proof.
  unfold same_number. intros H. apply Prim2SF_inj.
  destruct (Prim2SF x) as [a|a| |a m e], (Prim2SF y) as [b|b| |b n f]; try done.
  - by apply Bool.eqb_prop in H as ->.
  - by apply Bool.eqb_prop in H as ->.
  - apply andb_true_iff in H as [[Hs Hm]%andb_true_iff He].
    apply Bool.eqb_prop in Hs as ->. apply Pos.eqb_eq in Hm as ->.
    by apply Z.eqb_eq in He as ->.
Qed.

Lemma cents_round_trip_from_spec count :
  ∀ start cents,
  cents_round_trip_from count start = true →
  start ≤ cents < start + Z.of_nat count →
  cents_round_trip cents = true.
Proof.
  induction count as [|count IH]; intros start cents Hall Hin; [lia|].
  cbn [cents_round_trip_from] in Hall. apply andb_true_iff in Hall as [Hhere Hrest].
  destruct (decide (cents = start)) as [->|Hne]; [done|].
  apply (IH (start + 1)); [done|lia].
Qed.

(** X25: an amount of whole cents that comes from the payment processor is
    not altered by the conversion to the shop's number and back: for every
    integer amount from 0 to 50000 cents, [formatAmountForStripe] of
    [formatAmountFromStripe] of the amount is the amount again, although the
    division by 100 is rounded to binary64. *)
Theorem formatAmount_round_trip cents :
  0 ≤ cents ≤ 50000 →
  formatAmountForStripe (formatAmountFromStripe (Js.of_int cents)) = Js.of_int cents.
Proof.
  intros Hrange. apply same_number_eq.
  apply (cents_round_trip_from_spec (Z.to_nat 50001) 0); [by vm_compute|].
  rewrite Z2Nat.id; lia.
Qed.

Lemma formatAmount_round_trip_witness :
  formatAmountFromStripe 1999 = 19.99%float
  ∧ formatAmountForStripe 19.99 = 1999%float.
Proof.
  split; [reflexivity|].
  exact (formatAmount_round_trip 1999 ltac:(lia)).
Defined.

(** ** Uploads (app/api/upload/route.ts, lib/uploader.ts) *)

Lemma uploadFile_run env file folder type b :
  let allowed := match type with
                 | image => ALLOWED_IMAGE_TYPES
                 | document => ALLOWED_DOCUMENT_TYPES
                 end in
  let maxSize := match type with image => MAX_IMAGE_SIZE | document => MAX_FILE_SIZE end in
  let key := generateFileName env (file_name file) folder in
  if bool_decide (file_type file ∈ allowed) && (file_size file <=? maxSize) && env_s3Up env
  then uploadFile env file folder type b
       = (inr {| ur_url := env_CDN_URL env +:+ "/" +:+ key; ur_key := key;
                 ur_size := file_size file |},
          {[ key ]} ∪ b)
  else ∃ e, uploadFile env file folder type b = (inl e, b).
Proof.
  intros allowed maxSize key.
  unfold uploadFile, validateFile, uploadToS3, mbind, S3_bind, mret, S3_ret, s3_throw.
  fold allowed maxSize key.
  destruct (bool_decide (file_type file ∈ allowed)); cbn; [|by eauto].
  rewrite Z.leb_antisym. destruct (maxSize <? file_size file); cbn; [by eauto|].
  destruct (env_s3Up env); [done|by eauto].
Qed.

Lemma allowedTypes_cases type :
  allowedTypes type
  = if bool_decide (type = "document")
    then Some ["application/pdf"; "text/plain"; "application/msword"]
    else if bool_decide (type ∈ Object_prototype_keys) then None
    else Some ["image/jpeg"; "image/png"; "image/webp"].
Proof.
  unfold allowedTypes.
  case_bool_decide as Himg.
  - rewrite !elem_of_cons, elem_of_nil in Himg.
    destruct Himg as [->|[->|[]]]; reflexivity.
  - done.
Qed.

(** X26: [POST /api/upload] never answers 403: the role check tests the
    promise of an [async] call it does not await, so every signed-in user
    passes it.  The route stores a file, and answers 200, exactly when the
    caller is signed in, the field holds a file of type image/jpeg,
    image/png or image/webp of at most 5 MB (the uploader's limit for
    images, not the 10 MB the route checks), the upload type is not
    'document' (nor a member of [Object.prototype]), and the storage service
    answers; in every other case the bucket is left as it was. *)
Theorem POST_upload_outcomes env req fileField typeField b :
  let run := POST_upload env req fileField typeField b in
  let kind := default "product-image" (Js.str_or_undefined typeField) in
  res_status run.1 ≠ 403
  ∧ (res_status run.1 = 200 ↔
     is_Some (req_user req)
     ∧ kind ≠ "document"
     ∧ (kind ∉ Object_prototype_keys)
     ∧ env_s3Up env = true
     ∧ ∃ file, fileField = FileField file
               ∧ file_type file ∈ ["image/jpeg"; "image/png"; "image/webp"]
               ∧ file_size file ≤ MAX_IMAGE_SIZE)
  ∧ (res_status run.1 ≠ 200 → run.2 = b)
  ∧ (res_status run.1 = 200 →
     ∃ file key,
       fileField = FileField file
       ∧ key = generateFileName env (file_name file) "[object Object]"
       ∧ res_url run.1 = Some (env_CDN_URL env +:+ "/" +:+ key)
       ∧ run.2 = {[ key ]} ∪ b).
Proof.
  intros run kind. subst run. unfold POST_upload, getCurrentUser.
  destruct (req_user req) as [user|]; cbn [truthy_object negb andb].
  2:{ cbn. split_and!; try done. split; [done|]. by intros ([u Hu] & _). }
  fold kind.
  assert (Hsome : is_Some (Some user)) by by eexists.
  destruct fileField as [|s|file].
  - cbn. split_and!; try done. split; [done|]. by intros (_ & _ & _ & _ & f & Hf & _).
  - destruct s as [|c s].
    { cbn. split_and!; try done. split; [done|]. by intros (_ & _ & _ & _ & f & Hf & _). }
    destruct (allowedTypes kind); cbn; (split_and!; try done);
      (split; [done|]; by intros (_ & _ & _ & _ & f & Hf & _)).
  - rewrite allowedTypes_cases.
    case_bool_decide as Hdoc.
    { (* documents pass the route's filter and fail the uploader's *)
      destruct (bool_decide (file_type file ∈ _)) eqn:Htype; cbn [negb].
      2:{ cbn. split_and!; try done. split; [done|]. by intros (_ & ? & _). }
      destruct (10 * 1024 * 1024 <? file_size file); cbn.
      { split_and!; try done. split; [done|]. by intros (_ & ? & _). }
      apply bool_decide_eq_true in Htype.
      pose proof (uploadFile_run env file "[object Object]" image b) as Hup.
      cbn zeta in Hup.
      rewrite bool_decide_eq_false_2 in Hup.
      2:{ intros Himg. unfold ALLOWED_IMAGE_TYPES in Himg.
          rewrite !elem_of_cons, elem_of_nil in Htype.
          rewrite !elem_of_cons, elem_of_nil in Himg.
          destruct Htype as [E|[E|[E|[]]]]; rewrite E in Himg;
            by destruct Himg as [?|[?|[?|[?|[]]]]]. }
      destruct Hup as [e ->]. cbn.
      split_and!; try done. split; [done|]. by intros (_ & ? & _). }
    case_bool_decide as Hproto.
    { cbn. split_and!; try done. split; [done|]. by intros (_ & _ & ? & _). }
    destruct (bool_decide (file_type file ∈ _)) eqn:Htype; cbn [negb].
    2:{ apply bool_decide_eq_false in Htype.
        cbn. split_and!; try done. split; [done|].
        by intros (_ & _ & _ & _ & f & [= <-] & ? & _). }
    apply bool_decide_eq_true in Htype.
    destruct (10 * 1024 * 1024 <? file_size file) eqn:Hbig; cbn.
    { apply Z.ltb_lt in Hbig.
      split_and!; try done. split; [done|].
      intros (_ & _ & _ & _ & f & [= <-] & _ & Hsize). unfold MAX_IMAGE_SIZE in Hsize. lia. }
    pose proof (uploadFile_run env file "[object Object]" image b) as Hup.
    cbn zeta in Hup.
    rewrite bool_decide_eq_true_2 in Hup.
    2:{ unfold ALLOWED_IMAGE_TYPES. rewrite !elem_of_cons, elem_of_nil in Htype.
        rewrite !elem_of_cons. tauto. }
    cbn [andb] in Hup.
    destruct ((file_size file <=? MAX_IMAGE_SIZE) && env_s3Up env) eqn:Hok.
    + rewrite Hup. cbn. apply andb_true_iff in Hok as [Hsize%Z.leb_le Hs3].
      split_and!; try done.
      * split; [|done]. intros _. split_and!; try done. by exists file.
      * intros _. by exists file, (generateFileName env (file_name file) "[object Object]").
    + destruct Hup as [e ->]. cbn. split_and!; try done. split; [done|].
      intros (_ & _ & _ & Hs3 & f & [= <-] & _ & Hsize).
      apply andb_false_iff in Hok as [Hok%Z.leb_gt|Hok]; [lia|congruence].
Qed.

Lemma POST_upload_outcomes_witness :
  let env := {| env_CDN_URL := "https://cdn.example"; env_timestamp := "1700000000000";
                env_randomString := "k3x9"; env_s3Up := true; env_resizes := λ _, true |} in
  let photo := {| file_name := "photo.png"; file_type := "image/png";
                  file_size := 6 * 1024 * 1024 |} in
  let run := POST_upload env (request_of (Some shopper) 0) (FileField photo) None ∅ in
  res_status run.1 = 500 ∧ run.2 = ∅.
Proof.
  intros env photo run.
  destruct (POST_upload_outcomes env (request_of (Some shopper) 0) (FileField photo) None ∅)
    as (_ & _ & Hkeep & _).
  split; [reflexivity|]. apply Hkeep. by vm_compute.
Defined.

(** *** File names, keys and URLs *)

Lemma string_app_cons x (a b : string) : String x a +:+ b = String x (a +:+ b).
Proof. reflexivity. Qed.

Lemma string_app_assoc (a b c : string) : (a +:+ b) +:+ c = a +:+ (b +:+ c).
Proof. induction a as [|x a IH]; [done|]. by rewrite !string_app_cons, IH. Qed.

Lemma string_app_nil_r (a : string) : a +:+ "" = a.
Proof. induction a as [|x a IH]; [done|]. by rewrite string_app_cons, IH. Qed.

Lemma string_length_app (a b : string) :
  String.length (a +:+ b) = (String.length a + String.length b)%nat.
Proof.
  induction a as [|x a IH]; [done|]. rewrite string_app_cons. cbn. by rewrite IH.
Qed.

Lemma prefix_app (p k : string) : String.prefix p (p +:+ k) = true.
Proof.
  induction p as [|x p IH]; [by destruct k|]. rewrite string_app_cons. cbn.
  by destruct (Ascii.ascii_dec x x).
Qed.

Lemma substring_all (k : string) : String.substring 0 (String.length k) k = k.
Proof. induction k as [|x k IH]; [done|]. cbn. by rewrite IH. Qed.

Lemma substring_app (p k : string) :
  String.substring (String.length p) (String.length (p +:+ k) - String.length p) (p +:+ k) = k.
Proof.
  rewrite string_length_app.
  replace (String.length p + String.length k - String.length p)%nat
    with (String.length k) by lia.
  induction p as [|x p IH]; [apply substring_all|].
  rewrite string_app_cons. cbn. exact IH.
Qed.

Lemma replace_first_unfold pattern replacement s :
  replace_first pattern replacement s
  = if String.prefix pattern s then
      replacement +:+ String.substring (String.length pattern)
                        (String.length s - String.length pattern) s
    else
      match s with
      | EmptyString => EmptyString
      | String c rest => String c (replace_first pattern replacement rest)
      end.
Proof. by destruct s. Qed.

Lemma replace_first_prefix pattern replacement k :
  replace_first pattern replacement (pattern +:+ k) = replacement +:+ k.
Proof. by rewrite replace_first_unfold, prefix_app, substring_app. Qed.

(** X27: the key [extractKeyFromUrl] reads off the URL of an upload is the
    key the object was stored under, whatever the key and the CDN_URL
    setting are: what [uploadToS3] returns can be handed back for
    deletion. *)
Theorem extractKeyFromUrl_of_upload env size key contentType b :
  env_s3Up env = true →
  ∃ result,
    uploadToS3 env size key contentType b = (inr result, {[ key ]} ∪ b)
    ∧ ur_key result = key
    ∧ extractKeyFromUrl env (ur_url result) = key
    ∧ (deleteFromS3 env (extractKeyFromUrl env (ur_url result)) ({[ key ]} ∪ b)).2
      = b ∖ {[ key ]}.
Proof.
  intros Hup. unfold uploadToS3, deleteFromS3, extractKeyFromUrl. rewrite Hup.
  eexists. split; [done|]. cbn [ur_key ur_url]. split; [done|].
  rewrite <- string_app_assoc, replace_first_prefix. split; [done|].
  cbn. change ("" +:+ key) with key. apply set_eq. intros k.
  rewrite !elem_of_difference, elem_of_union, !elem_of_singleton. tauto.
Qed.

Lemma extractKeyFromUrl_of_upload_witness :
  let env := {| env_CDN_URL := "https://cdn.example"; env_timestamp := "1700000000000";
                env_randomString := "k3x9"; env_s3Up := true; env_resizes := λ _, true |} in
  extractKeyFromUrl env "https://cdn.example/products/a_1_b.png" = "products/a_1_b.png".
Proof.
  intros env.
  destruct (extractKeyFromUrl_of_upload env 10 "products/a_1_b.png" "image/png" ∅ eq_refl)
    as (result & Hrun & _ & Hkey & _).
  injection Hrun as <-. exact Hkey.
Defined.

(** *** An image, its variants and their deletion *)

Lemma string_app_inv_head (a b c : string) : a +:+ b = a +:+ c → b = c.
Proof.
  induction a as [|x a IH]; [done|]. rewrite !string_app_cons.
  intros [= H]. by apply IH.
Qed.

Lemma string_app_nil_l (a : string) : "" +:+ a = a.
Proof. reflexivity. Qed.

(** Two keys made of the same stem and different endings differ. *)
Ltac distinct_keys :=
  let Heq := fresh "Heq" in
  intros Heq; apply string_app_inv_head in Heq;
  rewrite ?string_app_cons, ?string_app_nil_l in Heq; congruence.

Lemma after_last_dot_from_no_dot s candidate :
  has_char "." s = false → after_last_dot_from s candidate = candidate.
Proof.
  revert candidate. induction s as [|c s IH]; intros candidate; [done|].
  cbn [has_char after_last_dot_from]. destruct (char_is c "."); [done|].
  cbn. apply IH.
Qed.

Lemma before_last_dot_no_dot s : has_char "." s = false → before_last_dot s = None.
Proof.
  induction s as [|c s IH]; [done|]. cbn [has_char before_last_dot].
  destruct (char_is c "."); [done|]. cbn. intros H. by rewrite IH.
Qed.

Lemma dot_app (ext : string) :
  ∃ c, "." +:+ ext = String c ext ∧ char_is c "." = true.
Proof. eexists. split; reflexivity. Qed.

Lemma after_last_dot_from_app x ext candidate :
  has_char "." ext = false →
  after_last_dot_from (x +:+ "." +:+ ext) candidate = ext.
Proof.
  intros Hext. revert candidate.
  induction x as [|c x IH]; intros candidate.
  - change ("" +:+ "." +:+ ext) with ("." +:+ ext).
    destruct (dot_app ext) as (c & -> & Hc).
    cbn [after_last_dot_from]. rewrite Hc.
    by apply after_last_dot_from_no_dot.
  - rewrite string_app_cons. cbn [after_last_dot_from].
    destruct (char_is c "."); apply IH.
Qed.

Lemma before_last_dot_app x ext :
  has_char "." ext = false → before_last_dot (x +:+ "." +:+ ext) = Some x.
Proof.
  intros Hext. induction x as [|c x IH].
  - change ("" +:+ "." +:+ ext) with ("." +:+ ext).
    destruct (dot_app ext) as (c & -> & Hc).
    cbn [before_last_dot]. by rewrite before_last_dot_no_dot, Hc.
  - rewrite string_app_cons. cbn [before_last_dot]. by rewrite IH.
Qed.

(** What follows the last ['.'] holds no ['.']. *)
Lemma split_dot_pop_no_dot s : has_char "." (split_dot_pop s) = false.
Proof.
  unfold split_dot_pop.
  assert (Hdot : ∀ s candidate, has_char "." s = true →
                   has_char "." (after_last_dot_from s candidate) = false).
  { clear s. induction s as [|c s IH]; intros candidate; [done|].
    cbn [has_char after_last_dot_from]. destruct (char_is c ".") eqn:Hc; cbn.
    - intros _. destruct (has_char "." s) eqn:Hs; [by apply IH|].
      by rewrite after_last_dot_from_no_dot.
    - apply IH. }
  destruct (has_char "." s) eqn:Hs; [by apply Hdot|].
  by rewrite after_last_dot_from_no_dot.
Qed.

Lemma strip_extension_app x ext :
  has_char "." ext = false → nonempty ext = true → has_char "/" ext = false →
  strip_extension (x +:+ "." +:+ ext) = x ∧ split_dot_pop (x +:+ "." +:+ ext) = ext.
Proof.
  intros Hdot Hne Hslash. unfold strip_extension, split_dot_pop.
  rewrite before_last_dot_app, after_last_dot_from_app by done.
  by rewrite Hne, Hslash.
Qed.

(** The name under which a file is stored ends in ['.'] and the extension of
    the name it was uploaded with. *)
Lemma generateFileName_shape env originalName folder :
  ∃ stem, generateFileName env originalName folder
          = stem +:+ "." +:+ split_dot_pop originalName.
Proof.
  unfold generateFileName. destruct (nonempty folder); eexists.
  - rewrite <- !string_app_assoc. reflexivity.
  - rewrite <- !string_app_assoc. reflexivity.
Qed.

Lemma extractKeyFromUrl_url env key :
  extractKeyFromUrl env (env_CDN_URL env +:+ "/" +:+ key) = key.
Proof.
  unfold extractKeyFromUrl. by rewrite <- string_app_assoc, replace_first_prefix.
Qed.

(** X28: an image stored with its variants by [uploadImageWithVariants] and
    deleted again through [deleteImageWithVariants] leaves its three
    variants in the bucket unless the extension of the name it was uploaded
    with is 'jpg': the variants are stored under the extension of the file
    and looked for under '.jpg'.  The original is removed in either case.
    (The file is an image of an allowed type and size, its extension is not
    empty and holds no ['/'], and the storage service and the resizing
    work.) *)
Theorem deleteImageWithVariants_leaves_variants env variantSize file folder b :
  let extension := split_dot_pop (file_name file) in
  file_type file ∈ ALLOWED_IMAGE_TYPES →
  (file_size file ≤ MAX_IMAGE_SIZE) →
  nonempty extension = true →
  has_char "/" extension = false →
  env_s3Up env = true →
  (∀ variantName, env_resizes env variantName = true) →
  ∃ original b1 b2,
    uploadImageWithVariants env variantSize file folder b = (inr original, b1)
    ∧ deleteImageWithVariants env (ur_url original) b1 = (inr tt, b2)
    ∧ ur_key original = generateFileName env (file_name file) folder
    ∧ ur_key original ∈ b1
    ∧ (ur_key original ∉ b2)
    ∧ ∀ config, config ∈ IMAGE_VARIANTS.*2 →
        let variantKey :=
          strip_extension (ur_key original) +:+ iv_suffix config +:+ "." +:+ extension in
        variantKey ∈ b1 ∧ (variantKey ∈ b2 ↔ extension ≠ "jpg").
Proof.
  intros extension Htype Hsize Hne Hslash Hup Hresize.
  destruct (generateFileName_shape env (file_name file) folder) as [stem Hname].
  fold extension in Hname.
  assert (Hdot : has_char "." extension = false) by apply split_dot_pop_no_dot.
  destruct (strip_extension_app stem extension Hdot Hne Hslash) as [Hstrip Hpop].
  unfold uploadImageWithVariants, deleteImageWithVariants, validateFile.
  rewrite (bool_decide_eq_true_2 _ Htype).
  replace (MAX_IMAGE_SIZE <? file_size file) with false
    by (symmetry; apply Z.ltb_ge, Hsize).
  unfold uploadToS3, deleteFromS3, mbind, S3_bind, mret, S3_ret, s3_throw.
  cbn [negb IMAGE_VARIANTS s3_for_each s3_try fmap list_fmap snd iv_suffix
       mbind S3_bind mret S3_ret].
  rewrite Hup, !Hresize, !Hname, Hstrip, Hpop. cbn [ur_url ur_key].
  unfold mbind, S3_bind, mret, S3_ret, s3_throw, s3_try.
  eexists _, _, _. split; [reflexivity|]. cbn [ur_url ur_key].
  rewrite extractKeyFromUrl_url, Hstrip.
  split; [reflexivity|].
  split; [done|].
  split; [rewrite !elem_of_union, !elem_of_singleton; auto 6|].
  split.
  { rewrite !elem_of_difference, !elem_of_singleton. intros [[[[_ Hkey] _] _] _]. by apply Hkey. }
  assert (Hjpg : ∀ suffix, extension = "jpg" →
            stem +:+ suffix +:+ "." +:+ extension = stem +:+ suffix +:+ ".jpg").
  { by intros suffix ->. }
  intros config Hin. rewrite !elem_of_cons, elem_of_nil in Hin.
  rewrite !elem_of_difference, !elem_of_union, !elem_of_singleton.
  destruct Hin as [->|[->|[->|[]]]]; cbn [iv_suffix];
    (split; [auto 6|]); split.
  - intros [[[_ Hkeep] _] _] Hext. by apply Hkeep, Hjpg.
  - intros Hext. repeat split; [auto 6|..]; distinct_keys.
  - intros [[_ Hkeep] _] Hext. by apply Hkeep, Hjpg.
  - intros Hext. repeat split; [auto 6|..]; distinct_keys.
  - intros [_ Hkeep] Hext. by apply Hkeep, Hjpg.
  - intros Hext. repeat split; [auto 6|..]; distinct_keys.
Qed.

Lemma deleteImageWithVariants_leaves_variants_witness :
  let env := {| env_CDN_URL := "https://cdn.example"; env_timestamp := "1700000000000";
                env_randomString := "k3x9"; env_s3Up := true; env_resizes := λ _, true |} in
  let file := {| file_name := "photo.png"; file_type := "image/png"; file_size := 1000 |} in
  ∃ b2,
    (∃ original b1,
       uploadImageWithVariants env (λ _, 100) file "products" ∅ = (inr original, b1)
       ∧ deleteImageWithVariants env (ur_url original) b1 = (inr tt, b2))
    ∧ "products/photo_1700000000000_k3x9_thumb.png" ∈ b2.
Proof.
  intros env file.
  destruct (deleteImageWithVariants_leaves_variants env (λ _, 100) file "products" ∅)
    as (original & b1 & b2 & Hup & Hdel & Hkey & _ & _ & Hvar).
  - apply (bool_decide_unpack _). by vm_compute.
  - by vm_compute.
  - reflexivity.
  - reflexivity.
  - reflexivity.
  - reflexivity.
  - exists b2. split; [by exists original, b1|].
    specialize (Hvar {| iv_width := 300; iv_height := 300; iv_suffix := "_thumb" |}
                  (list_elem_of_here _ _)).
    rewrite Hkey in Hvar. apply Hvar. by vm_compute.
Defined.

(** X29: [DELETE /api/upload] deletes nothing: whatever the caller and the
    URL, the bucket is as it was before.  It never answers 403, the role
    check testing the promise of a call it does not await, and answers 200
    exactly when the caller is signed in and the [url] parameter is there
    and not empty. *)
Theorem DELETE_upload_deletes_nothing req url b :
  let run := DELETE_upload req url b in
  run.2 = b
  ∧ res_status run.1 ≠ 403
  ∧ (res_status run.1 = 200 ↔
     is_Some (req_user req) ∧ ∃ fileUrl, url = Some fileUrl ∧ fileUrl ≠ "").
Proof.
  intros run. subst run. unfold DELETE_upload, getCurrentUser.
  destruct (req_user req) as [user|]; cbn [truthy_object negb].
  2:{ cbn. split_and!; try done. split; [done|]. by intros [[u Hu] _]. }
  assert (Hsome : is_Some (Some user)) by by eexists.
  destruct url as [[|c s]|]; cbn; (split_and!; try done).
  - split; [done|]. by intros (_ & fileUrl & [= <-] & ?).
  - split; [|done]. intros _. split; [done|]. by eexists.
  - split; [done|]. by intros (_ & fileUrl & ? & _).
Qed.
